(** * M3U Matrix CDS v5.0 install monitor: model and verified properties

    A shallow embedding of [M3U_Installer_Monitor.py].  The module-level
    mutable objects of the script ([error_tracker], [audit]) become fields of
    an explicit [World]; every function of the script is a computation in a
    state-and-exception monad over that world.  What the script asks of its
    surroundings (the wall clock, the child process, the file system) is
    passed in explicitly. *)

From Stdlib Require Import Ascii.
From Stdlib Require QArith.
From stdpp Require Import gmap strings list fin_maps pretty.

Open Scope string_scope.
Open Scope list_scope.
Open Scope Z_scope.

(* ===================================================================== *)
(** ** Strings *)
(* ===================================================================== *)

Module Str.

(** The line feed of Python's ["\n"]. *)
Definition nl : string := String (Ascii.ascii_of_nat 10) EmptyString.

(** A line of text followed by a line feed. *)
Definition ln (s : string) : string := s +:+ nl.

(** Python's [needle in haystack] on [str]. *)
Fixpoint contains (needle haystack : string) : bool :=
  String.prefix needle haystack
  || match haystack with
     | EmptyString => false
     | String _ rest => contains needle rest
     end.

(** ["%0<width>d"] for a non-negative number already rendered as [s]. *)
Fixpoint zfill_go (missing : nat) (s : string) : string :=
  match missing with
  | O => s
  | S k => zfill_go k ("0" +:+ s)
  end.

Definition zfill (width : nat) (n : Z) : string :=
  let s := pretty n in
  zfill_go (width - String.length s)%nat s.

(** [str.lower()] on the ASCII letters. *)
Definition lower_ascii (c : Ascii.ascii) : Ascii.ascii :=
  let n := Ascii.nat_of_ascii c in
  if ((65 <=? n) && (n <=? 90))%nat then Ascii.ascii_of_nat (n + 32) else c.

Fixpoint lower (s : string) : string :=
  match s with
  | EmptyString => EmptyString
  | String c rest => String (lower_ascii c) (lower rest)
  end.

(** The text after the last path separator ([PurePath.name]). *)
Fixpoint path_name_go (acc s : string) : string :=
  match s with
  | EmptyString => acc
  | String c rest =>
      if (Ascii.eqb c "/" || Ascii.eqb c "\")%char
      then path_name_go rest rest
      else path_name_go acc rest
  end.

Definition path_name (p : string) : string := path_name_go p p.

(** Position of the last ["."] of [s], counted from the start
    ([str.rfind(".")], [None] for Python's [-1]). *)
Fixpoint rfind_dot (s : string) : option nat :=
  match s with
  | EmptyString => None
  | String c rest =>
      match rfind_dot rest with
      | Some i => Some (S i)
      | None => if Ascii.eqb c "."%char then Some O else None
      end
  end.

(** [PurePath.suffix]: the last dot-separated component of the name, dot
    included, unless the name starts or ends with that dot. *)
Definition path_suffix (p : string) : string :=
  let name := path_name p in
  match rfind_dot name with
  | Some i =>
      if ((0 <? i) && (i <? String.length name - 1))%nat
      then String.substring i (String.length name - i) name
      else ""
  | None => ""
  end.

End Str.

(** Python's [range(lo, hi)]. *)
Definition range (lo hi : Z) : list Z :=
  (λ i : nat, lo + Z.of_nat i) <$> seq 0 (Z.to_nat (hi - lo)).

(* ===================================================================== *)
(** ** Wall-clock values

    The part of Python's [datetime] the script relies on: [isoformat],
    [strftime("%Y-%m-%d %H:%M:%S")], subtraction and [str] of the
    resulting [timedelta]. *)
(* ===================================================================== *)

Module DT.

Record datetime := mk_datetime {
  year : Z; month : Z; day : Z;
  hour : Z; minute : Z; second : Z; microsecond : Z
}.

Definition date_text (d : datetime) : string :=
  Str.zfill 4 (year d) +:+ "-" +:+ Str.zfill 2 (month d) +:+ "-" +:+ Str.zfill 2 (day d).

Definition time_text (d : datetime) : string :=
  Str.zfill 2 (hour d) +:+ ":" +:+ Str.zfill 2 (minute d) +:+ ":" +:+ Str.zfill 2 (second d).

(** [d.isoformat()] *)
Definition isoformat (d : datetime) : string :=
  date_text d +:+ "T" +:+ time_text d
  +:+ (if microsecond d =? 0 then "" else "." +:+ Str.zfill 6 (microsecond d)).

(** [d.strftime("%Y-%m-%d %H:%M:%S")] *)
Definition strftime (d : datetime) : string :=
  date_text d +:+ " " +:+ time_text d.

Definition is_leap (y : Z) : bool :=
  (y mod 4 =? 0) && (negb (y mod 100 =? 0) || (y mod 400 =? 0)).

Definition days_before_year (y : Z) : Z :=
  let p := y - 1 in p * 365 + p / 4 - p / 100 + p / 400.

Definition days_before_month (y m : Z) : Z :=
  nth (Z.to_nat m) [-1; 0; 31; 59; 90; 120; 151; 181; 212; 243; 273; 304; 334] 0
  + (if (2 <? m) && is_leap y then 1 else 0).

(** [d.toordinal()] *)
Definition toordinal (d : datetime) : Z :=
  days_before_year (year d) + days_before_month (year d) (month d) + day d.

(** A normalised [timedelta]: [0 <= td_seconds < 86400] and
    [0 <= td_microseconds < 1000000]. *)
Record timedelta := mk_timedelta {
  td_days : Z; td_seconds : Z; td_microseconds : Z
}.

(** [a - b] on datetimes. *)
Definition sub (a b : datetime) : timedelta :=
  let secs (d : datetime) := second d + minute d * 60 + hour d * 3600 in
  let total := ((toordinal a - toordinal b) * 86400 + (secs a - secs b)) * 1000000
               + (microsecond a - microsecond b) in
  let rest := total mod 86400000000 in
  {| td_days := total / 86400000000;
     td_seconds := rest / 1000000;
     td_microseconds := rest mod 1000000 |}.

(** [str(td)] *)
Definition timedelta_str (td : timedelta) : string :=
  let mm := td_seconds td / 60 in
  let ss := td_seconds td mod 60 in
  let hh := mm / 60 in
  let mm := mm mod 60 in
  (if td_days td =? 0 then ""
   else pretty (td_days td) +:+ " day" +:+ (if Z.abs (td_days td) =? 1 then "" else "s") +:+ ", ")
  +:+ pretty hh +:+ ":" +:+ Str.zfill 2 mm +:+ ":" +:+ Str.zfill 2 ss
  +:+ (if td_microseconds td =? 0 then "" else "." +:+ Str.zfill 6 (td_microseconds td)).

End DT.

(* ===================================================================== *)
(** ** Data model *)
(* ===================================================================== *)

(** The severities [add_error] is called with. *)
Inductive Severity := LOW | MEDIUM | HIGH | CRITICAL.

Definition severity_str (s : Severity) : string :=
  match s with
  | LOW => "LOW" | MEDIUM => "MEDIUM" | HIGH => "HIGH" | CRITICAL => "CRITICAL"
  end.

#[global] Instance Severity_eq_dec : EqDecision Severity.
Proof. solve_decision. Defined.

(** The statuses [add_step] is called with. *)
Inductive Status := RUNNING | SUCCESS | WARNING | FAILED.

Definition status_str (s : Status) : string :=
  match s with
  | RUNNING => "RUNNING" | SUCCESS => "SUCCESS" | WARNING => "WARNING" | FAILED => "FAILED"
  end.

#[global] Instance Status_eq_dec : EqDecision Status.
Proof. solve_decision. Defined.

(** [error_data] of [ErrorTracker.add_error].  Time stamps are kept as
    clock values; the script stores their [isoformat()] text, which
    [datetime.fromisoformat] reads back unchanged. *)
Record ErrorRecord := mk_error {
  e_category : string;
  e_error : string;
  e_severity : Severity;
  e_suggestion : string;
  e_timestamp : DT.datetime;
  e_retry_count : nat
}.

(** [warning_data] of [ErrorTracker.add_warning]. *)
Record WarningRecord := mk_warning {
  w_category : string;
  w_warning : string;
  w_suggestion : string;
  w_timestamp : DT.datetime
}.

(** [class ErrorTracker]: [self.errors], [self.warnings], [self.retries]. *)
Record ErrorTracker := mk_tracker {
  errors : list ErrorRecord;
  warnings : list WarningRecord;
  retries : gmap string nat
}.

(** [ErrorTracker.severity_levels] *)
Definition severity_levels : list (string * string) :=
  [ ("LOW", "Minor issue - doesn't affect functionality");
    ("MEDIUM", "Some features may be limited");
    ("HIGH", "Critical functionality missing");
    ("CRITICAL", "Installation failed") ].

(** [step_data] of [add_step]. *)
Record Step := mk_step {
  s_name : string;
  s_status : Status;
  s_details : string;
  s_attempt : Z;
  s_time : DT.datetime
}.

(** The [audit] dictionary.  Its ["attempts"] and ["system_info"] entries are
    created empty and never read or written, and are left out. *)
Record Audit := mk_audit {
  start_time : DT.datetime;
  steps : list Step;
  end_time : option DT.datetime;
  success : bool
}.

(** What the script does to its surroundings, in the order it does it. *)
Inductive event :=
  | EvSleep (seconds : nat)          (* time.sleep(seconds) *)
  | EvPopen (attempt : Z)            (* subprocess.Popen, made in that attempt *)
  | EvPoll                           (* proc.poll() *)
  | EvExists (path : string)         (* Path.exists() *)
  | EvStat (path : string)           (* Path.stat() *)
  | EvRglob (path : string)          (* Path.rglob('*') *)
  | EvReadText (path : string)       (* Path.read_text() *)
  | EvWriteText (path : string).     (* open(path, "w").write(...) *)

#[global] Instance event_eq_dec : EqDecision event.
Proof. solve_decision. Defined.

(** The state the script's functions share.  [log] holds the lines handed to
    the log file by [safe_log], oldest first; [ticks] counts the calls of
    [datetime.now()] made so far.  What the script prints on the console
    is not kept. *)
Record World := mk_world {
  error_tracker : ErrorTracker;
  audit : Audit;
  log : list string;
  trace : list event;
  ticks : nat
}.

(** Python exceptions, as far as the handlers of the script tell them
    apart; the string is [str(e)]. *)
Inductive exn :=
  | UnicodeDecodeError (msg : string)
  | OtherException (msg : string).

Definition exn_str (e : exn) : string :=
  match e with UnicodeDecodeError m | OtherException m => m end.

Inductive result (A : Type) :=
  | Ok (a : A)
  | Raise (e : exn).
Arguments Ok {A} a.
Arguments Raise {A} e.

(** The constants of the CONFIG block.  [DESKTOP] and [cwd] are
    [str(Path.home() / "Desktop")] and [str(Path.cwd())] on the host,
    [path_sep] is the host's path separator. *)
Record Config := mk_config {
  BAT_FILE : string;
  EXPECTED_FILES : list string;
  DESKTOP : string;
  path_sep : string;
  cwd : string
}.

Definition APP_NAME : string := "M3U Matrix CDS v5.0".

(** [BAT_FILE] and [EXPECTED_FILES] as the script sets them. *)
Definition source_BAT_FILE : string := "installer m3u builder.bat".

Definition source_EXPECTED_FILES : list string :=
  [ "main.py"; "gemini_api.py"; "imdb_scraper.py"; "requirements.txt";
    "build_installer.py"; "weebly_player_full.html"; "player/player-logic.js";
    "themes/dark.json"; "themes/neon.json"; "electron_app/main.js";
    "electron_app/preload.js"; "electron_app/package.json" ].

Definition source_config (desktop sep cwd : string) : Config :=
  {| BAT_FILE := source_BAT_FILE; EXPECTED_FILES := source_EXPECTED_FILES;
     DESKTOP := desktop; path_sep := sep; cwd := cwd |}.

Definition joinpath (c : Config) (dir name : string) : string :=
  dir +:+ path_sep c +:+ name.

Definition INSTALL_DIR (c : Config) : string := joinpath c (DESKTOP c) APP_NAME.
Definition LOG_FILE (c : Config) : string := joinpath c (INSTALL_DIR c) "install_audit.log".
Definition REPORT_FILE (c : Config) : string := joinpath c (INSTALL_DIR c) "AUDIT_REPORT.txt".
Definition DIAGNOSTICS_FILE (c : Config) : string :=
  joinpath c (INSTALL_DIR c) "SYSTEM_DIAGNOSTICS.json".

(* ===================================================================== *)
(** ** The monad of the script: shared state and exceptions *)
(* ===================================================================== *)

Definition M (A : Type) : Type := World -> result A * World.

Definition ret {A} (a : A) : M A := fun w => (Ok a, w).

Definition bind {A B} (m : M A) (k : A -> M B) : M B :=
  fun w =>
    match m w with
    | (Ok a, w') => k a w'
    | (Raise e, w') => (Raise e, w')
    end.

Definition raise {A} (e : exn) : M A := fun w => (Raise e, w).

(** [try: body  except Exception as e: handler(e)] *)
Definition try_except {A} (body : M A) (handler : exn -> M A) : M A :=
  fun w =>
    match body w with
    | (Ok a, w') => (Ok a, w')
    | (Raise e, w') => handler e w'
    end.

Declare Scope m_scope.
Delimit Scope m_scope with M.
Notation "x <- m ;; k" := (bind m (fun x => k))
  (at level 100, m at next level, right associativity) : m_scope.
Notation "m ;;; k" := (bind m (fun _ => k))
  (at level 100, right associativity) : m_scope.
Open Scope m_scope.

Definition get_tracker : M ErrorTracker := fun w => (Ok (error_tracker w), w).
Definition get_audit : M Audit := fun w => (Ok (audit w), w).

Definition modify_tracker (f : ErrorTracker -> ErrorTracker) : M unit :=
  fun w => (Ok tt, {| error_tracker := f (error_tracker w); audit := audit w;
                      log := log w; trace := trace w; ticks := ticks w |}).

Definition modify_audit (f : Audit -> Audit) : M unit :=
  fun w => (Ok tt, {| error_tracker := error_tracker w; audit := f (audit w);
                      log := log w; trace := trace w; ticks := ticks w |}).

Definition write_log (line : string) : M unit :=
  fun w => (Ok tt, {| error_tracker := error_tracker w; audit := audit w;
                      log := log w ++ [line]; trace := trace w; ticks := ticks w |}).

Definition emit (ev : event) : M unit :=
  fun w => (Ok tt, {| error_tracker := error_tracker w; audit := audit w;
                      log := log w; trace := trace w ++ [ev]; ticks := ticks w |}).

(** [time.sleep(seconds)] *)
Definition sleep (seconds : nat) : M unit := emit (EvSleep seconds).

(* ===================================================================== *)
(** ** The child process and the file system, as the script sees them *)
(* ===================================================================== *)

(** An installer process: it is reported as still running by the first
    [after] calls of [poll()] made on it and as exited with [code] by every
    later one, or it never exits. *)
Inductive process :=
  | Exits (after : nat) (code : Z)
  | NeverExits.

(** What [subprocess.Popen(...)] does: it hands back a process or raises. *)
Inductive launch_outcome :=
  | Launched (p : process)
  | LaunchFails (e : exn).

(** The [Popen] object: the process and the number of polls made on it. *)
Record Popen := mk_popen {
  child : process;
  polls_done : nat
}.

(** The answer of the [k]-th poll (counted from 0) on a process. *)
Definition observed (p : process) (k : nat) : option Z :=
  match p with
  | Exits after code => if (after <=? k)%nat then Some code else None
  | NeverExits => None
  end.

(** The installer file: what [stat().st_size] and
    [read_text(encoding='utf-8')] give on it. *)
Record BatFile := mk_bat {
  bat_stat : result nat;
  bat_read_text : result string
}.

(** One entry below the installation directory, in the order [rglob('*')]
    yields them; [f_path] is relative to the directory, written as the
    manifest writes paths. *)
Record fnode := mk_fnode {
  f_path : string;
  f_is_file : bool;
  f_stat : result nat
}.

Definition find_node (path : string) (nodes : list fnode) : option fnode :=
  List.find (fun n => bool_decide (f_path n = path)) nodes.

(** The local [checks] of [verify_installer_comprehensive]. *)
Record Checks := mk_checks {
  c_exists : bool;
  c_size_bytes : nat;
  c_is_batch_file : bool;
  c_content_check : bool;
  c_encoding_valid : bool
}.

(** An entry of [verification["files_found"]]. *)
Record FoundFile := mk_found {
  ff_path : string;
  ff_size_bytes : nat;
  ff_is_empty : bool
}.

(** The [verification] dictionary ([directory_structure], created empty and
    never touched, is left out). *)
Record Verification := mk_verification {
  files_found : list FoundFile;
  files_missing : list string;
  files_partial : list string;
  total_expected : nat;
  install_size_bytes : nat
}.

(** An insertion-ordered [dict] from strings to counts, as iterated by
    [.items()]. *)
Fixpoint dict_incr (key : string) (d : list (string * nat)) : list (string * nat) :=
  match d with
  | [] => [(key, 1%nat)]
  | (k, n) :: rest =>
      if bool_decide (k = key) then (k, (n + 1)%nat) :: rest
      else (k, n) :: dict_incr key rest
  end.

(* ===================================================================== *)
(** ** class ErrorTracker *)
(* ===================================================================== *)

Module Tracker.

(** [ErrorTracker.__init__] *)
Definition init : ErrorTracker :=
  {| errors := []; warnings := []; retries := ∅ |}.

(** [ErrorTracker.get_retry_count] *)
Definition get_retry_count (category : string) (t : ErrorTracker) : nat :=
  default 0%nat (retries t !! category).

(** [ErrorTracker.increment_retry] *)
Definition increment_retry (category : string) (t : ErrorTracker) : ErrorTracker :=
  {| errors := errors t;
     warnings := warnings t;
     retries := <[category := (default 0%nat (retries t !! category) + 1)%nat]> (retries t) |}.

(** [ErrorTracker.add_error], given the reading of the clock. *)
Definition add_error (timestamp : DT.datetime) (category error : string)
    (severity : Severity) (suggestion : string) (t : ErrorTracker)
    : ErrorRecord * ErrorTracker :=
  let error_data :=
    {| e_category := category; e_error := error; e_severity := severity;
       e_suggestion := suggestion; e_timestamp := timestamp;
       e_retry_count := default 0%nat (retries t !! category) |} in
  (error_data,
   {| errors := errors t ++ [error_data]; warnings := warnings t; retries := retries t |}).

(** [ErrorTracker.add_warning], given the reading of the clock. *)
Definition add_warning (timestamp : DT.datetime) (category warning suggestion : string)
    (t : ErrorTracker) : WarningRecord * ErrorTracker :=
  let warning_data :=
    {| w_category := category; w_warning := warning;
       w_suggestion := suggestion; w_timestamp := timestamp |} in
  (warning_data,
   {| errors := errors t; warnings := warnings t ++ [warning_data]; retries := retries t |}).

(** The calls a client can make on the tracker. *)
Inductive op :=
  | AddError (timestamp : DT.datetime) (category error : string)
             (severity : Severity) (suggestion : string)
  | AddWarning (timestamp : DT.datetime) (category warning suggestion : string)
  | IncrementRetry (category : string).

Definition apply_op (t : ErrorTracker) (o : op) : ErrorTracker :=
  match o with
  | AddError ts c e s g => snd (add_error ts c e s g t)
  | AddWarning ts c x g => snd (add_warning ts c x g t)
  | IncrementRetry c => increment_retry c t
  end.

(** A tracker as any sequence of calls leaves it, starting from [t]. *)
Definition run_ops (t : ErrorTracker) (os : list op) : ErrorTracker :=
  fold_left apply_op os t.

(** How often [increment_retry(category)] occurs in a sequence of calls. *)
Fixpoint increments_of (category : string) (os : list op) : nat :=
  match os with
  | [] => 0%nat
  | IncrementRetry c :: rest =>
      ((if bool_decide (c = category) then 1 else 0) + increments_of category rest)%nat
  | _ :: rest => increments_of category rest
  end.

End Tracker.

(* ===================================================================== *)
(** ** The functions of the script *)
(* ===================================================================== *)

Section Monitor.

(** The configuration, and the clock: [clock n] is what the [n]-th call of
    [datetime.now()] returns. *)
Variable cfg : Config.
Variable clock : nat -> DT.datetime.

(** [datetime.now()] *)
Definition now : M DT.datetime :=
  fun w => (Ok (clock (ticks w)),
            {| error_tracker := error_tracker w; audit := audit w;
               log := log w; trace := trace w; ticks := S (ticks w) |}).

(** [safe_log(message, level)].  The line goes to the log file; whether
    the write succeeded only changes what is printed on the console,
    which is not part of the world. *)
Definition safe_log (message level : string) : M unit :=
  timestamp <- now ;;
  write_log ("[" +:+ DT.strftime timestamp +:+ "] " +:+ level +:+ ": " +:+ message +:+ Str.nl).

(** [error_tracker.add_error(category, error, severity, suggestion)] *)
Definition add_error (category error : string) (severity : Severity) (suggestion : string)
    : M ErrorRecord :=
  timestamp <- now ;;
  t <- get_tracker ;;
  let '(error_data, t') := Tracker.add_error timestamp category error severity suggestion t in
  modify_tracker (fun _ => t') ;;;
  ret error_data.

(** [error_tracker.add_warning(category, warning, suggestion)] *)
Definition add_warning (category warning suggestion : string) : M WarningRecord :=
  timestamp <- now ;;
  t <- get_tracker ;;
  let '(warning_data, t') := Tracker.add_warning timestamp category warning suggestion t in
  modify_tracker (fun _ => t') ;;;
  ret warning_data.

(** [error_tracker.increment_retry(category)] *)
Definition increment_retry (category : string) : M unit :=
  modify_tracker (Tracker.increment_retry category).

(** [add_step(name, status, details, attempt)]; the defaults of the
    script are [status="RUNNING"], [details=""], [attempt=1]. *)
Definition add_step (name : string) (status : Status) (details : string) (attempt : Z)
    : M unit :=
  time <- now ;;
  let step_data :=
    {| s_name := name; s_status := status; s_details := details;
       s_attempt := attempt; s_time := time |} in
  modify_audit (fun a => {| start_time := start_time a; steps := steps a ++ [step_data];
                            end_time := end_time a; success := success a |}) ;;;
  safe_log (status_str status +:+ ": " +:+ name +:+ " (Attempt " +:+ pretty attempt
            +:+ ") — " +:+ details) "INFO".

(** Runs [m] and hands back its outcome instead of raising. *)
Definition attempt_to {A} (m : M A) : M (result A) :=
  fun w => let '(r, w') := m w in (Ok r, w').

(* ------------------------------------------------------------------- *)
(** *** verify_installer_comprehensive *)
(* ------------------------------------------------------------------- *)

Definition key_markers : list string :=
  ["@echo off"; "M3U Matrix"; "pip install"; "python"].

(** The function with its local [checks] made visible: the first
    component is [checks] as it stands when the function returns, the
    second is the value returned.  [bat] is the installer file, [None]
    when [BAT_FILE.exists()] is false. *)
Definition verify_installer_checked (bat : option BatFile) : M (Checks * bool) :=
  add_step "Comprehensive installer verification" RUNNING "" 1 ;;;
  let checks := {| c_exists := false; c_size_bytes := 0; c_is_batch_file := false;
                   c_content_check := false; c_encoding_valid := false |} in
  (* Check 1: File exists *)
  emit (EvExists (BAT_FILE cfg)) ;;;
  match bat with
  | None =>
      add_error "Installer Verification" ("File not found: " +:+ BAT_FILE cfg) CRITICAL
        ("Ensure 'installer m3u builder.bat' is in: " +:+ cwd cfg) ;;;
      ret (checks, false)
  | Some file =>
      let checks := {| c_exists := true; c_size_bytes := c_size_bytes checks;
                       c_is_batch_file := c_is_batch_file checks;
                       c_content_check := c_content_check checks;
                       c_encoding_valid := c_encoding_valid checks |} in
      (* Check 2: File size *)
      emit (EvStat (BAT_FILE cfg)) ;;;
      match bat_stat file with
      | Raise e =>
          (* except Exception as e *)
          add_error "Installer Verification" (exn_str e) HIGH "" ;;;
          ret (checks, false)
      | Ok file_size =>
          let checks := {| c_exists := c_exists checks; c_size_bytes := file_size;
                           c_is_batch_file := c_is_batch_file checks;
                           c_content_check := c_content_check checks;
                           c_encoding_valid := c_encoding_valid checks |} in
          (if (file_size <? 100)%nat
           then add_warning "Installer Size"
                  ("Installer file very small: " +:+ pretty file_size +:+ " bytes")
                  "File may be corrupted or incomplete" ;;; ret tt
           else ret tt) ;;;
          (* Check 3: File extension *)
          let checks := {| c_exists := c_exists checks; c_size_bytes := c_size_bytes checks;
                           c_is_batch_file :=
                             bool_decide (Str.lower (Str.path_suffix (BAT_FILE cfg)) = ".bat");
                           c_content_check := c_content_check checks;
                           c_encoding_valid := c_encoding_valid checks |} in
          (* Check 4: Content validation *)
          emit (EvReadText (BAT_FILE cfg)) ;;;
          match bat_read_text file with
          | Ok content =>
              let checks := {| c_exists := c_exists checks;
                               c_size_bytes := c_size_bytes checks;
                               c_is_batch_file := c_is_batch_file checks;
                               c_content_check := true; c_encoding_valid := true |} in
              let markers_found :=
                List.filter (fun marker => Str.contains marker content) key_markers in
              (if (length markers_found <? 2)%nat
               then add_warning "Installer Content" "Missing expected batch file markers"
                      "File may not be a valid installer" ;;; ret tt
               else ret tt) ;;;
              add_step "Comprehensive installer verification" SUCCESS
                ("Size: " +:+ pretty file_size +:+ " bytes, Markers: "
                 +:+ pretty (length markers_found) +:+ "/4") 1 ;;;
              ret (checks, true)
          | Raise (UnicodeDecodeError _) =>
              let checks := {| c_exists := c_exists checks;
                               c_size_bytes := c_size_bytes checks;
                               c_is_batch_file := c_is_batch_file checks;
                               c_content_check := c_content_check checks;
                               c_encoding_valid := false |} in
              add_error "Installer Encoding" "Batch file has invalid encoding" HIGH
                "Re-download the installer file" ;;;
              ret (checks, false)
          | Raise (OtherException msg) =>
              (* except Exception as e *)
              add_error "Installer Verification" msg HIGH "" ;;;
              ret (checks, false)
          end
      end
  end.

Definition verify_installer_comprehensive (bat : option BatFile) : M bool :=
  r <- verify_installer_checked bat ;;
  ret (snd r).

(* ------------------------------------------------------------------- *)
(** *** verify_installation_comprehensive *)
(* ------------------------------------------------------------------- *)

(** [for file_path in INSTALL_DIR.rglob('*')]: the sizes of the regular
    files, added up; a failing [stat()] raises. *)
Fixpoint rglob_size (nodes : list fnode) (total_size : nat) : M nat :=
  match nodes with
  | [] => ret total_size
  | n :: rest =>
      if f_is_file n then
        emit (EvStat (joinpath cfg (INSTALL_DIR cfg) (f_path n))) ;;;
        match f_stat n with
        | Ok size => rglob_size rest (total_size + size)%nat
        | Raise e => raise e
        end
      else rglob_size rest total_size
  end.

(** [for file_path in EXPECTED_FILES]: [verification] is updated in place,
    so what was classified before a failing [stat()] stays in it; the
    second component is the exception, if one was raised. *)
Fixpoint classify_files (nodes : list fnode) (paths : list string) (verification : Verification)
    : M (Verification * option exn) :=
  match paths with
  | [] => ret (verification, None)
  | file_path :: rest =>
      let full_path := joinpath cfg (INSTALL_DIR cfg) file_path in
      emit (EvExists full_path) ;;;
      match find_node file_path nodes with
      | Some n =>
          emit (EvStat full_path) ;;;
          match f_stat n with
          | Raise e => ret (verification, Some e)
          | Ok file_size =>
              let verification :=
                {| files_found := files_found verification
                                  ++ [ {| ff_path := file_path; ff_size_bytes := file_size;
                                          ff_is_empty := (file_size =? 0)%nat |} ];
                   files_missing := files_missing verification;
                   files_partial := files_partial verification;
                   total_expected := total_expected verification;
                   install_size_bytes := install_size_bytes verification |} in
              if (file_size =? 0)%nat then
                let verification :=
                  {| files_found := files_found verification;
                     files_missing := files_missing verification;
                     files_partial := files_partial verification ++ [file_path];
                     total_expected := total_expected verification;
                     install_size_bytes := install_size_bytes verification |} in
                add_warning "File Content" ("Empty file: " +:+ file_path)
                  "File was created but contains no data" ;;;
                classify_files nodes rest verification
              else classify_files nodes rest verification
          end
      | None =>
          classify_files nodes rest
            {| files_found := files_found verification;
               files_missing := files_missing verification ++ [file_path];
               files_partial := files_partial verification;
               total_expected := total_expected verification;
               install_size_bytes := install_size_bytes verification |}
      end
  end.

(** The part of the function after the loops ("Analyze results"). *)
Definition analyze_results (verification : Verification) (total_size : nat) : M Verification :=
  let found_count := length (files_found verification) in
  let missing_count := length (files_missing verification) in
  let empty_count := length (files_partial verification) in
  safe_log ("Installation Analysis: " +:+ pretty found_count +:+ " found, "
            +:+ pretty missing_count +:+ " missing, " +:+ pretty empty_count +:+ " empty")
           "INFO" ;;;
  (if (0 <? missing_count)%nat
   then add_error "File Verification"
          (pretty missing_count +:+ " files missing, " +:+ pretty empty_count +:+ " files empty")
          (if (5 <? missing_count)%nat then HIGH else MEDIUM)
          "Check network connection and GitHub availability" ;;; ret tt
   else ret tt) ;;;
  (if (found_count =? 0)%nat
   then add_error "Installation" "No expected files were installed" CRITICAL
          "The installer may be downloading to wrong location or failing completely" ;;; ret tt
   else ret tt) ;;;
  add_step "Comprehensive installation verification"
    (if (missing_count =? 0)%nat then SUCCESS else WARNING)
    ("Files: " +:+ pretty found_count +:+ "/" +:+ pretty (length (EXPECTED_FILES cfg))
     +:+ " found, Size: " +:+ pretty total_size +:+ " bytes") 1 ;;;
  ret verification.

(** [tree] is the content of the installation directory, [None] when
    [INSTALL_DIR.exists()] is false. *)
Definition verify_installation_comprehensive (tree : option (list fnode)) : M Verification :=
  add_step "Comprehensive installation verification" RUNNING "" 1 ;;;
  let verification :=
    {| files_found := []; files_missing := []; files_partial := [];
       total_expected := length (EXPECTED_FILES cfg); install_size_bytes := 0 |} in
  (* Check if installation directory exists at all *)
  emit (EvExists (INSTALL_DIR cfg)) ;;;
  match tree with
  | None =>
      add_error "Installation Directory"
        ("Installation directory not created: " +:+ INSTALL_DIR cfg) CRITICAL
        "The installer may have failed at folder creation step" ;;;
      ret verification
  | Some nodes =>
      (* Count total installation size *)
      emit (EvRglob (INSTALL_DIR cfg)) ;;;
      sized <- attempt_to (rglob_size nodes 0) ;;
      match sized with
      | Raise e =>
          add_error "Installation Verification" (exn_str e) HIGH "" ;;;
          ret verification
      | Ok total_size =>
          let verification :=
            {| files_found := files_found verification;
               files_missing := files_missing verification;
               files_partial := files_partial verification;
               total_expected := total_expected verification;
               install_size_bytes := total_size |} in
          (* Check each expected file *)
          classified <- classify_files nodes (EXPECTED_FILES cfg) verification ;;
          match classified with
          | (verification, Some e) =>
              add_error "Installation Verification" (exn_str e) HIGH "" ;;;
              ret verification
          | (verification, None) => analyze_results verification total_size
          end
      end
  end.

(* ------------------------------------------------------------------- *)
(** *** run_installer_with_retries *)
(* ------------------------------------------------------------------- *)

(** [subprocess.Popen(['cmd', '/c', str(BAT_FILE)], ...)]; [installer k]
    is what the launch made in attempt [k] leads to. *)
Definition popen (installer : Z -> launch_outcome) (attempt : Z) : M Popen :=
  emit (EvPopen attempt) ;;;
  match installer attempt with
  | Launched p => ret {| child := p; polls_done := 0 |}
  | LaunchFails e => raise e
  end.

(** [proc.poll()] *)
Definition poll (proc : Popen) : M (option Z * Popen) :=
  emit EvPoll ;;;
  ret (observed (child proc) (polls_done proc),
       {| child := child proc; polls_done := S (polls_done proc) |}).

Definition max_wait : nat := 300.

(** [for i in range(max_wait)]: a second of sleep, a poll, and a progress
    line every thirtieth round; [rounds] are the values of [i] still to
    come. *)
Fixpoint wait_for_exit (attempt : Z) (rounds : list nat) (proc : Popen) : M Popen :=
  match rounds with
  | [] => ret proc
  | i :: rest =>
      sleep 1 ;;;
      polled <- poll proc ;;
      match fst polled with
      | Some _ => ret (snd polled)                        (* break *)
      | None =>
          (if (i mod 30 =? 0)%nat
           then safe_log ("Installer running... (" +:+ pretty i +:+ "s, attempt "
                          +:+ pretty attempt +:+ ")") "INFO"
           else ret tt) ;;;
          wait_for_exit attempt rest (snd polled)
      end
  end.

Definition attempt_name (attempt : Z) : string :=
  "Run installer - Attempt " +:+ pretty attempt.

(** [status_msg], from the return code read at "Check result". *)
Definition status_msg (return_code : option Z) : string :=
  match return_code with
  | Some code => "Exit code: " +:+ pretty code
  | None => "Timed out"
  end.

(** ["HIGH" if attempt == max_attempts else "MEDIUM"] *)
Definition attempt_severity (max_attempts attempt : Z) : Severity :=
  if attempt =? max_attempts then HIGH else MEDIUM.

(** The suggestion recorded with a failed attempt. *)
Definition retry_suggestion (max_attempts attempt : Z) : string :=
  if attempt <? max_attempts
  then "Retrying... (" +:+ pretty attempt +:+ "/" +:+ pretty max_attempts +:+ ")"
  else "All retries exhausted".

(** The body of the [for attempt in range(1, max_attempts + 1)] loop:
    [Some b] when the body executes [return b], [None] when it runs to its
    end and the loop goes on. *)
Definition installer_attempt (installer : Z -> launch_outcome) (max_attempts attempt : Z)
    : M (option bool) :=
  increment_retry "Installer Execution" ;;;
  add_step (attempt_name attempt) RUNNING "" attempt ;;;
  safe_log ("Starting installer attempt " +:+ pretty attempt +:+ "/" +:+ pretty max_attempts)
           "INFO" ;;;
  try_except
    ( (* Run the installer *)
      proc <- popen installer attempt ;;
      (* Extended monitoring with progress updates *)
      proc <- wait_for_exit attempt (seq 0 max_wait) proc ;;
      (* Check result *)
      polled <- poll proc ;;
      let return_code := fst polled in
      if bool_decide (return_code = Some 0) then
        add_step (attempt_name attempt) SUCCESS
                 ("Completed on attempt " +:+ pretty attempt) 1 ;;;
        safe_log ("Installer completed successfully on attempt " +:+ pretty attempt) "INFO" ;;;
        ret (Some true)
      else
        add_step (attempt_name attempt) FAILED (status_msg return_code) 1 ;;;
        add_error "Installer Execution"
          ("Attempt " +:+ pretty attempt +:+ " failed: " +:+ status_msg return_code)
          (attempt_severity max_attempts attempt)
          (retry_suggestion max_attempts attempt) ;;;
        if attempt <? max_attempts then
          safe_log ("Waiting 5 seconds before retry " +:+ pretty (attempt + 1) +:+ "...")
                   "INFO" ;;;
          sleep 5 ;;;
          ret None
        else
          safe_log "All installation attempts failed" "INFO" ;;;
          ret (Some false) )
    (fun e =>
       add_error "Installer Execution"
         ("Attempt " +:+ pretty attempt +:+ " crashed: " +:+ exn_str e)
         (attempt_severity max_attempts attempt) "" ;;;
       if attempt <? max_attempts then sleep 5 ;;; ret None
       else ret (Some false)).

Fixpoint retry_loop (installer : Z -> launch_outcome) (max_attempts : Z) (attempts : list Z)
    : M bool :=
  match attempts with
  | [] => ret false
  | attempt :: rest =>
      r <- installer_attempt installer max_attempts attempt ;;
      match r with
      | Some b => ret b
      | None => retry_loop installer max_attempts rest
      end
  end.

Definition run_installer_with_retries (installer : Z -> launch_outcome) (max_attempts : Z)
    : M bool :=
  retry_loop installer max_attempts (range 1 (max_attempts + 1)).

(* ------------------------------------------------------------------- *)
(** *** generate_comprehensive_report *)
(* ------------------------------------------------------------------- *)

(** [error_summary["by_severity"]] and [error_summary["by_category"]] *)
Definition by_severity (es : list ErrorRecord) : list (string * nat) :=
  fold_left (fun d e => dict_incr (severity_str (e_severity e)) d) es [].

Definition by_category (es : list ErrorRecord) : list (string * nat) :=
  fold_left (fun d e => dict_incr (e_category e) d) es [].

Definition count_lines (d : list (string * nat)) : string :=
  fold_left (fun report kv => report +:+ "  " +:+ fst kv +:+ ": " +:+ pretty (snd kv)
                              +:+ " error(s)" +:+ Str.nl) d "".

Definition step_lines (s : Step) : string :=
  let status_icon :=
    match s_status s with
    | SUCCESS => "✅" | WARNING => "⚠️" | _ => "❌"
    end in
  "  " +:+ status_icon +:+ " [" +:+ status_str (s_status s) +:+ "] " +:+ s_name s +:+ Str.nl
  +:+ (if bool_decide (s_details s = "") then ""
       else "      → " +:+ s_details s +:+ Str.nl)
  +:+ (if 1 <? s_attempt s
       then "      → Attempt: " +:+ pretty (s_attempt s) +:+ Str.nl
       else "").

Definition suggestion_line (suggestion : string) : string :=
  if bool_decide (suggestion = "") then ""
  else "      💡 Suggestion: " +:+ suggestion +:+ Str.nl.

Definition critical_error_lines (e : ErrorRecord) : string :=
  match e_severity e with
  | HIGH | CRITICAL =>
      "  🚨 " +:+ e_category e +:+ ": " +:+ e_error e +:+ Str.nl
      +:+ suggestion_line (e_suggestion e)
  | _ => ""
  end.

Definition warning_lines (x : WarningRecord) : string :=
  "  ⚠️  " +:+ w_category x +:+ ": " +:+ w_warning x +:+ Str.nl
  +:+ suggestion_line (w_suggestion x).

Definition concat_map {A} (f : A -> string) (l : list A) : string :=
  fold_left (fun report a => report +:+ f a) l "".

(** "Smart recommendations based on error analysis" *)
Definition recommendations (t : ErrorTracker) (audit_success : bool) : list string :=
  let recs : list string :=
    ((if existsb (fun e => Str.contains "Network" (e_category e)) (errors t)
      then ["• Check your internet connection and firewall settings"] else [])
    ++ (if existsb (fun e => Str.contains "Installer" (e_category e)) (errors t)
        then ["• Verify the installer file is complete and not corrupted"] else [])
    ++ (if existsb (fun x => Str.contains "Disk" (w_category x)) (warnings t)
        then ["• Free up disk space on your desktop drive"] else [])
    ++ (if existsb (fun e => Str.contains "File Verification" (e_category e)) (errors t)
        then ["• The installer may be blocked from downloading files";
              "• Try running as Administrator";
              "• Check antivirus software isn't blocking the installation"]
        else []))%list in
  match recs with
  | [] =>
      if audit_success
      then ["• Installation completed successfully!"; "• Run: START M3U Matrix.bat"]
      else ["• Review the errors above and try again"; "• Contact support with the audit log"]
  | _ => recs
  end.

(** The report text, from what the function reads: the tracker, the
    [audit] dictionary (with [end_time] already set) and the constants. *)
Definition report_text (t : ErrorTracker) (a : Audit) (end_dt : DT.datetime) : string :=
  let duration := DT.sub end_dt (start_time a) in
  Str.nl
  +:+ Str.ln "╔════════════════════════════════════════════════════════════╗"
  +:+ Str.ln "║          M3U MATRIX CDS v5.0 - ENHANCED AUDIT REPORT       ║"
  +:+ Str.ln "╚════════════════════════════════════════════════════════════╝"
  +:+ Str.nl
  +:+ Str.ln "TIMELINE:"
  +:+ Str.ln ("  Start    : " +:+ DT.isoformat (start_time a))
  +:+ Str.ln ("  End      : " +:+ DT.isoformat end_dt)
  +:+ Str.ln ("  Duration : " +:+ DT.timedelta_str duration)
  +:+ Str.nl
  +:+ Str.ln "SUMMARY:"
  +:+ Str.ln ("  Success  : " +:+ (if success a then "✅ YES" else "❌ NO"))
  +:+ Str.ln ("  Errors   : " +:+ pretty (length (errors t)))
  +:+ Str.ln ("  Warnings : " +:+ pretty (length (warnings t)))
  +:+ Str.nl
  +:+ Str.ln "ERROR SEVERITY BREAKDOWN:"
  +:+ count_lines (by_severity (errors t))
  +:+ Str.nl +:+ Str.ln "ERROR CATEGORIES:"
  +:+ count_lines (by_category (errors t))
  +:+ Str.nl +:+ Str.ln "DETAILED STEPS:"
  +:+ concat_map step_lines (steps a)
  +:+ (match errors t with
       | [] => ""
       | _ => Str.nl +:+ Str.ln "CRITICAL ERRORS:" +:+ concat_map critical_error_lines (errors t)
       end)
  +:+ (match warnings t with
       | [] => ""
       | _ => Str.nl +:+ Str.ln "WARNINGS:" +:+ concat_map warning_lines (warnings t)
       end)
  +:+ Str.nl +:+ Str.ln "RECOMMENDATIONS:"
  +:+ concat_map (fun rec => "  " +:+ rec +:+ Str.nl) (recommendations t (success a))
  +:+ Str.nl
  +:+ Str.ln "FILES:"
  +:+ Str.ln ("  Log          : " +:+ LOG_FILE cfg)
  +:+ Str.ln ("  Report       : " +:+ REPORT_FILE cfg)
  +:+ Str.ln ("  Diagnostics  : " +:+ DIAGNOSTICS_FILE cfg)
  +:+ Str.ln ("  Installer    : " +:+ BAT_FILE cfg)
  +:+ Str.ln ("  Location     : " +:+ INSTALL_DIR cfg)
  +:+ Str.nl
  +:+ Str.ln "Thank you for using M3U Matrix CDS v5.0!".

(** [written] is what writing [REPORT_FILE] leads to: success or the
    exception raised by [open] or [write]. *)
Definition generate_comprehensive_report (written : result unit) : M string :=
  end_dt <- now ;;
  modify_audit (fun a => {| start_time := start_time a; steps := steps a;
                            end_time := Some end_dt; success := success a |}) ;;;
  t <- get_tracker ;;
  a <- get_audit ;;
  let report := report_text t a end_dt in
  emit (EvWriteText (REPORT_FILE cfg)) ;;;
  match written with
  | Ok _ =>
      safe_log ("Comprehensive audit report saved: " +:+ REPORT_FILE cfg) "INFO" ;;;
      ret report
  | Raise e =>
      safe_log ("Failed to save report: " +:+ exn_str e) "INFO" ;;;
      ret report
  end.

(* ------------------------------------------------------------------- *)
(** *** main, steps 4 to 6 *)
(* ------------------------------------------------------------------- *)

(** What [main] does once the user has confirmed: run the installer with
    retries, verify the installation, set [audit["success"]] and build
    the report.  The value is that of main's locals
    [installation_success], [verification] and [report]. *)
Definition main_install_verify_report (installer : Z -> launch_outcome)
    (tree : option (list fnode)) (written : result unit) : M (bool * Verification * string) :=
  (* Step 4: Run Installer with Retries *)
  safe_log "Starting enhanced installation with retry support..." "INFO" ;;;
  installation_success <- run_installer_with_retries installer 3 ;;
  (* Step 5: Comprehensive Verification *)
  verification <- verify_installation_comprehensive tree ;;
  (* Determine overall success *)
  modify_audit (fun a =>
    {| start_time := start_time a; steps := steps a; end_time := end_time a;
       success := installation_success
                  && (length (files_missing verification) =? 0)%nat |}) ;;;
  (* Step 6: Generate Comprehensive Report *)
  report <- generate_comprehensive_report written ;;
  safe_log "=== ENHANCED MONITORING COMPLETED ===" "INFO" ;;;
  ret (installation_success, verification, report).

End Monitor.

(* ===================================================================== *)
(** ** Observations used in the statements *)
(* ===================================================================== *)

(** A step without its time stamp: name, status, details, attempt. *)
Definition step_view (s : Step) : string * Status * string * Z :=
  (s_name s, s_status s, s_details s, s_attempt s).

(** An error record without its time stamp. *)
Definition error_view (e : ErrorRecord) : string * string * Severity * string * nat :=
  (e_category e, e_error e, e_severity e, e_suggestion e, e_retry_count e).

(** A warning record without its time stamp. *)
Definition warning_view (x : WarningRecord) : string * string * string :=
  (w_category x, w_warning x, w_suggestion x).

(** The attempts in which a process launch was made, in order. *)
Fixpoint launches (evs : list event) : list Z :=
  match evs with
  | [] => []
  | EvPopen attempt :: rest => attempt :: launches rest
  | _ :: rest => launches rest
  end.

(** The events of the bounded wait on a launched process: one-second sleeps
    and polls. *)
Definition is_wait_event (ev : event) : Prop := ev = EvSleep 1 \/ ev = EvPoll.

(** The checks made on single files: [exists()] and [stat()] on a path
    other than the installation directory itself. *)
Definition is_file_check (c : Config) (ev : event) : bool :=
  match ev with
  | EvExists p => negb (bool_decide (p = INSTALL_DIR c))
  | EvStat _ => true
  | _ => false
  end.

(** How many steps of a given status a step log holds. *)
Definition count_status (st : Status) (l : list Step) : nat :=
  length (List.filter (fun s => bool_decide (s_status s = st)) l).

(** The manifest entries present below the installation directory, with the
    size [stat()] reports for them. *)
Fixpoint found_of (nodes : list fnode) (paths : list string) : list FoundFile :=
  match paths with
  | [] => []
  | p :: rest =>
      match find_node p nodes with
      | Some n =>
          match f_stat n with
          | Ok size => {| ff_path := p; ff_size_bytes := size;
                          ff_is_empty := (size =? 0)%nat |} :: found_of nodes rest
          | Raise _ => found_of nodes rest
          end
      | None => found_of nodes rest
      end
  end.

(** The manifest entries absent from the installation directory. *)
Definition missing_of (nodes : list fnode) (paths : list string) : list string :=
  List.filter (fun p => bool_decide (find_node p nodes = None)) paths.

(** The found entries of size zero. *)
Definition empty_of (found : list FoundFile) : list string :=
  ff_path <$> List.filter ff_is_empty found.

(** The aggregate error of "Analyze results", without its time stamp. *)
Definition missing_files_error (missing_count empty_count retry_count : nat)
    : string * string * Severity * string * nat :=
  ("File Verification",
   pretty missing_count +:+ " files missing, " +:+ pretty empty_count +:+ " files empty",
   (if (5 <? missing_count)%nat then HIGH else MEDIUM),
   "Check network connection and GitHub availability", retry_count).

(** The error for an installation with none of the expected files. *)
Definition nothing_installed_error (retry_count : nat)
    : string * string * Severity * string * nat :=
  ("Installation", "No expected files were installed", CRITICAL,
   "The installer may be downloading to wrong location or failing completely", retry_count).

(** The warning recorded for a found file of size zero. *)
Definition empty_file_warning (file_path : string) : string * string * string :=
  ("File Content", "Empty file: " +:+ file_path, "File was created but contains no data").

(** Weakest precondition of a computation of the script: [Q] holds of the
    outcome and the world [m] ends in. *)
Definition wp {A} (m : M A) (w : World) (Q : result A -> World -> Prop) : Prop :=
  Q (fst (m w)) (snd (m w)).

(** What the bounded wait leaves of a world: the ledger and the audit are
    untouched, and only one-second sleeps and polls have happened. *)
Definition waited (w w' : World) : Prop :=
  error_tracker w' = error_tracker w /\ audit w' = audit w
  /\ exists evs : list event, trace w' = trace w ++ evs /\ Forall is_wait_event evs.

(** What one pass through the body of the retry loop leaves of a world:
    the retry counter of the category is incremented, the RUNNING step and
    [new_steps] are appended to the step log, [new_errors] to the errors,
    and the launch, the wait and [after_wait] to the trace; everything else
    of the ledger and the audit is as before. *)
Record attempt_effects (w w' : World) (attempt : Z)
    (new_steps : list (string * Status * string * Z))
    (new_errors : list (string * string * Severity * string * nat))
    (after_wait : list event) : Prop := {
  ae_retries :
    retries (error_tracker w')
    = retries (Tracker.increment_retry "Installer Execution" (error_tracker w));
  ae_warnings : warnings (error_tracker w') = warnings (error_tracker w);
  ae_errors :
    error_view <$> errors (error_tracker w')
    = (error_view <$> errors (error_tracker w)) ++ new_errors;
  ae_steps :
    step_view <$> steps (audit w')
    = (step_view <$> steps (audit w)) ++ (attempt_name attempt, RUNNING, "", attempt) :: new_steps;
  ae_start_time : start_time (audit w') = start_time (audit w);
  ae_end_time : end_time (audit w') = end_time (audit w);
  ae_success : success (audit w') = success (audit w);
  ae_trace :
    exists waits : list event, Forall is_wait_event waits
                  /\ trace w' = trace w ++ EvPopen attempt :: waits ++ after_wait
}.

(** The step and the error record a failed attempt leaves, by what the
    launch led to. *)
Definition failure_steps (o : launch_outcome) (attempt : Z)
    : list (string * Status * string * Z) :=
  match o with
  | Launched p => [(attempt_name attempt, FAILED, status_msg (observed p max_wait), 1)]
  | LaunchFails _ => []
  end.

Definition failure_error (o : launch_outcome) (max_attempts attempt : Z) (retry_count : nat)
    : string * string * Severity * string * nat :=
  match o with
  | Launched p =>
      ("Installer Execution",
       "Attempt " +:+ pretty attempt +:+ " failed: " +:+ status_msg (observed p max_wait),
       attempt_severity max_attempts attempt, retry_suggestion max_attempts attempt, retry_count)
  | LaunchFails e =>
      ("Installer Execution",
       "Attempt " +:+ pretty attempt +:+ " crashed: " +:+ exn_str e,
       attempt_severity max_attempts attempt, "", retry_count)
  end.

(** An attempt fails when the launch raises or the return code read at
    "Check result" is not 0. *)
Definition attempt_fails (o : launch_outcome) : Prop :=
  match o with
  | Launched p => observed p max_wait <> Some 0
  | LaunchFails _ => True
  end.

(** The error records a run of failed attempts leaves, the first of them
    made when the retry counter stood at [retry_count]. *)
Fixpoint failure_errors (installer : Z -> launch_outcome) (max_attempts : Z)
    (attempts : list Z) (retry_count : nat)
    : list (string * string * Severity * string * nat) :=
  match attempts with
  | [] => []
  | attempt :: rest =>
      failure_error (installer attempt) max_attempts attempt (S retry_count)
      :: failure_errors installer max_attempts rest (S retry_count)
  end.

(** The steps a run of failed attempts leaves. *)
Definition failure_trail (installer : Z -> launch_outcome) (attempts : list Z)
    : list (string * Status * string * Z) :=
  attempts ≫= (fun attempt =>
    (attempt_name attempt, RUNNING, "", attempt) :: failure_steps (installer attempt) attempt).

(** What a run of the retry loop leaves of a world: the launches made, the
    steps and error records appended, the retry counter of the category
    advanced by one per launch; the rest of ledger and audit as before. *)
Record loop_effects (w w' : World) (attempts : list Z)
    (new_steps : list (string * Status * string * Z))
    (new_errors : list (string * string * Severity * string * nat)) : Prop := {
  le_launches : launches (trace w') = launches (trace w) ++ attempts;
  le_steps : step_view <$> steps (audit w') = (step_view <$> steps (audit w)) ++ new_steps;
  le_errors :
    error_view <$> errors (error_tracker w')
    = (error_view <$> errors (error_tracker w)) ++ new_errors;
  le_retry_count :
    Tracker.get_retry_count "Installer Execution" (error_tracker w')
    = (Tracker.get_retry_count "Installer Execution" (error_tracker w) + length attempts)%nat;
  le_retries_other :
    forall c, c <> "Installer Execution" ->
      Tracker.get_retry_count c (error_tracker w') = Tracker.get_retry_count c (error_tracker w);
  le_warnings : warnings (error_tracker w') = warnings (error_tracker w);
  le_start_time : start_time (audit w') = start_time (audit w);
  le_end_time : end_time (audit w') = end_time (audit w);
  le_success : success (audit w') = success (audit w)
}.

(** A step by name and status alone. *)
Definition step_brief (s : Step) : string * Status := (s_name s, s_status s).

(** The name and status of the two steps each failed attempt of a run
    leaves when its process was launched. *)
Definition failed_attempts_brief (attempts : list Z) : list (string * Status) :=
  attempts ≫= (fun attempt => [(attempt_name attempt, RUNNING); (attempt_name attempt, FAILED)]).

(** The process is still running at "Check result", after the wait. *)
Definition still_running_at_check (p : process) : Prop := observed p max_wait = None.

(* ===================================================================== *)
(** ** Sample inputs *)
(* ===================================================================== *)

(** A clock that advances by one second per reading, from midnight of
    1 January 2024. *)
Definition sample_clock (n : nat) : DT.datetime :=
  DT.mk_datetime 2024 1 1 0 0 (Z.of_nat n) 0.

(** The world as the script leaves it after loading its module: an empty
    ledger and an empty audit whose [start_time] is the first reading of
    the clock. *)
Definition fresh_world (clock : nat -> DT.datetime) : World :=
  {| error_tracker := Tracker.init;
     audit := {| start_time := clock 0%nat; steps := []; end_time := None; success := true |};
     log := []; trace := []; ticks := 1 |}.

(** The script's constants on a Windows host. *)
Definition sample_config : Config :=
  source_config "C:\Users\user\Desktop" "\" "C:\Users\user\Downloads".

(** [stat()] on the entry returns. *)
Definition stat_succeeds (n : fnode) : Prop := exists size, f_stat n = Ok size.

(* ===================================================================== *)
(** ** Further observations: the retry runner *)
(* ===================================================================== *)

(** An attempt succeeds when its process was launched and the return code
    read at "Check result" is 0. *)
Definition attempt_succeeds (o : launch_outcome) : Prop :=
  match o with
  | Launched p => observed p max_wait = Some 0
  | LaunchFails _ => False
  end.

(** The backoffs in a trace: the five-second sleeps. *)
Definition backoffs (evs : list event) : nat :=
  length (List.filter (fun ev => bool_decide (ev = EvSleep 5)) evs).

(** The events of [n] rounds of the wait loop: a one-second sleep and a
    poll each. *)
Fixpoint wait_rounds (n : nat) : list event :=
  match n with
  | O => []
  | S k => EvSleep 1 :: EvPoll :: wait_rounds k
  end.

(** The rounds the wait loop goes through on a process, out of [rounds]
    at most, the process having been polled [polls] times before: the loop
    ends with the first poll that finds the process exited. *)
Fixpoint rounds_run (p : process) (polls rounds : nat) : nat :=
  match rounds with
  | O => O
  | S rest =>
      match observed p polls with
      | Some _ => 1%nat
      | None => S (rounds_run p (S polls) rest)
      end
  end.

(* ===================================================================== *)
(** ** run_system_diagnostics and main *)
(* ===================================================================== *)

(** What [psutil.disk_usage] reports, as far as the ledger sees it: the
    value of the float [disk.percent] and the text [str] gives for it.
    The dictionary [run_system_diagnostics] fills and returns holds
    rounded floats ([free_gb], [total_gb]); [main] never reads it, and it
    is left out. *)
Record DiskUsage := mk_disk {
  disk_percent : QArith_base.Q;
  disk_percent_text : string
}.

(** The surroundings of [run_system_diagnostics]: what
    [psutil.disk_usage(str(DESKTOP))] leads to, whether
    [requests.get("https://www.google.com", timeout=10)] returns, and what
    writing [DIAGNOSTICS_FILE] leads to. *)
Record DiagnosticsEnv := mk_diag_env {
  disk_usage : result DiskUsage;
  internet_access : bool;
  diagnostics_written : result unit
}.

(** The surroundings of [main], one field per place where it asks:
    the diagnostics, the installer file, the prompts ([input(...)] returns
    the line typed or raises, as on a closed standard input), the
    installation directory before and after the installer has run, and
    the writes of the report. *)
Record MainEnv := mk_main_env {
  diagnostics_env : DiagnosticsEnv;
  bat_file : option BatFile;
  exit_prompt : result string;          (* input("\nPress Enter to exit...") *)
  install_dir_exists : bool;            (* INSTALL_DIR.exists(), in step 3 *)
  mkdir_install_dir : result unit;      (* INSTALL_DIR.mkdir(parents=True, exist_ok=True) *)
  choice_prompt : result string;        (* input("\nProceed with ... [Y]es / [N]o: ") *)
  installer_launches : Z -> launch_outcome;
  install_tree : option (list fnode);   (* the directory when it is verified *)
  report_written : result unit;
  view_prompt : result string;          (* input() before the report is printed *)
  handler_report_written : result unit; (* the report written by the handler *)
  handler_prompt : result string        (* input("Press Enter to exit...") in the handler *)
}.

(** A call whose outcome the surroundings decide: it returns the value or
    raises. *)
Definition outcome {A} (r : result A) : M A :=
  match r with
  | Ok a => ret a
  | Raise e => raise e
  end.

(** [c.isspace()] on ASCII. *)
Definition is_space (c : Ascii.ascii) : bool :=
  let n := Ascii.nat_of_ascii c in
  ((9 <=? n) && (n <=? 13) || (28 <=? n) && (n <=? 32))%nat.

(** [str.lstrip()], [str.rstrip()] and [str.strip()] on ASCII text. *)
Fixpoint lstrip (s : string) : string :=
  match s with
  | EmptyString => EmptyString
  | String c rest => if is_space c then lstrip rest else s
  end.

Fixpoint rstrip (s : string) : string :=
  match s with
  | EmptyString => EmptyString
  | String c rest =>
      match rstrip rest with
      | EmptyString => if is_space c then EmptyString else String c EmptyString
      | kept => String c kept
      end
  end.

Definition strip (s : string) : string := rstrip (lstrip s).

(** [choice in ['y', 'yes']] for [choice = input(...).strip().lower()] *)
Definition accepts (answer : string) : bool :=
  let choice := Str.lower (strip answer) in
  bool_decide (choice = "y") || bool_decide (choice = "yes").

Section Orchestration.

Variable cfg : Config.
Variable clock : nat -> DT.datetime.

(** [run_system_diagnostics()], without the dictionary it returns; of
    that dictionary only the reading of the clock for its ["timestamp"]
    is kept. *)
Definition run_system_diagnostics (env : DiagnosticsEnv) : M unit :=
  add_step clock "Run system diagnostics" RUNNING "" 1 ;;;
  now clock ;;;
  try_except
    ( (* Disk space check *)
      disk <- outcome (disk_usage env) ;;
      (if negb (QArith_base.Qle_bool (disk_percent disk) (QArith_base.Qmake 90 1))
       then add_warning clock "Disk Space"
              ("Low disk space: " +:+ disk_percent_text disk +:+ "% used")
              "Free up space on your desktop drive" ;;; ret tt
       else ret tt) ;;;
      (* Network check *)
      (if internet_access env then ret tt
       else add_error clock "Network" "No internet connection" HIGH
              "Check your internet connection and try again" ;;; ret tt) ;;;
      (* Save diagnostics *)
      emit (EvWriteText (DIAGNOSTICS_FILE cfg)) ;;;
      outcome (diagnostics_written env) ;;;
      add_step clock "Run system diagnostics" SUCCESS
        ("Saved to " +:+ DIAGNOSTICS_FILE cfg) 1 )
    (fun e =>
       add_error clock "Diagnostics" (exn_str e) LOW "" ;;;
       add_step clock "Run system diagnostics" FAILED (exn_str e) 1).

(** "Step 3: Create Installation Folder".  [shutil.rmtree] is called with
    [ignore_errors=True] and cannot raise; like [mkdir] it leaves no event. *)
Definition create_installation_folder (env : MainEnv) : M unit :=
  add_step clock "Create installation folder" RUNNING "" 1 ;;;
  try_except
    ( emit (EvExists (INSTALL_DIR cfg)) ;;;
      (if install_dir_exists env
       then safe_log clock "Removing old installation folder..." "INFO" ;;; sleep 2
       else ret tt) ;;;
      outcome (mkdir_install_dir env) ;;;
      add_step clock "Create installation folder" SUCCESS
        ("Created: " +:+ INSTALL_DIR cfg) 1 )
    (fun e =>
       add_error clock "Folder Creation" (exn_str e) HIGH "" ;;;
       add_step clock "Create installation folder" FAILED (exn_str e) 1).

(** [main()]; what it prints is left out. *)
Definition main (env : MainEnv) : M unit :=
  safe_log clock "=== ENHANCED M3U INSTALL MONITOR STARTED ===" "INFO" ;;;
  try_except
    ( (* Step 1: System Diagnostics *)
      run_system_diagnostics (diagnostics_env env) ;;;
      (* Step 2: Comprehensive Installer Verification *)
      verified <- verify_installer_comprehensive cfg clock (bat_file env) ;;
      if negb verified then
        outcome (exit_prompt env) ;;;
        ret tt
      else
        (* Step 3: Create Installation Folder *)
        create_installation_folder env ;;;
        (* Ask user before proceeding *)
        answer <- outcome (choice_prompt env) ;;
        if negb (accepts answer) then
          safe_log clock "User cancelled enhanced installation" "INFO" ;;;
          ret tt
        else
          (* Steps 4 to 6 *)
          main_install_verify_report cfg clock (installer_launches env) (install_tree env)
            (report_written env) ;;;
          outcome (view_prompt env) ;;;
          ret tt )
    (fun e =>
       safe_log clock ("CRITICAL FAILURE: " +:+ exn_str e) "INFO" ;;;
       add_error clock "Main Process" (exn_str e) CRITICAL "" ;;;
       generate_comprehensive_report cfg clock (handler_report_written env) ;;;
       outcome (handler_prompt env) ;;;
       ret tt).

End Orchestration.

(* ===================================================================== *)
(** ** Invariants of the shared state *)
(* ===================================================================== *)

(** Whatever [m] returns or raises, the world it ends in is related by [R]
    to the one it started from. *)
Definition keeps {A} (R : World -> World -> Prop) (m : M A) : Prop :=
  forall w, R w (m w).2.

(** [m] returns: it never raises. *)
Definition returns {A} (m : M A) : Prop :=
  forall w, exists a, (m w).1 = Ok a.

(** The later world holds everything the earlier one held: the errors,
    warnings, steps, log lines and events are still there, in place, with
    possibly more after them; no retry counter is lower; the start time
    is the same. *)
Record extends (w w' : World) : Prop := {
  ext_errors : errors (error_tracker w) `prefix_of` errors (error_tracker w');
  ext_warnings : warnings (error_tracker w) `prefix_of` warnings (error_tracker w');
  ext_retries :
    forall c, (Tracker.get_retry_count c (error_tracker w)
               <= Tracker.get_retry_count c (error_tracker w'))%nat;
  ext_steps : steps (audit w) `prefix_of` steps (audit w');
  ext_start_time : start_time (audit w') = start_time (audit w);
  ext_log : log w `prefix_of` log w';
  ext_trace : trace w `prefix_of` trace w';
  ext_ticks : (ticks w <= ticks w')%nat
}.

(** Nothing of an installation has happened between the two worlds: no
    process was launched, no report was built (the end time is as it
    was), the verdict is as it was. *)
Record no_installation (w w' : World) : Prop := {
  ni_launches : launches (trace w') = launches (trace w);
  ni_end_time : end_time (audit w') = end_time (audit w);
  ni_success : success (audit w') = success (audit w)
}.

(** The installer file exists, its [stat()] returns and it reads as
    text. *)
Definition installer_readable (bat : option BatFile) : bool :=
  match bat with
  | Some {| bat_stat := Ok _; bat_read_text := Ok _ |} => true
  | _ => false
  end.

(** No process has been launched between the two worlds. *)
Definition no_launch (w w' : World) : Prop := launches (trace w') = launches (trace w).

(** Sample surroundings: a disk 42.3% full, a reachable network, every
    write succeeding, every prompt but the confirmation answered with an
    empty line, and an installer that exits with code 0 at the third poll
    of each attempt. *)
Definition sample_diagnostics_env : DiagnosticsEnv :=
  {| disk_usage := Ok {| disk_percent := QArith_base.Qmake 423 10;
                         disk_percent_text := "42.3" |};
     internet_access := true;
     diagnostics_written := Ok tt |}.

Definition sample_bat : BatFile :=
  {| bat_stat := Ok 2048%nat; bat_read_text := Ok "@echo off" |}.

(** A directory that holds every file of the manifest, 10 bytes each. *)
Definition sample_tree : list fnode :=
  (fun p => {| f_path := p; f_is_file := true; f_stat := Ok 10%nat |}) <$> source_EXPECTED_FILES.

Definition sample_env (bat : option BatFile) (choice : result string) : MainEnv :=
  {| diagnostics_env := sample_diagnostics_env;
     bat_file := bat;
     exit_prompt := Ok "";
     install_dir_exists := false;
     mkdir_install_dir := Ok tt;
     choice_prompt := choice;
     installer_launches := fun _ => Launched (Exits 2 0);
     install_tree := Some sample_tree;
     report_written := Ok tt;
     view_prompt := Ok "";
     handler_report_written := Ok tt;
     handler_prompt := Ok "" |}.

(** [d.get(key, 0)] on an insertion-ordered dictionary of counts. *)
Fixpoint dict_get (key : string) (d : list (string * nat)) : nat :=
  match d with
  | [] => 0%nat
  | (k, n) :: rest => if bool_decide (k = key) then n else dict_get key rest
  end.

(** The bytes of the regular files among the entries of a directory. *)
Definition tree_size (nodes : list fnode) : nat :=
  sum_list ((fun n => if f_is_file n
                      then match f_stat n with Ok size => size | Raise _ => 0%nat end
                      else 0%nat) <$> nodes).

(** The walk over the directory reaches no regular file whose [stat()]
    raises. *)
Definition walk_succeeds (nodes : list fnode) : Prop :=
  Forall (fun n => f_is_file n = true -> stat_succeeds n) nodes.

(** A directory in which [main.py] is an entry that is not a regular file
    and whose [stat()] raises. *)
Definition sample_broken_tree : list fnode :=
  [ {| f_path := "main.py"; f_is_file := false;
       f_stat := Raise (OtherException "Access is denied") |} ].

(** A directory whose first entry is a regular file on which [stat()]
    raises. *)
Definition sample_unwalkable_tree : list fnode :=
  [ {| f_path := "main.py"; f_is_file := true;
       f_stat := Raise (OtherException "Access is denied") |};
    {| f_path := "requirements.txt"; f_is_file := true; f_stat := Ok 120%nat |} ].

(** The [stat()] calls of the walk over these entries. *)
Definition walk_stats (c : Config) (nodes : list fnode) : list event :=
  (fun n => EvStat (joinpath c (INSTALL_DIR c) (f_path n))) <$> List.filter f_is_file nodes.

(* ===================================================================== *)
(** ** Clock values and paths: samples *)
(* ===================================================================== *)

Example isoformat_sample :
  DT.isoformat (DT.mk_datetime 2024 3 9 7 5 0 1500) = "2024-03-09T07:05:00.001500".
Proof. reflexivity. Qed.

Example timedelta_sample :
  DT.timedelta_str (DT.sub (DT.mk_datetime 2024 3 1 0 0 5 0) (DT.mk_datetime 2024 2 28 23 59 0 0))
  = "1 day, 0:01:05".
Proof. reflexivity. Qed.

Example path_suffix_sample :
  Str.path_suffix "installer m3u builder.bat" = ".bat"
  /\ Str.path_suffix "dir.d/setup" = "" /\ Str.path_suffix ".profile" = "".
Proof. repeat split. Qed.

Example range_sample : range 1 (3 + 1) = [1; 2; 3] /\ range 1 (0 + 1) = [] /\ range 1 (-2 + 1) = [].
Proof. repeat split. Qed.
(* ===================================================================== *)
(** ** Reasoning rules for the monad *)
(* ===================================================================== *)

Section Rules.

Context {A B : Type}.

Lemma wp_ret (a : A) w (Q : result A -> World -> Prop) :
  Q (Ok a) w -> wp (ret a) w Q.
Proof. exact id. Qed.

Lemma wp_raise (e : exn) w (Q : result A -> World -> Prop) :
  Q (Raise e) w -> wp (raise e) w Q.
Proof. exact id. Qed.

Lemma wp_bind (m : M A) (k : A -> M B) w (Q : result B -> World -> Prop) :
  wp m w (fun r w' => match r with
                      | Ok a => wp (k a) w' Q
                      | Raise e => Q (Raise e) w'
                      end) ->
  wp (bind m k) w Q.
Proof.
  unfold wp, bind. destruct (m w) as [[a|e] w']; simpl; auto.
Qed.

Lemma wp_try_except (m : M A) (h : exn -> M A) w (Q : result A -> World -> Prop) :
  wp m w (fun r w' => match r with
                      | Ok a => Q (Ok a) w'
                      | Raise e => wp (h e) w' Q
                      end) ->
  wp (try_except m h) w Q.
Proof.
  unfold wp, try_except. destruct (m w) as [[a|e] w']; simpl; auto.
Qed.

Lemma wp_attempt_to (m : M A) w (Q : result (result A) -> World -> Prop) :
  wp m w (fun r w' => Q (Ok r) w') -> wp (attempt_to m) w Q.
Proof.
  unfold wp, attempt_to. destruct (m w) as [r w']; simpl; auto.
Qed.

Lemma wp_mono (m : M A) w (Q Q' : result A -> World -> Prop) :
  wp m w Q -> (forall r w', Q r w' -> Q' r w') -> wp m w Q'.
Proof. unfold wp. auto. Qed.

Lemma wp_run (m : M A) w (Q : result A -> World -> Prop) :
  wp m w Q -> exists r w', m w = (r, w') /\ Q r w'.
Proof. unfold wp. destruct (m w) as [r w']. eauto. Qed.

End Rules.

(** The effect of each primitive on the world, field by field. *)

Lemma wp_emit ev w (Q : result unit -> World -> Prop) :
  Q (Ok tt) {| error_tracker := error_tracker w; audit := audit w; log := log w;
               trace := trace w ++ [ev]; ticks := ticks w |} ->
  wp (emit ev) w Q.
Proof. exact id. Qed.

Lemma wp_sleep n w (Q : result unit -> World -> Prop) :
  Q (Ok tt) {| error_tracker := error_tracker w; audit := audit w; log := log w;
               trace := trace w ++ [EvSleep n]; ticks := ticks w |} ->
  wp (sleep n) w Q.
Proof. exact id. Qed.

Lemma wp_modify_audit f w (Q : result unit -> World -> Prop) :
  Q (Ok tt) {| error_tracker := error_tracker w; audit := f (audit w); log := log w;
               trace := trace w; ticks := ticks w |} ->
  wp (modify_audit f) w Q.
Proof. exact id. Qed.

Section PrimitiveRules.

Variable clock : nat -> DT.datetime.

Lemma wp_safe_log message level w (Q : result unit -> World -> Prop) :
  (forall line,
     Q (Ok tt) {| error_tracker := error_tracker w; audit := audit w;
                  log := log w ++ [line]; trace := trace w; ticks := S (ticks w) |}) ->
  wp (safe_log clock message level) w Q.
Proof. intros H. apply H. Qed.

Lemma wp_increment_retry category w (Q : result unit -> World -> Prop) :
  Q (Ok tt) {| error_tracker := Tracker.increment_retry category (error_tracker w);
               audit := audit w; log := log w; trace := trace w; ticks := ticks w |} ->
  wp (increment_retry category) w Q.
Proof. exact id. Qed.

Lemma wp_add_error category error severity suggestion w
    (Q : result ErrorRecord -> World -> Prop) :
  (let error_data :=
     {| e_category := category; e_error := error; e_severity := severity;
        e_suggestion := suggestion; e_timestamp := clock (ticks w);
        e_retry_count := Tracker.get_retry_count category (error_tracker w) |} in
   Q (Ok error_data)
     {| error_tracker := {| errors := errors (error_tracker w) ++ [error_data];
                            warnings := warnings (error_tracker w);
                            retries := retries (error_tracker w) |};
        audit := audit w; log := log w; trace := trace w; ticks := S (ticks w) |}) ->
  wp (add_error clock category error severity suggestion) w Q.
Proof. exact id. Qed.

Lemma wp_add_warning category warning suggestion w
    (Q : result WarningRecord -> World -> Prop) :
  (let warning_data :=
     {| w_category := category; w_warning := warning;
        w_suggestion := suggestion; w_timestamp := clock (ticks w) |} in
   Q (Ok warning_data)
     {| error_tracker := {| errors := errors (error_tracker w);
                            warnings := warnings (error_tracker w) ++ [warning_data];
                            retries := retries (error_tracker w) |};
        audit := audit w; log := log w; trace := trace w; ticks := S (ticks w) |}) ->
  wp (add_warning clock category warning suggestion) w Q.
Proof. exact id. Qed.

Lemma wp_add_step name status details attempt w (Q : result unit -> World -> Prop) :
  (forall line,
     Q (Ok tt)
       {| error_tracker := error_tracker w;
          audit := {| start_time := start_time (audit w);
                      steps := steps (audit w)
                               ++ [ {| s_name := name; s_status := status; s_details := details;
                                       s_attempt := attempt; s_time := clock (ticks w) |} ];
                      end_time := end_time (audit w); success := success (audit w) |};
          log := log w ++ [line]; trace := trace w; ticks := S (S (ticks w)) |}) ->
  wp (add_step clock name status details attempt) w Q.
Proof. intros H. apply H. Qed.

Lemma wp_poll proc w (Q : result (option Z * Popen) -> World -> Prop) :
  Q (Ok (observed (child proc) (polls_done proc),
         {| child := child proc; polls_done := S (polls_done proc) |}))
    {| error_tracker := error_tracker w; audit := audit w; log := log w;
       trace := trace w ++ [EvPoll]; ticks := ticks w |} ->
  wp (poll proc) w Q.
Proof. exact id. Qed.

Lemma wp_popen installer attempt w (Q : result Popen -> World -> Prop) :
  (let w' := {| error_tracker := error_tracker w; audit := audit w; log := log w;
                trace := trace w ++ [EvPopen attempt]; ticks := ticks w |} in
   match installer attempt with
   | Launched p => Q (Ok {| child := p; polls_done := 0 |}) w'
   | LaunchFails e => Q (Raise e) w'
   end) ->
  wp (popen installer attempt) w Q.
Proof.
  unfold wp, popen, bind, emit. simpl. destruct (installer attempt); auto.
Qed.

End PrimitiveRules.

Lemma wp_get_tracker w (Q : result ErrorTracker -> World -> Prop) :
  Q (Ok (error_tracker w)) w -> wp get_tracker w Q.
Proof. exact id. Qed.

Lemma wp_get_audit w (Q : result Audit -> World -> Prop) :
  Q (Ok (audit w)) w -> wp get_audit w Q.
Proof. exact id. Qed.

Lemma wp_now clock w (Q : result DT.datetime -> World -> Prop) :
  Q (Ok (clock (ticks w)))
    {| error_tracker := error_tracker w; audit := audit w; log := log w;
       trace := trace w; ticks := S (ticks w) |} ->
  wp (now clock) w Q.
Proof. exact id. Qed.

Lemma modify_audit_run f w :
  modify_audit f w
  = (Ok tt, {| error_tracker := error_tracker w; audit := f (audit w); log := log w;
               trace := trace w; ticks := ticks w |}).
Proof. reflexivity. Qed.

Lemma wp_of_run {A} (m : M A) w r w' (Q : result A -> World -> Prop) :
  m w = (r, w') -> Q r w' -> wp m w Q.
Proof. unfold wp. by intros ->. Qed.

#[global] Opaque emit sleep modify_audit modify_tracker safe_log increment_retry
  add_error add_warning add_step poll popen now get_tracker get_audit.

(** Stepping through a computation, one primitive at a time. *)
Ltac world_simpl :=
  cbn [error_tracker audit log trace ticks errors warnings retries
       start_time steps end_time success fst snd].

Ltac wp_step :=
  lazymatch goal with
  | |- wp (ret _) _ _ => apply wp_ret
  | |- wp (bind _ _) _ _ => apply wp_bind
  | |- wp (increment_retry _) _ _ => apply wp_increment_retry; world_simpl
  | |- wp (sleep _) _ _ => apply wp_sleep; world_simpl
  | |- wp (emit _) _ _ => apply wp_emit; world_simpl
  | |- wp (modify_audit _) _ _ => apply wp_modify_audit; world_simpl
  | |- wp get_tracker _ _ => apply wp_get_tracker
  | |- wp get_audit _ _ => apply wp_get_audit
  | |- wp (now _) _ _ => apply wp_now; world_simpl
  | |- wp (add_error _ _ _ _ _) _ _ => apply wp_add_error; cbn zeta; world_simpl
  | |- wp (add_warning _ _ _ _) _ _ => apply wp_add_warning; cbn zeta; world_simpl
  | |- wp (add_step _ _ _ _ _) _ _ => apply wp_add_step; intros ?; world_simpl
  | |- wp (safe_log _ _ _) _ _ => apply wp_safe_log; intros ?; world_simpl
  end.

Ltac wp_go := repeat wp_step.

(* ===================================================================== *)
(** ** The bounded wait *)
(* ===================================================================== *)

Lemma observed_mono p k k' c :
  observed p k = Some c -> (k <= k')%nat -> observed p k' = Some c.
Proof.
  destruct p as [after code|]; simpl; [|discriminate].
  intros H Hle. destruct (Nat.leb_spec after k); [|discriminate].
  destruct (Nat.leb_spec after k'); [assumption|lia].
Qed.

Lemma observed_exits after code k :
  observed (Exits after code) k = if (after <=? k)%nat then Some code else None.
Proof. reflexivity. Qed.

Lemma waited_refl w : waited w w.
Proof.
  repeat split. exists []. split; [by rewrite app_nil_r | constructor].
Qed.

Section Wait.

Variable clock : nat -> DT.datetime.

(** The wait ends, touches neither ledger nor audit, and the poll made
    after it answers as the poll number [length rounds] would. *)
Lemma wp_wait_for_exit attempt rounds : forall proc w (Q : result Popen -> World -> Prop),
  (forall proc' w',
     waited w w' -> child proc' = child proc ->
     observed (child proc) (polls_done proc')
     = observed (child proc) (polls_done proc + length rounds) ->
     Q (Ok proc') w') ->
  wp (wait_for_exit clock attempt rounds proc) w Q.
Proof.
  induction rounds as [|i rest IH]; intros proc w Q HQ; cbn [wait_for_exit].
  - apply wp_ret, HQ; [apply waited_refl | done | by rewrite Nat.add_0_r].
  - apply wp_bind, wp_sleep, wp_bind, wp_poll. cbn [fst snd].
    destruct (observed (child proc) (polls_done proc)) as [c|] eqn:Hobs.
    + apply wp_ret, HQ; cbn; [|done|].
      * repeat split. exists [EvSleep 1; EvPoll]. split.
        { by rewrite <- app_assoc. }
        { repeat constructor; by right. }
      * rewrite !(observed_mono _ _ _ _ Hobs); [done | lia | lia].
    + apply wp_bind.
      assert (Hrest : forall w1, waited w w1 ->
                wp (wait_for_exit clock attempt rest
                      {| child := child proc; polls_done := S (polls_done proc) |}) w1 Q).
      { intros w1 (Ht & Ha & evs & Htr & Hev). apply IH. cbn.
        intros proc' w' (Ht' & Ha' & evs' & Htr' & Hev') Hc Hobs'. apply HQ; [|done|].
        - repeat split; [congruence | congruence |].
          exists (evs ++ evs'). split; [by rewrite Htr', Htr, app_assoc | by apply Forall_app].
        - rewrite Hobs'. f_equal. simpl. lia. }
      destruct (i mod 30 =? 0)%nat.
      * apply wp_safe_log. intros line. apply Hrest. cbn.
        repeat split. exists [EvSleep 1; EvPoll]. split.
        { cbn. by rewrite <- app_assoc. }
        { repeat constructor; by right. }
      * apply wp_ret, Hrest.
        repeat split. exists [EvSleep 1; EvPoll]. split.
        { cbn. by rewrite <- app_assoc. }
        { repeat constructor; by right. }
Qed.

End Wait.

(* ===================================================================== *)
(** ** One attempt of the retry loop *)
(* ===================================================================== *)

Lemma get_retry_count_increment c t :
  Tracker.get_retry_count c (Tracker.increment_retry c t) = S (Tracker.get_retry_count c t).
Proof.
  unfold Tracker.get_retry_count, Tracker.increment_retry. cbn.
  rewrite lookup_insert_eq. cbn. lia.
Qed.

Lemma get_retry_count_increment_ne c c' t :
  c <> c' ->
  Tracker.get_retry_count c' (Tracker.increment_retry c t) = Tracker.get_retry_count c' t.
Proof.
  intros Hne. unfold Tracker.get_retry_count, Tracker.increment_retry. cbn.
  by rewrite lookup_insert_ne.
Qed.

Lemma get_retry_count_retries c t t' :
  retries t' = retries t -> Tracker.get_retry_count c t' = Tracker.get_retry_count c t.
Proof. unfold Tracker.get_retry_count. by intros ->. Qed.

Section Attempt.

Variable clock : nat -> DT.datetime.
Variable installer : Z -> launch_outcome.
Variable max_attempts : Z.

(** The return code read at "Check result" is the answer of poll number
    [max_wait]: the wait makes at most [max_wait] polls, and a process
    that has exited stays exited. *)
Lemma wp_wait_then_poll {B} attempt p (k : option Z * Popen -> M B) w
    (Q : result B -> World -> Prop) :
  (forall proc' w', waited w w' -> wp (k (observed p max_wait, proc')) w' Q) ->
  wp (proc <- wait_for_exit clock attempt (seq 0 max_wait) {| child := p; polls_done := 0 |} ;;
      polled <- poll proc ;;
      k polled) w Q.
Proof.
  intros HQ. apply wp_bind, wp_wait_for_exit. intros proc' w' Hw Hc Hobs.
  apply wp_bind, wp_poll. cbn [child polls_done] in Hc, Hobs.
  rewrite length_seq, Nat.add_0_l in Hobs. rewrite Hc, Hobs.
  apply HQ. destruct Hw as (Ht & Ha & evs & Htr & Hev).
  repeat split; cbn; [done | done |].
  exists (evs ++ [EvPoll]). split; [by rewrite Htr, app_assoc |].
  apply Forall_app. split; [done | repeat constructor; by right].
Qed.

Lemma installer_attempt_fails attempt w :
  attempt_fails (installer attempt) ->
  exists w',
    installer_attempt clock installer max_attempts attempt w
    = (Ok (if attempt <? max_attempts then None else Some false), w')
    /\ attempt_effects w w' attempt
         (failure_steps (installer attempt) attempt)
         [failure_error (installer attempt) max_attempts attempt
            (S (Tracker.get_retry_count "Installer Execution" (error_tracker w)))]
         (if attempt <? max_attempts then [EvSleep 5] else []).
Proof.
  intros Hfails.
  destruct (wp_run (installer_attempt clock installer max_attempts attempt) w
              (fun r w' =>
                 r = Ok (if attempt <? max_attempts then None else Some false)
                 /\ attempt_effects w w' attempt
                      (failure_steps (installer attempt) attempt)
                      [failure_error (installer attempt) max_attempts attempt
                         (S (Tracker.get_retry_count "Installer Execution" (error_tracker w)))]
                      (if attempt <? max_attempts then [EvSleep 5] else [])))
    as (r & w' & Hrun & -> & Heff); [|eauto].
  unfold installer_attempt.
  wp_go. apply wp_try_except, wp_bind, wp_popen. cbn zeta. world_simpl.
  destruct (installer attempt) as [p|e] eqn:Hinst; cbn in Hfails.
  - apply wp_wait_then_poll. intros proc' w1 (Ht & Ha & evs & Htr & Hev).
    cbn in Ht, Ha, Htr. cbn [fst].
    case_bool_decide as Hrc; [done|].
    wp_go.
    destruct (attempt <? max_attempts); wp_go.
    all: split; [reflexivity|].
    all: split; world_simpl; rewrite ?Ht, ?Ha, ?Htr, ?fmap_app; cbn;
      rewrite ?fmap_app, <- ?app_assoc; try reflexivity.
    all: try (unfold error_view; cbn; rewrite get_retry_count_increment; reflexivity).
    all: exists evs; split; [done|]; cbn; by rewrite ?app_nil_r.
  - wp_go. destruct (attempt <? max_attempts); wp_go.
    all: split; [reflexivity|].
    all: split; world_simpl; rewrite ?fmap_app; cbn;
      rewrite ?fmap_app, <- ?app_assoc; try reflexivity.
    all: try (unfold error_view; cbn; rewrite get_retry_count_increment; reflexivity).
    all: exists []; split; [constructor|]; cbn; by rewrite ?app_nil_r.
Qed.

Lemma installer_attempt_succeeds attempt p w :
  installer attempt = Launched p -> observed p max_wait = Some 0 ->
  exists w',
    installer_attempt clock installer max_attempts attempt w = (Ok (Some true), w')
    /\ attempt_effects w w' attempt
         [(attempt_name attempt, SUCCESS, "Completed on attempt " +:+ pretty attempt, 1)] [] [].
Proof.
  intros Hinst Hzero.
  destruct (wp_run (installer_attempt clock installer max_attempts attempt) w
              (fun r w' =>
                 r = Ok (Some true)
                 /\ attempt_effects w w' attempt
                      [(attempt_name attempt, SUCCESS,
                        "Completed on attempt " +:+ pretty attempt, 1)] [] []))
    as (r & w' & Hrun & -> & Heff); [|eauto].
  unfold installer_attempt.
  wp_go. apply wp_try_except, wp_bind, wp_popen. cbn zeta. world_simpl.
  rewrite Hinst.
  apply wp_wait_then_poll. intros proc' w1 (Ht & Ha & evs & Htr & Hev).
  cbn in Ht, Ha, Htr. cbn [fst].
  case_bool_decide as Hrc; [|done].
  wp_go. split; [reflexivity|].
  split; world_simpl; rewrite ?Ht, ?Ha, ?Htr, ?fmap_app; cbn;
    rewrite ?fmap_app, <- ?app_assoc, ?app_nil_r; try reflexivity.
  exists evs; split; [done|]; cbn; by rewrite ?app_nil_r.
Qed.

End Attempt.

(* ===================================================================== *)
(** ** The retry loop *)
(* ===================================================================== *)

Lemma range_nil lo hi : hi <= lo -> range lo hi = [].
Proof. intros H. unfold range. by replace (Z.to_nat (hi - lo)) with 0%nat by lia. Qed.

Lemma range_cons lo hi : lo < hi -> range lo hi = lo :: range (lo + 1) hi.
Proof.
  intros H. unfold range.
  replace (Z.to_nat (hi - lo)) with (S (Z.to_nat (hi - (lo + 1)))) by lia.
  cbn [seq fmap list_fmap]. f_equal; [lia|].
  rewrite <- seq_shift, <- list_fmap_compose.
  apply list_fmap_ext. intros _ i _. cbn. lia.
Qed.

Lemma range_snoc lo hi : lo <= hi -> range lo (hi + 1) = range lo hi ++ [hi].
Proof.
  intros H. unfold range.
  replace (Z.to_nat (hi + 1 - lo)) with (Z.to_nat (hi - lo) + 1)%nat by lia.
  rewrite seq_app, fmap_app. cbn. do 2 f_equal. lia.
Qed.

Lemma length_range lo hi : length (range lo hi) = Z.to_nat (hi - lo).
Proof. unfold range. by rewrite length_fmap, length_seq. Qed.

Lemma elem_of_range lo hi k : k ∈ range lo hi <-> lo <= k < hi.
Proof.
  unfold range. rewrite list_elem_of_fmap. split.
  - intros (i & -> & Hi%elem_of_seq). lia.
  - intros Hk. exists (Z.to_nat (k - lo)). split; [lia|]. apply elem_of_seq. lia.
Qed.

Lemma launches_app l1 l2 : launches (l1 ++ l2) = launches l1 ++ launches l2.
Proof.
  induction l1 as [|ev l1 IH]; [done|]. destruct ev; cbn; by rewrite ?IH.
Qed.

Lemma launches_wait evs : Forall is_wait_event evs -> launches evs = [].
Proof.
  induction 1 as [|ev evs [-> | ->] _ IH]; [done | done | done].
Qed.

Lemma failure_trail_cons installer attempt rest :
  failure_trail installer (attempt :: rest)
  = (attempt_name attempt, RUNNING, "", attempt)
    :: failure_steps (installer attempt) attempt ++ failure_trail installer rest.
Proof. reflexivity. Qed.

Lemma loop_effects_refl w : loop_effects w w [] [] [].
Proof. split; rewrite ?app_nil_r; try done. Qed.

(** One pass of the loop body followed by a run of the loop. *)
Lemma loop_effects_step w w1 w2 attempt rest s1 e1 aw s2 e2 :
  attempt_effects w w1 attempt s1 e1 aw -> launches aw = [] ->
  loop_effects w1 w2 rest s2 e2 ->
  loop_effects w w2 (attempt :: rest)
    ((attempt_name attempt, RUNNING, "", attempt) :: s1 ++ s2) (e1 ++ e2).
Proof.
  intros [Hr Hw He Hs Hst Hen Hsu (waits & Hwaits & Htr)] Haw
         [Ll Ls Le Lc Lo Lw Lst Len Lsu].
  split; try congruence.
  - rewrite Ll, Htr, !launches_app. cbn.
    rewrite launches_app, (launches_wait _ Hwaits), Haw. cbn.
    by rewrite <- app_assoc.
  - by rewrite Ls, Hs, <- app_assoc.
  - by rewrite Le, He, <- app_assoc.
  - rewrite Lc, (get_retry_count_retries _ _ _ Hr), get_retry_count_increment.
    cbn. lia.
  - intros c Hc. rewrite Lo, (get_retry_count_retries _ _ _ Hr) by done.
    by apply get_retry_count_increment_ne.
Qed.

Section Loop.

Variable clock : nat -> DT.datetime.
Variable installer : Z -> launch_outcome.
Variable max_attempts : Z.

Lemma backoff_no_launch (b : bool) : launches (if b then [EvSleep 5] else []) = [].
Proof. by destruct b. Qed.

(** When every attempt from [first] on fails, the loop makes all of them
    and returns [False]. *)
Lemma retry_loop_all_fail (n : nat) : forall first w,
  Z.of_nat n = max_attempts + 1 - first ->
  (forall k, first <= k <= max_attempts -> attempt_fails (installer k)) ->
  exists w',
    retry_loop clock installer max_attempts (range first (max_attempts + 1)) w = (Ok false, w')
    /\ loop_effects w w' (range first (max_attempts + 1))
         (failure_trail installer (range first (max_attempts + 1)))
         (failure_errors installer max_attempts (range first (max_attempts + 1))
            (Tracker.get_retry_count "Installer Execution" (error_tracker w))).
Proof.
  induction n as [|n IH]; intros first w Hn Hfail.
  - rewrite range_nil by lia. exists w. split; [done | apply loop_effects_refl].
  - rewrite range_cons by lia. cbn [retry_loop].
    destruct (installer_attempt_fails clock installer max_attempts first w) as (w1 & Hrun & Heff);
      [apply Hfail; lia|].
    assert (Hcount : Tracker.get_retry_count "Installer Execution" (error_tracker w1)
                     = S (Tracker.get_retry_count "Installer Execution" (error_tracker w))).
    { rewrite (get_retry_count_retries _ _ _ (ae_retries _ _ _ _ _ _ Heff)).
      apply get_retry_count_increment. }
    unfold bind at 1. rewrite Hrun.
    destruct (Z.ltb_spec first max_attempts) as [Hlt|Hge].
    + destruct (IH (first + 1) w1) as (w2 & Hloop & Heff2); [lia | intros; apply Hfail; lia |].
      exists w2. split; [done|]. rewrite Hcount in Heff2.
      apply (loop_effects_step _ _ _ _ _ _ _ _ _ _ Heff eq_refl Heff2).
    + rewrite (range_nil (first + 1)) by lia.
      exists w1. split; [done|].
      apply (loop_effects_step _ _ _ _ _ _ _ _ _ _ Heff eq_refl
               (loop_effects_refl w1)).
Qed.

(** When the attempts before [k] fail and attempt [k] ends with return code
    0, the loop stops there and returns [True]. *)
Lemma retry_loop_succeeds k p (n : nat) : forall first w,
  Z.of_nat n = k - first -> k <= max_attempts ->
  (forall j, first <= j < k -> attempt_fails (installer j)) ->
  installer k = Launched p -> observed p max_wait = Some 0 ->
  exists w',
    retry_loop clock installer max_attempts (range first (max_attempts + 1)) w = (Ok true, w')
    /\ loop_effects w w' (range first (k + 1))
         (failure_trail installer (range first k)
          ++ [(attempt_name k, RUNNING, "", k);
              (attempt_name k, SUCCESS, "Completed on attempt " +:+ pretty k, 1)])
         (failure_errors installer max_attempts (range first k)
            (Tracker.get_retry_count "Installer Execution" (error_tracker w))).
Proof.
  induction n as [|n IH]; intros first w Hn Hk Hfail Hinst Hzero.
  - assert (first = k) as -> by lia.
    rewrite (range_cons k (max_attempts + 1)), (range_cons k (k + 1)) by lia.
    rewrite (range_nil (k + 1) (k + 1)), (range_nil k k) by lia.
    cbn [retry_loop].
    destruct (installer_attempt_succeeds clock installer max_attempts k p w Hinst Hzero)
      as (w1 & Hrun & Heff).
    unfold bind at 1. rewrite Hrun. exists w1. split; [done|].
    apply (loop_effects_step _ _ _ _ _ _ _ _ _ _ Heff eq_refl (loop_effects_refl w1)).
  - rewrite (range_cons first (max_attempts + 1)), (range_cons first (k + 1)),
      (range_cons first k) by lia.
    cbn [retry_loop].
    destruct (installer_attempt_fails clock installer max_attempts first w) as (w1 & Hrun & Heff);
      [apply Hfail; lia|].
    assert (Hcount : Tracker.get_retry_count "Installer Execution" (error_tracker w1)
                     = S (Tracker.get_retry_count "Installer Execution" (error_tracker w))).
    { rewrite (get_retry_count_retries _ _ _ (ae_retries _ _ _ _ _ _ Heff)).
      apply get_retry_count_increment. }
    unfold bind at 1. rewrite Hrun.
    destruct (Z.ltb_spec first max_attempts) as [Hlt|Hge]; [|lia].
    destruct (IH (first + 1) w1) as (w2 & Hloop & Heff2);
      [lia | lia | intros; apply Hfail; lia | done | done |].
    exists w2. split; [done|]. rewrite Hcount in Heff2.
    rewrite failure_trail_cons, <- app_comm_cons, <- app_assoc.
    apply (loop_effects_step _ _ _ _ _ _ _ _ _ _ Heff eq_refl Heff2).
Qed.

(** The retry runner never raises: it returns a truth value whatever the
    launches lead to. *)
Lemma retry_loop_returns attempts : forall w,
  exists b w', retry_loop clock installer max_attempts attempts w = (Ok b, w').
Proof.
  induction attempts as [|attempt rest IH]; intros w; [by exists false, w|].
  cbn [retry_loop]. unfold bind at 1.
  destruct (installer attempt) as [p|e] eqn:Hinst.
  - destruct (decide (observed p max_wait = Some 0)) as [Hzero|Hnz].
    + destruct (installer_attempt_succeeds clock installer max_attempts attempt p w Hinst Hzero)
        as (w1 & -> & _). by exists true, w1.
    + destruct (installer_attempt_fails clock installer max_attempts attempt w) as (w1 & -> & _);
        [by rewrite Hinst|].
      destruct (attempt <? max_attempts); [apply IH | by exists false, w1].
  - destruct (installer_attempt_fails clock installer max_attempts attempt w) as (w1 & -> & _);
      [by rewrite Hinst|].
    destruct (attempt <? max_attempts); [apply IH | by exists false, w1].
Qed.

End Loop.

(* ===================================================================== *)
(** ** Properties of the retry runner *)
(* ===================================================================== *)

Lemma count_status_app st l1 l2 :
  count_status st (l1 ++ l2) = (count_status st l1 + count_status st l2)%nat.
Proof. unfold count_status. by rewrite List.filter_app, length_app. Qed.

Lemma step_brief_view (l : list Step) : step_brief <$> l = (fun v => (v.1.1.1, v.1.1.2)) <$> (step_view <$> l).
Proof. rewrite <- list_fmap_compose. by apply list_fmap_ext. Qed.

(** The number of steps with a given status, read off the views. *)
Lemma count_status_view st (l : list Step) :
  count_status st l
  = length (List.filter (fun v : string * Status * string * Z => bool_decide (v.1.1.2 = st))
              (step_view <$> l)).
Proof.
  unfold count_status. induction l as [|s l IH]; [done|]. cbn.
  destruct (bool_decide (s_status s = st)); cbn; by rewrite IH.
Qed.

Lemma failure_trail_brief installer attempts :
  Forall (fun k => exists p, installer k = Launched p) attempts ->
  (fun v : string * Status * string * Z => (v.1.1.1, v.1.1.2)) <$> failure_trail installer attempts
  = failed_attempts_brief attempts.
Proof.
  induction 1 as [|k rest (p & Hp) _ IH]; [done|].
  rewrite failure_trail_cons, Hp. cbn -[failure_trail]. by rewrite IH.
Qed.

Lemma failure_trail_failed installer attempts :
  Forall (fun k => exists p, installer k = Launched p) attempts ->
  length (List.filter (fun v : string * Status * string * Z => bool_decide (v.1.1.2 = FAILED))
            (failure_trail installer attempts))
  = length attempts.
Proof.
  induction 1 as [|k rest (p & Hp) _ IH]; [done|].
  rewrite failure_trail_cons, Hp. cbn -[failure_trail].
  change (bool_decide (RUNNING = FAILED)) with false.
  change (bool_decide (FAILED = FAILED)) with true.
  cbn -[failure_trail]. by rewrite IH.
Qed.

(** On a process that exits, the return code read after the wait is the
    exit code exactly when the exit shows within [max_wait] polls or at
    the result check itself. *)
Lemma still_running_at_check_iff p :
  still_running_at_check p
  <-> p = NeverExits \/ exists after code, p = Exits after code /\ (max_wait < after)%nat.
Proof.
  unfold still_running_at_check, observed. destruct p as [after code|].
  - destruct (Nat.leb_spec after max_wait) as [Hle|Hgt].
    + split; [discriminate|].
      intros [Hd|(a & c & Heq & Hlt)]; [discriminate|]. injection Heq as -> ->. lia.
    + split; [|done]. intros _. right. eauto.
  - split; [by left | done].
Qed.

(** A process whose exit shows only at the result check, after all
    [max_wait] polls of the wait found it running, is classified by its
    exit code, not as timed out. *)
Lemma exit_seen_at_check code :
  observed (Exits max_wait code) max_wait = Some code
  /\ forall k, (k < max_wait)%nat -> observed (Exits max_wait code) k = None.
Proof.
  split; [done|]. intros k Hk. unfold observed.
  destruct (Nat.leb_spec max_wait k); [lia | done].
Qed.

(** C1: for every bound [N], when the process of every attempt ends with a
    non-zero exit code, [run_installer_with_retries] makes exactly [N]
    launches (attempts 1 to N in order), appends for each a RUNNING step
    followed by a FAILED step, [N] FAILED steps in all, and returns
    [False]. *)
Theorem all_attempts_nonzero_exit clock installer (N : Z) (w : World) :
  0 <= N ->
  (forall k, 1 <= k <= N ->
     exists after code,
       installer k = Launched (Exits after code) /\ (after <= max_wait)%nat /\ code <> 0) ->
  exists w' new_launches,
    run_installer_with_retries clock installer N w = (Ok false, w')
    /\ launches (trace w') = launches (trace w) ++ new_launches
    /\ new_launches = range 1 (N + 1)
    /\ Z.of_nat (length new_launches) = N
    /\ step_brief <$> steps (audit w')
       = (step_brief <$> steps (audit w)) ++ failed_attempts_brief (range 1 (N + 1))
    /\ Z.of_nat (count_status FAILED (steps (audit w')))
       = Z.of_nat (count_status FAILED (steps (audit w))) + N
    /\ Z.of_nat (length (errors (error_tracker w')))
       = Z.of_nat (length (errors (error_tracker w))) + N.
Proof.
  intros HN Hall.
  assert (Hlaunched : Forall (fun k => exists p, installer k = Launched p) (range 1 (N + 1))).
  { apply Forall_forall. intros k Hk%elem_of_range.
    destruct (Hall k) as (after & code & -> & _); [lia | eauto]. }
  destruct (retry_loop_all_fail clock installer N (Z.to_nat N) 1 w) as (w' & Hrun & Heff);
    [lia | |].
  { intros k Hk. destruct (Hall k Hk) as (after & code & -> & Hafter & Hcode).
    unfold attempt_fails, observed.
    destruct (Nat.leb_spec after max_wait); [congruence | lia]. }
  destruct Heff as [Ll Ls Le Lc Lo Lw Lst Len Lsu].
  exists w', (range 1 (N + 1)). repeat split; try done.
  - rewrite length_range. lia.
  - by rewrite !step_brief_view, Ls, fmap_app, failure_trail_brief.
  - rewrite !count_status_view, Ls, List.filter_app, length_app, failure_trail_failed by done.
    rewrite length_range. lia.
  - apply (f_equal length) in Le. rewrite length_app, !length_fmap in Le. rewrite Le.
    assert (Hlen : forall l c, length (failure_errors installer N l c) = length l).
    { induction l as [|a l IH]; intros c; cbn; [done | by rewrite IH]. }
    rewrite Hlen, length_range. lia.
Qed.

(** A bound of three attempts, each process ending with exit code 1 after
    two polls. *)
Lemma all_attempts_nonzero_exit_witness :
  exists w' new_launches,
    run_installer_with_retries sample_clock (fun _ => Launched (Exits 2 1)) 3
      (fresh_world sample_clock) = (Ok false, w')
    /\ launches (trace w') = launches (trace (fresh_world sample_clock)) ++ new_launches
    /\ new_launches = range 1 (3 + 1)
    /\ Z.of_nat (length new_launches) = 3
    /\ step_brief <$> steps (audit w')
       = (step_brief <$> steps (audit (fresh_world sample_clock)))
         ++ failed_attempts_brief (range 1 (3 + 1))
    /\ Z.of_nat (count_status FAILED (steps (audit w')))
       = Z.of_nat (count_status FAILED (steps (audit (fresh_world sample_clock)))) + 3
    /\ Z.of_nat (length (errors (error_tracker w')))
       = Z.of_nat (length (errors (error_tracker (fresh_world sample_clock)))) + 3.
Proof.
  apply (all_attempts_nonzero_exit sample_clock (fun _ => Launched (Exits 2 1)) 3
           (fresh_world sample_clock)); [lia|].
  intros k _. exists 2%nat, 1. repeat split; [unfold max_wait; lia | lia].
Defined.

Lemma observed_within_wait after code :
  (after <= max_wait)%nat -> observed (Exits after code) max_wait = Some code.
Proof. intros H. unfold observed. by destruct (Nat.leb_spec after max_wait); [|lia]. Qed.

(** C2: when attempt [k] (at most the bound) ends with exit code 0, the
    attempts before it having failed, [run_installer_with_retries] returns
    [True] after exactly [k] launches, the last step it appends is the
    SUCCESS step of attempt [k], and no attempt after [k] is launched. *)
Theorem success_stops_the_retries clock installer (N k : Z) (after : nat) (w : World) :
  1 <= k <= N ->
  (forall j, 1 <= j < k -> attempt_fails (installer j)) ->
  installer k = Launched (Exits after 0) -> (after <= max_wait)%nat ->
  exists w' new_launches earlier_steps,
    run_installer_with_retries clock installer N w = (Ok true, w')
    /\ launches (trace w') = launches (trace w) ++ new_launches
    /\ new_launches = range 1 (k + 1)
    /\ Z.of_nat (length new_launches) = k
    /\ (forall j, k < j -> j ∉ new_launches)
    /\ step_view <$> steps (audit w')
       = (step_view <$> steps (audit w)) ++ earlier_steps
         ++ [(attempt_name k, RUNNING, "", k);
             (attempt_name k, SUCCESS, "Completed on attempt " +:+ pretty k, 1)]
    /\ earlier_steps = failure_trail installer (range 1 k)
    /\ Z.of_nat (Tracker.get_retry_count "Installer Execution" (error_tracker w'))
       = Z.of_nat (Tracker.get_retry_count "Installer Execution" (error_tracker w)) + k.
Proof.
  intros Hk Hfail Hinst Hafter.
  destruct (retry_loop_succeeds clock installer N k (Exits after 0) (Z.to_nat (k - 1)) 1 w)
    as (w' & Hrun & [Ll Ls Le Lc Lo Lw Lst Len Lsu]);
    [lia | lia | done | done | by apply observed_within_wait |].
  exists w', (range 1 (k + 1)), (failure_trail installer (range 1 k)).
  repeat split; try done.
  - rewrite length_range. lia.
  - intros j Hj Hin%elem_of_range. lia.
  - rewrite Lc, length_range. lia.
Qed.

(** A bound of three: the first launch raises, the second process ends
    with exit code 1, the third with exit code 0. *)
Lemma success_stops_the_retries_witness :
  exists w' new_launches earlier_steps,
    run_installer_with_retries sample_clock
      (fun j => if j =? 1 then LaunchFails (OtherException "[WinError 2]")
                else if j =? 2 then Launched (Exits 2 1) else Launched (Exits 3 0))
      3 (fresh_world sample_clock) = (Ok true, w')
    /\ launches (trace w') = launches (trace (fresh_world sample_clock)) ++ new_launches
    /\ new_launches = range 1 (3 + 1)
    /\ Z.of_nat (length new_launches) = 3
    /\ (forall j, 3 < j -> j ∉ new_launches)
    /\ step_view <$> steps (audit w')
       = (step_view <$> steps (audit (fresh_world sample_clock))) ++ earlier_steps
         ++ [(attempt_name 3, RUNNING, "", 3);
             (attempt_name 3, SUCCESS, "Completed on attempt " +:+ pretty 3, 1)]
    /\ earlier_steps
       = failure_trail
           (fun j => if j =? 1 then LaunchFails (OtherException "[WinError 2]")
                     else if j =? 2 then Launched (Exits 2 1) else Launched (Exits 3 0))
           (range 1 3)
    /\ Z.of_nat (Tracker.get_retry_count "Installer Execution" (error_tracker w'))
       = Z.of_nat (Tracker.get_retry_count "Installer Execution"
                     (error_tracker (fresh_world sample_clock))) + 3.
Proof.
  apply (success_stops_the_retries sample_clock _ 3 3 3 (fresh_world sample_clock));
    [lia | | reflexivity | unfold max_wait; lia].
  intros j Hj. assert (j = 1 \/ j = 2) as [-> | ->] by lia; [exact I | discriminate].
Defined.

(** C3, at a launch that raises: the attempt is recorded by an error
    record of the right severity, nothing is raised and the fixed backoff
    of 5 is taken before a further attempt, but the step log receives the
    RUNNING step only: no FAILED step is appended. *)
Theorem launch_exception_leaves_no_failed_step clock installer (N attempt : Z) (e : exn)
    (w : World) :
  installer attempt = LaunchFails e ->
  exists w',
    installer_attempt clock installer N attempt w
    = (Ok (if attempt <? N then None else Some false), w')
    /\ step_view <$> steps (audit w')
       = (step_view <$> steps (audit w)) ++ [(attempt_name attempt, RUNNING, "", attempt)]
    /\ count_status FAILED (steps (audit w')) = count_status FAILED (steps (audit w))
    /\ error_view <$> errors (error_tracker w')
       = (error_view <$> errors (error_tracker w))
         ++ [("Installer Execution",
              "Attempt " +:+ pretty attempt +:+ " crashed: " +:+ exn_str e,
              (if attempt =? N then HIGH else MEDIUM), "",
              S (Tracker.get_retry_count "Installer Execution" (error_tracker w)))]
    /\ trace w' = trace w ++ EvPopen attempt :: (if attempt <? N then [EvSleep 5] else []).
Proof.
  intros Hinst.
  destruct (wp_run (installer_attempt clock installer N attempt) w
              (fun r w' =>
                 r = Ok (if attempt <? N then None else Some false)
                 /\ steps (audit w')
                    = steps (audit w)
                      ++ [ {| s_name := attempt_name attempt; s_status := RUNNING;
                              s_details := ""; s_attempt := attempt;
                              s_time := clock (ticks w) |} ]
                 /\ error_view <$> errors (error_tracker w')
                    = (error_view <$> errors (error_tracker w))
                      ++ [("Installer Execution",
                           "Attempt " +:+ pretty attempt +:+ " crashed: " +:+ exn_str e,
                           (if attempt =? N then HIGH else MEDIUM), "",
                           S (Tracker.get_retry_count "Installer Execution" (error_tracker w)))]
                 /\ trace w'
                    = trace w ++ EvPopen attempt :: (if attempt <? N then [EvSleep 5] else [])))
    as (r & w' & Hrun & -> & Hs & He & Htr).
  { unfold installer_attempt. wp_go.
    apply wp_try_except, wp_bind, wp_popen. cbn zeta. world_simpl. rewrite Hinst.
    wp_go. destruct (attempt <? N); wp_go.
    all: repeat split; world_simpl; rewrite ?fmap_app, <- ?app_assoc; try done.
    all: unfold error_view, attempt_severity; cbn;
      by rewrite get_retry_count_increment. }
  exists w'. repeat split; try done.
  - by rewrite Hs, fmap_app.
  - by rewrite Hs, count_status_app, Nat.add_0_r.
Qed.

(** The first of three attempts, its launch raising. *)
Lemma launch_exception_leaves_no_failed_step_witness :
  exists w',
    installer_attempt sample_clock (fun _ => LaunchFails (OtherException "[WinError 2]")) 3 1
      (fresh_world sample_clock)
    = (Ok (if 1 <? 3 then None else Some false), w')
    /\ step_view <$> steps (audit w')
       = (step_view <$> steps (audit (fresh_world sample_clock)))
         ++ [(attempt_name 1, RUNNING, "", 1)]
    /\ count_status FAILED (steps (audit w'))
       = count_status FAILED (steps (audit (fresh_world sample_clock)))
    /\ error_view <$> errors (error_tracker w')
       = (error_view <$> errors (error_tracker (fresh_world sample_clock)))
         ++ [("Installer Execution",
              "Attempt " +:+ pretty 1 +:+ " crashed: " +:+ exn_str (OtherException "[WinError 2]"),
              (if 1 =? 3 then HIGH else MEDIUM), "",
              S (Tracker.get_retry_count "Installer Execution"
                   (error_tracker (fresh_world sample_clock))))]
    /\ trace w'
       = trace (fresh_world sample_clock) ++ EvPopen 1 :: (if 1 <? 3 then [EvSleep 5] else []).
Proof.
  apply (launch_exception_leaves_no_failed_step sample_clock
           (fun _ => LaunchFails (OtherException "[WinError 2]")) 3 1
           (OtherException "[WinError 2]") (fresh_world sample_clock)).
  reflexivity.
Defined.

(** The sibling path: an attempt whose process ends with a non-zero exit
    code, or is still running at the result check, does append the FAILED
    step, with an error record of the same severity, and takes the same
    backoff. *)
Lemma exit_failure_appends_failed_step clock installer (N attempt : Z) (p : process)
    (w : World) :
  installer attempt = Launched p -> observed p max_wait <> Some 0 ->
  exists w' waits,
    installer_attempt clock installer N attempt w
    = (Ok (if attempt <? N then None else Some false), w')
    /\ step_view <$> steps (audit w')
       = (step_view <$> steps (audit w))
         ++ [(attempt_name attempt, RUNNING, "", attempt);
             (attempt_name attempt, FAILED, status_msg (observed p max_wait), 1)]
    /\ error_view <$> errors (error_tracker w')
       = (error_view <$> errors (error_tracker w))
         ++ [("Installer Execution",
              "Attempt " +:+ pretty attempt +:+ " failed: " +:+ status_msg (observed p max_wait),
              (if attempt =? N then HIGH else MEDIUM), retry_suggestion N attempt,
              S (Tracker.get_retry_count "Installer Execution" (error_tracker w)))]
    /\ Forall is_wait_event waits
    /\ trace w'
       = trace w ++ EvPopen attempt :: waits ++ (if attempt <? N then [EvSleep 5] else []).
Proof.
  intros Hinst Hnz.
  destruct (installer_attempt_fails clock installer N attempt w) as (w' & Hrun & Heff);
    [by rewrite Hinst|].
  rewrite Hinst in Heff. cbn [failure_steps failure_error] in Heff.
  destruct Heff as [Hr Hw He Hs Hst Hen Hsu (waits & Hwaits & Htr)].
  by exists w', waits.
Qed.

(** C4: a process still running at the result check that follows the 300
    one-second polls is handled as one that ended with a non-zero exit
    code: the attempt takes the same decision, consumes one attempt (one
    launch, the retry counter advanced by one), and leaves a FAILED step
    and one error record of the same severity and suggestion; only the
    reported message differs ("Timed out" for "Exit code: c"). *)
Theorem timeout_handled_as_nonzero_exit clock installer_t installer_x
    (N attempt : Z) (p q : process) (code : Z) (w : World) :
  installer_t attempt = Launched p -> still_running_at_check p ->
  installer_x attempt = Launched q -> observed q max_wait = Some code -> code <> 0 ->
  exists decision w_t w_x,
    installer_attempt clock installer_t N attempt w = (Ok decision, w_t)
    /\ installer_attempt clock installer_x N attempt w = (Ok decision, w_x)
    /\ decision = (if attempt <? N then None else Some false)
    /\ launches (trace w_t) = launches (trace w) ++ [attempt]
    /\ launches (trace w_x) = launches (trace w) ++ [attempt]
    /\ Tracker.get_retry_count "Installer Execution" (error_tracker w_t)
       = S (Tracker.get_retry_count "Installer Execution" (error_tracker w))
    /\ Tracker.get_retry_count "Installer Execution" (error_tracker w_x)
       = S (Tracker.get_retry_count "Installer Execution" (error_tracker w))
    /\ step_view <$> steps (audit w_t)
       = (step_view <$> steps (audit w))
         ++ [(attempt_name attempt, RUNNING, "", attempt);
             (attempt_name attempt, FAILED, "Timed out", 1)]
    /\ step_view <$> steps (audit w_x)
       = (step_view <$> steps (audit w))
         ++ [(attempt_name attempt, RUNNING, "", attempt);
             (attempt_name attempt, FAILED, "Exit code: " +:+ pretty code, 1)]
    /\ error_view <$> errors (error_tracker w_t)
       = (error_view <$> errors (error_tracker w))
         ++ [("Installer Execution",
              "Attempt " +:+ pretty attempt +:+ " failed: Timed out",
              (if attempt =? N then HIGH else MEDIUM), retry_suggestion N attempt,
              S (Tracker.get_retry_count "Installer Execution" (error_tracker w)))]
    /\ error_view <$> errors (error_tracker w_x)
       = (error_view <$> errors (error_tracker w))
         ++ [("Installer Execution",
              "Attempt " +:+ pretty attempt +:+ " failed: Exit code: " +:+ pretty code,
              (if attempt =? N then HIGH else MEDIUM), retry_suggestion N attempt,
              S (Tracker.get_retry_count "Installer Execution" (error_tracker w)))].
Proof.
  intros Hp Hrunning Hq Hcode Hnz. unfold still_running_at_check in Hrunning.
  destruct (installer_attempt_fails clock installer_t N attempt w) as (w_t & Hrun_t & Ht);
    [rewrite Hp; cbn; congruence|].
  destruct (installer_attempt_fails clock installer_x N attempt w) as (w_x & Hrun_x & Hx);
    [rewrite Hq; cbn; congruence|].
  rewrite Hp in Ht. rewrite Hq in Hx.
  cbn [failure_steps failure_error] in Ht, Hx. rewrite Hrunning in Ht. rewrite Hcode in Hx.
  pose proof (loop_effects_step _ _ _ _ [] _ _ _ _ _ Ht (backoff_no_launch _)
                (loop_effects_refl w_t)) as [Ll Ls Le Lc Lo Lw Lst Len Lsu].
  pose proof (loop_effects_step _ _ _ _ [] _ _ _ _ _ Hx (backoff_no_launch _)
                (loop_effects_refl w_x)) as [Ll' Ls' Le' Lc' Lo' Lw' Lst' Len' Lsu'].
  exists (if attempt <? N then None else Some false), w_t, w_x.
  cbn [status_msg app length] in *. rewrite Nat.add_1_r in Lc, Lc'.
  repeat split; done.
Qed.

(** The second of three attempts: a process that never exits, against one
    that ends with exit code 1 after two polls. *)
Lemma timeout_handled_as_nonzero_exit_witness :
  exists decision w_t w_x,
    installer_attempt sample_clock (fun _ => Launched NeverExits) 3 2 (fresh_world sample_clock)
    = (Ok decision, w_t)
    /\ installer_attempt sample_clock (fun _ => Launched (Exits 2 1)) 3 2
         (fresh_world sample_clock)
       = (Ok decision, w_x)
    /\ decision = (if 2 <? 3 then None else Some false)
    /\ launches (trace w_t) = launches (trace (fresh_world sample_clock)) ++ [2]
    /\ launches (trace w_x) = launches (trace (fresh_world sample_clock)) ++ [2]
    /\ Tracker.get_retry_count "Installer Execution" (error_tracker w_t)
       = S (Tracker.get_retry_count "Installer Execution"
              (error_tracker (fresh_world sample_clock)))
    /\ Tracker.get_retry_count "Installer Execution" (error_tracker w_x)
       = S (Tracker.get_retry_count "Installer Execution"
              (error_tracker (fresh_world sample_clock)))
    /\ step_view <$> steps (audit w_t)
       = (step_view <$> steps (audit (fresh_world sample_clock)))
         ++ [(attempt_name 2, RUNNING, "", 2); (attempt_name 2, FAILED, "Timed out", 1)]
    /\ step_view <$> steps (audit w_x)
       = (step_view <$> steps (audit (fresh_world sample_clock)))
         ++ [(attempt_name 2, RUNNING, "", 2);
             (attempt_name 2, FAILED, "Exit code: " +:+ pretty 1, 1)]
    /\ error_view <$> errors (error_tracker w_t)
       = (error_view <$> errors (error_tracker (fresh_world sample_clock)))
         ++ [("Installer Execution", "Attempt " +:+ pretty 2 +:+ " failed: Timed out",
              (if 2 =? 3 then HIGH else MEDIUM), retry_suggestion 3 2,
              S (Tracker.get_retry_count "Installer Execution"
                   (error_tracker (fresh_world sample_clock))))]
    /\ error_view <$> errors (error_tracker w_x)
       = (error_view <$> errors (error_tracker (fresh_world sample_clock)))
         ++ [("Installer Execution",
              "Attempt " +:+ pretty 2 +:+ " failed: Exit code: " +:+ pretty 1,
              (if 2 =? 3 then HIGH else MEDIUM), retry_suggestion 3 2,
              S (Tracker.get_retry_count "Installer Execution"
                   (error_tracker (fresh_world sample_clock))))].
Proof.
  apply (timeout_handled_as_nonzero_exit sample_clock
           (fun _ => Launched NeverExits) (fun _ => Launched (Exits 2 1)) 3 2
           NeverExits (Exits 2 1) 1 (fresh_world sample_clock));
    [reflexivity | reflexivity | reflexivity | reflexivity | lia].
Defined.

(* ===================================================================== *)
(** ** The artifact verifier *)
(* ===================================================================== *)

Section Verifier.

Variable cfg : Config.
Variable clock : nat -> DT.datetime.

(** C5, at an installation directory that does not exist: the result has
    no found file, one CRITICAL error is recorded and no single file is
    checked, but [files_missing] is left empty instead of listing the
    manifest, although [total_expected] counts all of it. *)
Theorem absent_install_dir_lists_nothing_missing (w : World) :
  exists w' verification,
    verify_installation_comprehensive cfg clock None w = (Ok verification, w')
    /\ files_found verification = []
    /\ files_missing verification = []
    /\ total_expected verification = length (EXPECTED_FILES cfg)
    /\ (EXPECTED_FILES cfg = [] \/ files_missing verification <> EXPECTED_FILES cfg)
    /\ error_view <$> errors (error_tracker w')
       = (error_view <$> errors (error_tracker w))
         ++ [("Installation Directory",
              "Installation directory not created: " +:+ INSTALL_DIR cfg, CRITICAL,
              "The installer may have failed at folder creation step",
              Tracker.get_retry_count "Installation Directory" (error_tracker w))]
    /\ trace w' = trace w ++ [EvExists (INSTALL_DIR cfg)]
    /\ List.filter (is_file_check cfg) (trace w') = List.filter (is_file_check cfg) (trace w).
Proof.
  destruct (wp_run (verify_installation_comprehensive cfg clock None) w
              (fun r w' =>
                 r = Ok {| files_found := []; files_missing := []; files_partial := [];
                           total_expected := length (EXPECTED_FILES cfg);
                           install_size_bytes := 0 |}
                 /\ error_view <$> errors (error_tracker w')
                    = (error_view <$> errors (error_tracker w))
                      ++ [("Installation Directory",
                           "Installation directory not created: " +:+ INSTALL_DIR cfg, CRITICAL,
                           "The installer may have failed at folder creation step",
                           Tracker.get_retry_count "Installation Directory" (error_tracker w))]
                 /\ trace w' = trace w ++ [EvExists (INSTALL_DIR cfg)]))
    as (r & w' & Hrun & -> & He & Htr).
  { unfold verify_installation_comprehensive. wp_go.
    repeat split; world_simpl; by rewrite ?fmap_app. }
  eexists w', _. split; [exact Hrun|]. cbn [files_found files_missing total_expected].
  repeat split; try done.
  - destruct (EXPECTED_FILES cfg); [by left | by right].
  - rewrite Htr, List.filter_app. cbn. rewrite bool_decide_eq_true_2 by done. cbn.
    by rewrite app_nil_r.
Qed.

Lemma find_node_stat nodes path n :
  Forall stat_succeeds nodes -> find_node path nodes = Some n -> stat_succeeds n.
Proof.
  intros Hall Hfind. apply find_some in Hfind as [Hin _].
  rewrite Forall_forall in Hall. apply Hall. by apply list_elem_of_In.
Qed.

(** The walk over the directory: it ends without raising when every
    [stat()] succeeds, and leaves ledger, audit and clock alone. *)
Lemma wp_rglob_size nodes : forall total w (Q : result nat -> World -> Prop),
  Forall stat_succeeds nodes ->
  (forall total' w',
     error_tracker w' = error_tracker w -> audit w' = audit w -> ticks w' = ticks w ->
     Q (Ok total') w') ->
  wp (rglob_size cfg nodes total) w Q.
Proof.
  induction nodes as [|n rest IH]; intros total w Q Hall HQ; cbn [rglob_size].
  - by apply wp_ret, HQ.
  - apply Forall_cons in Hall as [[size Hsize] Hall].
    destruct (f_is_file n); [|by apply IH].
    wp_go. rewrite Hsize. apply IH; [done|]. intros total' w' Ht Ha Hti. by apply HQ.
Qed.

Lemma found_of_cons_found nodes path rest n size :
  find_node path nodes = Some n -> f_stat n = Ok size ->
  found_of nodes (path :: rest)
  = {| ff_path := path; ff_size_bytes := size; ff_is_empty := (size =? 0)%nat |}
    :: found_of nodes rest.
Proof. intros Hfind Hsize. cbn [found_of]. by rewrite Hfind, Hsize. Qed.

Lemma found_of_cons_missing nodes path rest :
  find_node path nodes = None -> found_of nodes (path :: rest) = found_of nodes rest.
Proof. intros Hfind. cbn [found_of]. by rewrite Hfind. Qed.

Lemma missing_of_cons_found nodes path rest n :
  find_node path nodes = Some n -> missing_of nodes (path :: rest) = missing_of nodes rest.
Proof. intros Hfind. unfold missing_of. cbn [List.filter]. by rewrite Hfind. Qed.

Lemma missing_of_cons_missing nodes path rest :
  find_node path nodes = None ->
  missing_of nodes (path :: rest) = path :: missing_of nodes rest.
Proof. intros Hfind. unfold missing_of. cbn [List.filter]. by rewrite Hfind. Qed.

Lemma empty_of_cons ff l :
  empty_of (ff :: l) = if ff_is_empty ff then ff_path ff :: empty_of l else empty_of l.
Proof. unfold empty_of. cbn [List.filter]. by destruct (ff_is_empty ff). Qed.

(** The loop over the manifest: with every [stat()] succeeding it
    classifies each entry, warns once per empty file, and records no
    error. *)
Lemma wp_classify_files nodes paths : forall v w
    (Q : result (Verification * option exn) -> World -> Prop),
  Forall stat_succeeds nodes ->
  (forall w',
     errors (error_tracker w') = errors (error_tracker w) ->
     retries (error_tracker w') = retries (error_tracker w) ->
     audit w' = audit w ->
     warning_view <$> warnings (error_tracker w')
     = (warning_view <$> warnings (error_tracker w))
       ++ (empty_file_warning <$> empty_of (found_of nodes paths)) ->
     Q (Ok ({| files_found := files_found v ++ found_of nodes paths;
               files_missing := files_missing v ++ missing_of nodes paths;
               files_partial := files_partial v ++ empty_of (found_of nodes paths);
               total_expected := total_expected v;
               install_size_bytes := install_size_bytes v |}, None)) w') ->
  wp (classify_files cfg clock nodes paths v) w Q.
Proof.
  induction paths as [|path rest IH]; intros v w Q Hall HQ; cbn [classify_files].
  - apply wp_ret. specialize (HQ w). cbn in HQ. rewrite !app_nil_r in HQ.
    destruct v. by apply HQ.
  - cbn zeta. wp_go.
    destruct (find_node path nodes) as [n|] eqn:Hfind.
    + destruct (find_node_stat _ _ _ Hall Hfind) as [size Hsize].
      rewrite (found_of_cons_found _ _ _ _ _ Hfind Hsize),
        (missing_of_cons_found _ _ _ _ Hfind), empty_of_cons in HQ.
      cbn [ff_is_empty ff_path] in HQ.
      wp_go. rewrite Hsize.
      destruct (size =? 0)%nat.
      * wp_go. apply IH; [done|]. cbn. intros w' He Hr Ha Hw.
        rewrite <- !app_assoc. apply HQ; try done.
        by rewrite Hw, fmap_app, <- app_assoc.
      * apply IH; [done|]. cbn. intros w' He Hr Ha Hw.
        rewrite <- !app_assoc. by apply HQ.
    + rewrite (found_of_cons_missing _ _ _ Hfind), (missing_of_cons_missing _ _ _ Hfind) in HQ.
      apply IH; [done|]. cbn. intros w' He Hr Ha Hw.
      rewrite <- !app_assoc. by apply HQ.
Qed.

Lemma found_of_present nodes paths ff :
  ff ∈ found_of nodes paths -> find_node (ff_path ff) nodes <> None.
Proof.
  induction paths as [|path rest IH]; cbn [found_of]; [by intros ?%elem_of_nil|].
  destruct (find_node path nodes) as [n|] eqn:Hfind; [|done].
  destruct (f_stat n); [|done].
  intros [-> | Hin]%elem_of_cons; [cbn; congruence | by apply IH].
Qed.

Lemma missing_of_absent nodes paths path :
  path ∈ missing_of nodes paths -> find_node path nodes = None.
Proof.
  unfold missing_of. intros Hin%list_elem_of_In%filter_In. destruct Hin as [_ Hb].
  by apply bool_decide_eq_true in Hb.
Qed.

(** An empty file is among the found files and not among the missing. *)
Lemma empty_found_not_missing nodes paths path :
  path ∈ empty_of (found_of nodes paths) ->
  path ∈ (ff_path <$> found_of nodes paths) /\ path ∉ missing_of nodes paths.
Proof.
  unfold empty_of. intros (ff & -> & Hin)%list_elem_of_fmap.
  apply list_elem_of_In, filter_In in Hin as [Hin%list_elem_of_In _]. split.
  - apply list_elem_of_fmap. eauto.
  - intros Habs%missing_of_absent. by apply (found_of_present _ _ _ Hin).
Qed.

Lemma found_missing_partition nodes paths :
  Forall stat_succeeds nodes ->
  (length (found_of nodes paths) + length (missing_of nodes paths))%nat = length paths.
Proof.
  intros Hall. induction paths as [|path rest IH]; [done|].
  destruct (find_node path nodes) as [n|] eqn:Hfind.
  - destruct (find_node_stat _ _ _ Hall Hfind) as [size Hsize].
    rewrite (found_of_cons_found _ _ _ _ _ Hfind Hsize), (missing_of_cons_found _ _ _ _ Hfind).
    cbn. lia.
  - rewrite (found_of_cons_missing _ _ _ Hfind), (missing_of_cons_missing _ _ _ Hfind).
    cbn. lia.
Qed.

(** C6: with the installation directory present and every [stat()]
    succeeding, the verifier classifies the manifest into found and
    missing entries; it then records exactly one aggregate error when
    something is missing, HIGH for more than five missing entries and
    MEDIUM otherwise, and a further CRITICAL error when nothing was found;
    a file of size zero gets a warning and is listed as found (and empty),
    never as missing. *)
Theorem installation_verification_reports (nodes : list fnode) (w : World) :
  Forall stat_succeeds nodes ->
  exists w' verification,
    verify_installation_comprehensive cfg clock (Some nodes) w = (Ok verification, w')
    /\ files_found verification = found_of nodes (EXPECTED_FILES cfg)
    /\ files_missing verification = missing_of nodes (EXPECTED_FILES cfg)
    /\ files_partial verification = empty_of (files_found verification)
    /\ (length (files_found verification) + length (files_missing verification))%nat
       = length (EXPECTED_FILES cfg)
    /\ error_view <$> errors (error_tracker w')
       = (error_view <$> errors (error_tracker w))
         ++ (if (0 <? length (files_missing verification))%nat
             then [missing_files_error (length (files_missing verification))
                     (length (files_partial verification))
                     (Tracker.get_retry_count "File Verification" (error_tracker w))]
             else [])
         ++ (if (length (files_found verification) =? 0)%nat
             then [nothing_installed_error
                     (Tracker.get_retry_count "Installation" (error_tracker w))]
             else [])
    /\ warning_view <$> warnings (error_tracker w')
       = (warning_view <$> warnings (error_tracker w))
         ++ (empty_file_warning <$> files_partial verification)
    /\ (forall path, path ∈ files_partial verification ->
          path ∈ (ff_path <$> files_found verification)
          /\ path ∉ files_missing verification).
Proof.
  intros Hall.
  set (found := found_of nodes (EXPECTED_FILES cfg)).
  set (missing := missing_of nodes (EXPECTED_FILES cfg)).
  destruct (wp_run (verify_installation_comprehensive cfg clock (Some nodes)) w
              (fun r w' =>
                 (exists total,
                    r = Ok {| files_found := found; files_missing := missing;
                              files_partial := empty_of found;
                              total_expected := length (EXPECTED_FILES cfg);
                              install_size_bytes := total |})
                 /\ error_view <$> errors (error_tracker w')
                    = (error_view <$> errors (error_tracker w))
                      ++ (if (0 <? length missing)%nat
                          then [missing_files_error (length missing) (length (empty_of found))
                                  (Tracker.get_retry_count "File Verification"
                                     (error_tracker w))]
                          else [])
                      ++ (if (length found =? 0)%nat
                          then [nothing_installed_error
                                  (Tracker.get_retry_count "Installation" (error_tracker w))]
                          else [])
                 /\ warning_view <$> warnings (error_tracker w')
                    = (warning_view <$> warnings (error_tracker w))
                      ++ (empty_file_warning <$> empty_of found)))
    as (r & w' & Hrun & (total & ->) & He & Hw).
  { unfold verify_installation_comprehensive. wp_go.
    apply wp_attempt_to, wp_rglob_size; [done|]. intros total w1 Ht1 Ha1 _.
    cbn in Ht1, Ha1. wp_go. apply wp_classify_files; [done|].
    cbn [files_found files_missing files_partial total_expected install_size_bytes app].
    intros w2 He2 Hr2 Ha2 Hw2. fold found in Hw2 |- *. fold missing.
    unfold analyze_results.
    cbn [files_found files_missing files_partial total_expected install_size_bytes].
    wp_go.
    destruct (0 <? length missing)%nat; wp_go;
      (destruct (length found =? 0)%nat; wp_go).
    all: split; [by eexists|].
    all: split; world_simpl; rewrite ?fmap_app, ?He2, ?Hw2, ?Ht1, <- ?app_assoc;
      rewrite ?app_nil_r; try reflexivity.
    all: unfold error_view, missing_files_error, nothing_installed_error,
           Tracker.get_retry_count; cbn [retries e_category e_error e_severity
                                         e_suggestion e_retry_count list_fmap fmap];
      rewrite ?Hr2, ?Ht1; reflexivity. }
  eexists w', _. split; [exact Hrun|].
  cbn [files_found files_missing files_partial].
  repeat split; try done.
  - by apply found_missing_partition.
  - by apply empty_found_not_missing.
  - intros Hin. by apply (empty_found_not_missing nodes (EXPECTED_FILES cfg) path).
Qed.

End Verifier.

(** The directory holds an empty [main.py], the [themes] directory and one
    of the two themes. *)
Lemma installation_verification_reports_witness :
  exists w' verification,
    verify_installation_comprehensive sample_config sample_clock
      (Some [ {| f_path := "main.py"; f_is_file := true; f_stat := Ok 0%nat |};
              {| f_path := "themes"; f_is_file := false; f_stat := Ok 4096%nat |};
              {| f_path := "themes/dark.json"; f_is_file := true; f_stat := Ok 10%nat |} ])
      (fresh_world sample_clock)
    = (Ok verification, w')
    /\ files_found verification
       = found_of
           [ {| f_path := "main.py"; f_is_file := true; f_stat := Ok 0%nat |};
             {| f_path := "themes"; f_is_file := false; f_stat := Ok 4096%nat |};
             {| f_path := "themes/dark.json"; f_is_file := true; f_stat := Ok 10%nat |} ]
           (EXPECTED_FILES sample_config)
    /\ files_missing verification
       = missing_of
           [ {| f_path := "main.py"; f_is_file := true; f_stat := Ok 0%nat |};
             {| f_path := "themes"; f_is_file := false; f_stat := Ok 4096%nat |};
             {| f_path := "themes/dark.json"; f_is_file := true; f_stat := Ok 10%nat |} ]
           (EXPECTED_FILES sample_config)
    /\ files_partial verification = empty_of (files_found verification)
    /\ (length (files_found verification) + length (files_missing verification))%nat
       = length (EXPECTED_FILES sample_config)
    /\ error_view <$> errors (error_tracker w')
       = (error_view <$> errors (error_tracker (fresh_world sample_clock)))
         ++ (if (0 <? length (files_missing verification))%nat
             then [missing_files_error (length (files_missing verification))
                     (length (files_partial verification))
                     (Tracker.get_retry_count "File Verification"
                        (error_tracker (fresh_world sample_clock)))]
             else [])
         ++ (if (length (files_found verification) =? 0)%nat
             then [nothing_installed_error
                     (Tracker.get_retry_count "Installation"
                        (error_tracker (fresh_world sample_clock)))]
             else [])
    /\ warning_view <$> warnings (error_tracker w')
       = (warning_view <$> warnings (error_tracker (fresh_world sample_clock)))
         ++ (empty_file_warning <$> files_partial verification)
    /\ (forall path, path ∈ files_partial verification ->
          path ∈ (ff_path <$> files_found verification)
          /\ path ∉ files_missing verification).
Proof.
  apply (installation_verification_reports sample_config sample_clock).
  repeat constructor; eexists; reflexivity.
Defined.

(** Ten of the twelve entries missing: the aggregate error is HIGH, and
    the empty [main.py] is found and warned about. *)
Example verification_ten_missing :
  let r := verify_installation_comprehensive sample_config sample_clock
             (Some [ {| f_path := "main.py"; f_is_file := true; f_stat := Ok 0%nat |};
                     {| f_path := "themes"; f_is_file := false; f_stat := Ok 4096%nat |};
                     {| f_path := "themes/dark.json"; f_is_file := true;
                        f_stat := Ok 10%nat |} ])
             (fresh_world sample_clock) in
  (match r.1 with
   | Ok v => (ff_path <$> files_found v, length (files_missing v), files_partial v)
   | Raise _ => ([], 0%nat, [])
   end) = (["main.py"; "themes/dark.json"], 10%nat, ["main.py"])
  /\ error_view <$> errors (error_tracker r.2)
     = [("File Verification", "10 files missing, 1 files empty", HIGH,
         "Check network connection and GitHub availability", 0%nat)]
  /\ warning_view <$> warnings (error_tracker r.2)
     = [("File Content", "Empty file: main.py", "File was created but contains no data")].
Proof. vm_compute. done. Qed.

(* ===================================================================== *)
(** ** The installer validator *)
(* ===================================================================== *)

Ltac break_hyps :=
  repeat match goal with
         | H : _ /\ _ |- _ => destruct H
         | H : exists _, _ |- _ => destruct H
         end.

Section Validator.

Variable cfg : Config.
Variable clock : nat -> DT.datetime.

(** C8: the validator returns [True] exactly when the existence check and
    the decoding check have passed ([checks["exists"]] and
    [checks["encoding_valid"]] are set), that is when the file exists, its
    [stat()] returns and it reads as text; a file that exists and reads as
    text is accepted whatever its size, its extension and the markers it
    holds: these only set entries of [checks] and add warnings, never an
    error. *)
Theorem installer_validation_result (w : World) :
  (forall bat,
     exists w' checks b,
       verify_installer_checked cfg clock bat w = (Ok (checks, b), w')
       /\ verify_installer_comprehensive cfg clock bat w = (Ok b, w')
       /\ (b = true <-> c_exists checks = true /\ c_encoding_valid checks = true)
       /\ (b = true <-> exists size content,
                          bat = Some {| bat_stat := Ok size; bat_read_text := Ok content |}))
  /\ (forall size content,
        exists w' checks,
          verify_installer_checked cfg clock
            (Some {| bat_stat := Ok size; bat_read_text := Ok content |}) w
          = (Ok (checks, true), w')
          /\ c_size_bytes checks = size
          /\ c_is_batch_file checks
             = bool_decide (Str.lower (Str.path_suffix (BAT_FILE cfg)) = ".bat")
          /\ errors (error_tracker w') = errors (error_tracker w)
          /\ warning_view <$> warnings (error_tracker w')
             = (warning_view <$> warnings (error_tracker w))
               ++ (if (size <? 100)%nat
                   then [("Installer Size",
                          "Installer file very small: " +:+ pretty size +:+ " bytes",
                          "File may be corrupted or incomplete")]
                   else [])
               ++ (if (length (List.filter (fun marker => Str.contains marker content)
                                 key_markers) <? 2)%nat
                   then [("Installer Content", "Missing expected batch file markers",
                          "File may not be a valid installer")]
                   else [])).
Proof.
  split.
  - intros bat.
    destruct (wp_run (verify_installer_checked cfg clock bat) w
                (fun r w' =>
                   exists checks b,
                     r = Ok (checks, b)
                     /\ (b = true <-> c_exists checks = true /\ c_encoding_valid checks = true)
                     /\ (b = true <-> exists size content,
                           bat = Some {| bat_stat := Ok size; bat_read_text := Ok content |})))
      as (r & w' & Hrun & checks & b & -> & Hchecks & Hfile).
    { unfold verify_installer_checked. wp_go.
      destruct bat as [[stat read]|]; cbn [bat_stat bat_read_text].
      - wp_go. destruct stat as [size|e].
        + wp_go. destruct (size <? 100)%nat; wp_go.
          all: destruct read as [content|[msg|msg]]; wp_go.
          all: try (destruct (length _ <? 2)%nat; wp_go).
          all: eexists _, _; split; [reflexivity|]; cbn.
          all: split; split; intros; break_hyps; try discriminate; eauto.
        + wp_go. eexists _, _; split; [reflexivity|]; cbn.
          split; split; intros; break_hyps; try discriminate; eauto.
      - wp_go. eexists _, _; split; [reflexivity|]; cbn.
        split; split; intros; break_hyps; try discriminate; eauto. }
    exists w', checks, b. split; [done|]. split; [|by split].
    unfold verify_installer_comprehensive, bind. by rewrite Hrun.
  - intros size content.
    destruct (wp_run (verify_installer_checked cfg clock
                        (Some {| bat_stat := Ok size; bat_read_text := Ok content |})) w
                (fun r w' =>
                   r = Ok ({| c_exists := true; c_size_bytes := size;
                              c_is_batch_file :=
                                bool_decide (Str.lower (Str.path_suffix (BAT_FILE cfg)) = ".bat");
                              c_content_check := true; c_encoding_valid := true |}, true)
                   /\ errors (error_tracker w') = errors (error_tracker w)
                   /\ warning_view <$> warnings (error_tracker w')
                      = (warning_view <$> warnings (error_tracker w))
                        ++ (if (size <? 100)%nat
                            then [("Installer Size",
                                   "Installer file very small: " +:+ pretty size +:+ " bytes",
                                   "File may be corrupted or incomplete")]
                            else [])
                        ++ (if (length (List.filter (fun marker => Str.contains marker content)
                                          key_markers) <? 2)%nat
                            then [("Installer Content", "Missing expected batch file markers",
                                   "File may not be a valid installer")]
                            else [])))
      as (r & w' & Hrun & -> & He & Hw).
    { unfold verify_installer_checked. cbn [bat_stat bat_read_text]. wp_go.
      destruct (size <? 100)%nat; wp_go.
      all: destruct (length _ <? 2)%nat; wp_go.
      all: repeat split; world_simpl; rewrite ?fmap_app, <- ?app_assoc, ?app_nil_r;
        reflexivity. }
    eexists w', _. split; [exact Hrun|]. done.
Qed.

End Validator.

(** A large file named [setup.txt] that holds two of the markers is
    accepted without a warning: the extension only sets
    [checks["is_batch_file"]]. *)
Example other_extension_accepted :
  let cfg := {| BAT_FILE := "setup.txt"; EXPECTED_FILES := source_EXPECTED_FILES;
                DESKTOP := DESKTOP sample_config; path_sep := path_sep sample_config;
                cwd := cwd sample_config |} in
  let r := verify_installer_checked cfg sample_clock
             (Some {| bat_stat := Ok 500%nat;
                      bat_read_text := Ok "@echo off  python main.py" |})
             (fresh_world sample_clock) in
  r.1 = Ok ({| c_exists := true; c_size_bytes := 500; c_is_batch_file := false;
               c_content_check := true; c_encoding_valid := true |}, true)
  /\ errors (error_tracker r.2) = []
  /\ warnings (error_tracker r.2) = [].
Proof. vm_compute. done. Qed.

(** A file that is not valid UTF-8 is refused with a HIGH error. *)
Example undecodable_installer_refused :
  let r := verify_installer_checked sample_config sample_clock
             (Some {| bat_stat := Ok 500%nat;
                      bat_read_text := Raise (UnicodeDecodeError "invalid start byte") |})
             (fresh_world sample_clock) in
  r.1 = Ok ({| c_exists := true; c_size_bytes := 500; c_is_batch_file := true;
               c_content_check := false; c_encoding_valid := false |}, false)
  /\ error_view <$> errors (error_tracker r.2)
     = [("Installer Encoding", "Batch file has invalid encoding", HIGH,
         "Re-download the installer file", 0%nat)].
Proof. vm_compute. done. Qed.

(** An installer file of size zero is accepted, with two warnings: size
    alone is never fatal. *)
Example empty_installer_accepted :
  let r := verify_installer_comprehensive sample_config sample_clock
             (Some {| bat_stat := Ok 0%nat; bat_read_text := Ok "" |})
             (fresh_world sample_clock) in
  r.1 = Ok true
  /\ errors (error_tracker r.2) = []
  /\ warning_view <$> warnings (error_tracker r.2)
     = [("Installer Size", "Installer file very small: 0 bytes",
         "File may be corrupted or incomplete");
        ("Installer Content", "Missing expected batch file markers",
         "File may not be a valid installer")].
Proof. vm_compute. done. Qed.

(* ===================================================================== *)
(** ** The error ledger *)
(* ===================================================================== *)

Lemma get_retry_count_run_ops category os : forall t,
  Tracker.get_retry_count category (Tracker.run_ops t os)
  = (Tracker.get_retry_count category t + Tracker.increments_of category os)%nat.
Proof.
  unfold Tracker.run_ops.
  induction os as [|o os IH]; intros t; cbn [fold_left Tracker.increments_of]; [lia|].
  rewrite IH. destruct o as [ts c e s g | ts c x g | c]; cbn [Tracker.apply_op]; try done.
  case_bool_decide as Hc.
  - subst c. rewrite get_retry_count_increment. lia.
  - rewrite get_retry_count_increment_ne by done. lia.
Qed.

(** C10: [increment_retry(c)] raises [get_retry_count(c)] by exactly one,
    leaves the count of every other category and the stored errors and
    warnings as they were; on a ledger that started empty, a category never
    incremented counts 0 (and any category counts its increments). *)
Theorem increment_retry_frame (category : string) (t : ErrorTracker) :
  Tracker.get_retry_count category (Tracker.increment_retry category t)
  = (Tracker.get_retry_count category t + 1)%nat
  /\ (forall other, other <> category ->
        Tracker.get_retry_count other (Tracker.increment_retry category t)
        = Tracker.get_retry_count other t)
  /\ errors (Tracker.increment_retry category t) = errors t
  /\ warnings (Tracker.increment_retry category t) = warnings t
  /\ Tracker.get_retry_count category Tracker.init = 0%nat
  /\ (forall os, Tracker.increments_of category os = 0%nat ->
        Tracker.get_retry_count category (Tracker.run_ops Tracker.init os) = 0%nat)
  /\ (forall os,
        Tracker.get_retry_count category (Tracker.run_ops Tracker.init os)
        = Tracker.increments_of category os).
Proof.
  repeat split.
  - rewrite get_retry_count_increment. lia.
  - intros other Hne. by apply get_retry_count_increment_ne.
  - intros os Hnone. by rewrite get_retry_count_run_ops, Hnone.
  - intros os. by rewrite get_retry_count_run_ops.
Qed.

(* ===================================================================== *)
(** ** The report and the overall verdict *)
(* ===================================================================== *)

Section Report.

Variable cfg : Config.
Variable clock : nat -> DT.datetime.

(** The text reads the errors and warnings of the ledger and the start
    time, steps and success flag of the audit, and nothing else of them. *)
Lemma report_text_ext t1 t2 a1 a2 end_dt :
  errors t1 = errors t2 -> warnings t1 = warnings t2 ->
  start_time a1 = start_time a2 -> steps a1 = steps a2 -> success a1 = success a2 ->
  report_text cfg t1 a1 end_dt = report_text cfg t2 a2 end_dt.
Proof.
  intros He Hw Hst Hs Hsu. unfold report_text, recommendations.
  by rewrite He, Hw, Hst, Hs, Hsu.
Qed.

(** The report builder returns the text for the ledger and audit it finds
    and the clock reading it takes; it stores that reading as [end_time]
    and leaves the ledger, the steps and the success flag alone. *)
Lemma generate_comprehensive_report_run written w :
  exists w',
    generate_comprehensive_report cfg clock written w
    = (Ok (report_text cfg (error_tracker w) (audit w) (clock (ticks w))), w')
    /\ error_tracker w' = error_tracker w
    /\ steps (audit w') = steps (audit w)
    /\ start_time (audit w') = start_time (audit w)
    /\ success (audit w') = success (audit w)
    /\ end_time (audit w') = Some (clock (ticks w))
    /\ trace w' = trace w ++ [EvWriteText (REPORT_FILE cfg)].
Proof.
  destruct (wp_run (generate_comprehensive_report cfg clock written) w
              (fun r w' =>
                 r = Ok (report_text cfg (error_tracker w) (audit w) (clock (ticks w)))
                 /\ error_tracker w' = error_tracker w
                 /\ steps (audit w') = steps (audit w)
                 /\ start_time (audit w') = start_time (audit w)
                 /\ success (audit w') = success (audit w)
                 /\ end_time (audit w') = Some (clock (ticks w))
                 /\ trace w' = trace w ++ [EvWriteText (REPORT_FILE cfg)]))
    as (r & w' & Hrun & -> & H); [|eauto].
  unfold generate_comprehensive_report. wp_go.
  destruct written; wp_go; world_simpl.
  all: split; [f_equal; by apply report_text_ext | done].
Qed.

(** C9, as the code has it: the report text is determined by the errors
    and warnings of the ledger, the step log, the start time and success
    flag of the audit, the configured paths, and the clock reading taken
    when the report is built.  Two invocations that agree on these return
    the same text, whatever the retry counters, the log, the trace, an
    earlier [end_time] and the outcome of writing the report file. *)
Theorem report_determined_by_snapshot_and_clock written1 written2 (w1 w2 : World) :
  errors (error_tracker w1) = errors (error_tracker w2) ->
  warnings (error_tracker w1) = warnings (error_tracker w2) ->
  steps (audit w1) = steps (audit w2) ->
  start_time (audit w1) = start_time (audit w2) ->
  success (audit w1) = success (audit w2) ->
  clock (ticks w1) = clock (ticks w2) ->
  exists report,
    (generate_comprehensive_report cfg clock written1 w1).1 = Ok report
    /\ (generate_comprehensive_report cfg clock written2 w2).1 = Ok report.
Proof.
  intros He Hw Hs Hst Hsu Hclock.
  destruct (generate_comprehensive_report_run written1 w1) as (w1' & -> & _).
  destruct (generate_comprehensive_report_run written2 w2) as (w2' & -> & _).
  eexists. split; [reflexivity|]. cbn [fst]. rewrite Hclock. f_equal.
  by apply report_text_ext.
Qed.

(** The verifier never raises: a failing [stat()] is caught and recorded. *)
Lemma wp_classify_files_returns nodes paths : forall v w
    (Q : result (Verification * option exn) -> World -> Prop),
  (forall r w', Q (Ok r) w') -> wp (classify_files cfg clock nodes paths v) w Q.
Proof.
  induction paths as [|path rest IH]; intros v w Q HQ; cbn [classify_files].
  - by apply wp_ret.
  - cbn zeta. wp_go. destruct (find_node path nodes) as [n|]; [|by apply IH].
    wp_go. destruct (f_stat n) as [size|e]; [|by apply wp_ret].
    destruct (size =? 0)%nat; wp_go; by apply IH.
Qed.

Lemma verify_installation_returns tree w :
  exists verification w',
    verify_installation_comprehensive cfg clock tree w = (Ok verification, w').
Proof.
  destruct (wp_run (verify_installation_comprehensive cfg clock tree) w
              (fun r _ => exists verification, r = Ok verification))
    as (r & w' & Hrun & v & ->); [|eauto].
  unfold verify_installation_comprehensive. wp_go.
  destruct tree as [nodes|]; wp_go; [|eauto].
  apply wp_attempt_to.
  apply (wp_mono _ _ (fun _ _ => True)); [by unfold wp|]. intros [total|e] w1 _.
  - apply wp_bind, wp_classify_files_returns. intros [v [e|]] w2.
    + wp_go. eauto.
    + unfold analyze_results. wp_go.
      destruct (0 <? _)%nat; wp_go; (destruct (_ =? 0)%nat; wp_go); eauto.
  - wp_go. eauto.
Qed.

(** C7: the verdict stored in [audit["success"]] is the conjunction of what
    the retry runner returned and of the verification result listing no
    missing file. *)
Theorem overall_success_is_conjunction installer tree written (w : World) :
  exists w1 w2 w3 w' installation_success verification report,
    safe_log clock "Starting enhanced installation with retry support..." "INFO" w
    = (Ok tt, w1)
    /\ run_installer_with_retries clock installer 3 w1 = (Ok installation_success, w2)
    /\ verify_installation_comprehensive cfg clock tree w2 = (Ok verification, w3)
    /\ main_install_verify_report cfg clock installer tree written w
       = (Ok (installation_success, verification, report), w')
    /\ success (audit w')
       = installation_success && (length (files_missing verification) =? 0)%nat
    /\ (success (audit w') = true
        <-> installation_success = true /\ length (files_missing verification) = 0%nat).
Proof.
  destruct (wp_run (safe_log clock "Starting enhanced installation with retry support..."
                      "INFO") w (fun r _ => r = Ok tt))
    as (r1 & w1 & H1 & ->); [by apply wp_safe_log|].
  destruct (retry_loop_returns clock installer 3 (range 1 (3 + 1)) w1) as (b & w2 & H2).
  destruct (verify_installation_returns tree w2) as (v & w3 & H3).
  set (w4 := {| error_tracker := error_tracker w3;
                audit := {| start_time := start_time (audit w3); steps := steps (audit w3);
                            end_time := end_time (audit w3);
                            success := b && (length (files_missing v) =? 0)%nat |};
                log := log w3; trace := trace w3; ticks := ticks w3 |}).
  destruct (generate_comprehensive_report_run written w4) as (w5 & H5 & _ & _ & _ & Hsu & _).
  destruct (wp_run (safe_log clock "=== ENHANCED MONITORING COMPLETED ===" "INFO") w5
              (fun r w' => r = Ok tt /\ audit w' = audit w5))
    as (r6 & w6 & H6 & -> & Ha6); [by apply wp_safe_log|].
  exists w1, w2, w3, w6, b, v, (report_text cfg (error_tracker w4) (audit w4) (clock (ticks w4))).
  assert (Hverdict : success (audit w6) = b && (length (files_missing v) =? 0)%nat).
  { by rewrite Ha6, Hsu. }
  split; [done|]. split; [exact H2|]. split; [exact H3|]. split.
  - unfold main_install_verify_report, bind. rewrite H1.
    unfold run_installer_with_retries in H2 |- *. rewrite H2, H3, modify_audit_run.
    fold w4. by rewrite H5, H6.
  - split; [exact Hverdict|].
    by rewrite Hverdict, andb_true_iff, Nat.eqb_eq.
Qed.

End Report.

(** Two worlds that differ in retry counters, log, trace, stored end time,
    number of clock readings taken and outcome of the write, under a clock
    that stands still. *)
Lemma report_determined_by_snapshot_and_clock_witness :
  exists report,
    (generate_comprehensive_report sample_config (fun _ => sample_clock 7) (Ok tt)
       (fresh_world (fun _ => sample_clock 7))).1 = Ok report
    /\ (generate_comprehensive_report sample_config (fun _ => sample_clock 7)
          (Raise (OtherException "[Errno 13] Permission denied"))
          {| error_tracker := Tracker.increment_retry "Installer Execution" Tracker.init;
             audit := {| start_time := sample_clock 7; steps := [];
                         end_time := Some (sample_clock 2); success := true |};
             log := ["earlier line"]; trace := [EvSleep 5]; ticks := 9 |}).1 = Ok report.
Proof.
  apply (report_determined_by_snapshot_and_clock sample_config (fun _ => sample_clock 7));
    reflexivity.
Defined.

(** C9 as stated fails: the builder reads the clock.  Built twice in a
    row, with the ledger, the step log, the start time and the success
    flag unchanged in between, the report differs in its "End" and
    "Duration" lines. *)
Lemma report_differs_between_two_builds :
  error_tracker
    (generate_comprehensive_report sample_config sample_clock (Ok tt)
       (fresh_world sample_clock)).2
  = error_tracker (fresh_world sample_clock)
  /\ steps (audit (generate_comprehensive_report sample_config sample_clock (Ok tt)
                     (fresh_world sample_clock)).2)
     = steps (audit (fresh_world sample_clock))
  /\ (exists first_report second_report,
        (generate_comprehensive_report sample_config sample_clock (Ok tt)
           (fresh_world sample_clock)).1 = Ok first_report
        /\ (generate_comprehensive_report sample_config sample_clock (Ok tt)
              (generate_comprehensive_report sample_config sample_clock (Ok tt)
                 (fresh_world sample_clock)).2).1 = Ok second_report
        /\ Str.contains "  End      : 2024-01-01T00:00:01" first_report = true
        /\ Str.contains "  Duration : 0:00:01" first_report = true
        /\ Str.contains "  End      : 2024-01-01T00:00:03" second_report = true
        /\ Str.contains "  Duration : 0:00:03" second_report = true
        /\ first_report <> second_report).
Proof.
  split; [by vm_compute|]. split; [by vm_compute|].
  eexists _, _. split; [vm_compute; reflexivity|]. split; [vm_compute; reflexivity|].
  split; [by vm_compute|]. split; [by vm_compute|].
  split; [by vm_compute|]. split; [by vm_compute|].
  apply String.eqb_neq. by vm_compute.
Qed.

(** C5 in [main]: with the first attempt ending with exit code 0 and the
    installation directory absent, the run ends with
    [audit["success"] = True], a CRITICAL error on record. *)
Example success_without_install_dir :
  let r := main_install_verify_report sample_config sample_clock
             (fun _ => Launched (Exits 1 0)) None (Ok tt) (fresh_world sample_clock) in
  success (audit r.2) = true
  /\ error_view <$> errors (error_tracker r.2)
     = [("Installation Directory",
         "Installation directory not created: C:\Users\user\Desktop\M3U Matrix CDS v5.0",
         CRITICAL, "The installer may have failed at folder creation step", 0%nat)]
  /\ (match r.1 with
      | Ok (_, v, _) => (files_found v, files_missing v, total_expected v)
      | Raise _ => ([], [], 0%nat)
      end) = ([], [], 12%nat).
Proof. vm_compute. done. Qed.

(* ===================================================================== *)
(** ** The retry runner on arbitrary launches *)
(* ===================================================================== *)

Lemma attempt_succeeds_or_fails o : attempt_succeeds o \/ attempt_fails o.
Proof.
  destruct o as [p|e]; cbn; [|by right].
  destruct (decide (observed p max_wait = Some 0)); [by left | by right].
Qed.

Lemma attempt_fails_not_succeeds o : attempt_fails o -> attempt_succeeds o -> False.
Proof. destruct o; cbn; tauto. Qed.

Lemma backoffs_app l1 l2 : backoffs (l1 ++ l2) = (backoffs l1 + backoffs l2)%nat.
Proof. unfold backoffs. by rewrite List.filter_app, length_app. Qed.

Lemma backoffs_wait evs : Forall is_wait_event evs -> backoffs evs = 0%nat.
Proof.
  induction 1 as [|ev evs [-> | ->] _ IH]; [done | exact IH | exact IH].
Qed.

Lemma backoffs_popen attempt evs : backoffs (EvPopen attempt :: evs) = backoffs evs.
Proof. reflexivity. Qed.

Lemma count_running_failure_steps o attempt :
  length (List.filter (fun v : string * Status * string * Z => bool_decide (v.1.1.2 = RUNNING))
            (failure_steps o attempt)) = 0%nat.
Proof. by destruct o. Qed.

Section GeneralLoop.

Variable clock : nat -> DT.datetime.
Variable installer : Z -> launch_outcome.
Variable max_attempts : Z.

(** What one pass of the loop body adds to the counters read off a world. *)
Lemma attempt_effects_counters w w' attempt new_steps new_errors after_wait :
  attempt_effects w w' attempt new_steps new_errors after_wait ->
  length (List.filter (fun v : string * Status * string * Z => bool_decide (v.1.1.2 = RUNNING))
            new_steps) = 0%nat ->
  launches after_wait = [] ->
  launches (trace w') = launches (trace w) ++ [attempt]
  /\ Tracker.get_retry_count "Installer Execution" (error_tracker w')
     = S (Tracker.get_retry_count "Installer Execution" (error_tracker w))
  /\ count_status RUNNING (steps (audit w')) = S (count_status RUNNING (steps (audit w)))
  /\ backoffs (trace w') = (backoffs (trace w) + backoffs after_wait)%nat.
Proof.
  intros [Hr Hw He Hs Hst Hen Hsu (waits & Hwaits & Htr)] Hnew Hafter.
  repeat split.
  - rewrite Htr, launches_app. cbn. by rewrite launches_app, (launches_wait _ Hwaits), Hafter.
  - rewrite (get_retry_count_retries _ _ _ Hr). apply get_retry_count_increment.
  - rewrite !count_status_view, Hs, List.filter_app, length_app.
    change (length (List.filter _ (_ :: new_steps)))
      with (S (length (List.filter
                         (fun v : string * Status * string * Z => bool_decide (v.1.1.2 = RUNNING))
                         new_steps))).
    rewrite Hnew. lia.
  - by rewrite Htr, backoffs_app, backoffs_popen, backoffs_app, (backoffs_wait _ Hwaits).
Qed.

(** The loop from attempt [first] on, whatever the launches lead to: it
    returns, having made [made] attempts in a row. *)
Lemma retry_loop_general (n : nat) : forall first w,
  Z.of_nat n = max_attempts + 1 - first ->
  exists (b : bool) w' (made : nat),
    retry_loop clock installer max_attempts (range first (max_attempts + 1)) w = (Ok b, w')
    /\ (made <= n)%nat /\ (0 < n -> 0 < made)%nat
    /\ launches (trace w') = launches (trace w) ++ range first (first + Z.of_nat made)
    /\ Tracker.get_retry_count "Installer Execution" (error_tracker w')
       = (Tracker.get_retry_count "Installer Execution" (error_tracker w) + made)%nat
    /\ count_status RUNNING (steps (audit w'))
       = (count_status RUNNING (steps (audit w)) + made)%nat
    /\ backoffs (trace w') = (backoffs (trace w) + (made - 1))%nat
    /\ (b = true ->
        attempt_succeeds (installer (first + Z.of_nat made - 1))
        /\ forall j, first <= j < first + Z.of_nat made - 1 -> attempt_fails (installer j))
    /\ (b = false ->
        made = n /\ forall j, first <= j <= max_attempts -> attempt_fails (installer j)).
Proof.
  induction n as [|n IH]; intros first w Hn.
  - rewrite range_nil by lia. exists false, w, 0%nat. cbn [retry_loop].
    rewrite Z.add_0_r, (range_nil first first), !app_nil_r, !Nat.add_0_r by lia.
    repeat split; try done; try lia.
  - rewrite range_cons by lia. cbn [retry_loop]. unfold bind at 1.
    destruct (attempt_succeeds_or_fails (installer first)) as [Hok|Hfail].
    + destruct (installer first) as [p|e] eqn:Hinst; [|done]. cbn in Hok.
      destruct (installer_attempt_succeeds clock installer max_attempts first p w Hinst Hok)
        as (w1 & -> & Heff).
      destruct (attempt_effects_counters _ _ _ _ _ _ Heff eq_refl eq_refl)
        as (Hl & Hc & Hrn & Hb).
      exists true, w1, 1%nat.
      rewrite (range_cons first (first + Z.of_nat 1)), (range_nil (first + 1)) by lia.
      replace (first + Z.of_nat 1 - 1) with first by lia. rewrite Hinst.
      repeat split; try done; try lia.
    + destruct (installer_attempt_fails clock installer max_attempts first w Hfail)
        as (w1 & -> & Heff).
      destruct (attempt_effects_counters _ _ _ _ _ _ Heff
                  (count_running_failure_steps _ _) (backoff_no_launch _))
        as (Hl & Hc & Hrn & Hb).
      destruct (Z.ltb_spec first max_attempts) as [Hlt|Hge].
      * destruct (IH (first + 1) w1) as (b & w2 & made & Hrun & Hle & Hpos & Hl2 & Hc2 & Hrn2
                                          & Hb2 & Htrue & Hfalse); [lia|].
        exists b, w2, (S made). rewrite Hrun.
        assert (0 < made)%nat by (apply Hpos; lia).
        split; [done|]. split; [lia|]. split; [lia|].
        split.
        { rewrite Hl2, Hl, <- app_assoc. f_equal.
          rewrite (range_cons first (first + Z.of_nat (S made))) by lia. cbn. do 2 f_equal. lia. }
        split; [rewrite Hc2, Hc; lia|]. split; [rewrite Hrn2, Hrn; lia|].
        split; [rewrite Hb2, Hb; change (backoffs [EvSleep 5]) with 1%nat; lia|].
        split.
        { intros Hbt. destruct (Htrue Hbt) as [Hs Hf].
          replace (first + Z.of_nat (S made) - 1) with (first + 1 + Z.of_nat made - 1) by lia.
          split; [done|]. intros j Hj.
          destruct (decide (j = first)) as [->|]; [done | apply Hf; lia]. }
        { intros Hbf. destruct (Hfalse Hbf) as [-> Hf]. split; [done|]. intros j Hj.
          destruct (decide (j = first)) as [->|]; [done | apply Hf; lia]. }
      * exists false, w1, 1%nat.
        rewrite (range_cons first (first + Z.of_nat 1)), (range_nil (first + 1)) by lia.
        split; [done|]. split; [lia|]. split; [lia|]. split; [done|].
        split; [lia|]. split; [lia|].
        split; [rewrite Hb; change (backoffs []) with 0%nat; lia|].
        split; [done|]. intros _. split; [lia|].
        intros j Hj. by replace j with first by lia.
Qed.

End GeneralLoop.

(** The same for the whole of [run_installer_with_retries], whatever the
    bound. *)
Lemma run_installer_general clock installer (N : Z) (w : World) :
  exists (b : bool) w' (made : nat),
    run_installer_with_retries clock installer N w = (Ok b, w')
    /\ Z.of_nat made <= Z.max N 0
    /\ launches (trace w') = launches (trace w) ++ range 1 (1 + Z.of_nat made)
    /\ Tracker.get_retry_count "Installer Execution" (error_tracker w')
       = (Tracker.get_retry_count "Installer Execution" (error_tracker w) + made)%nat
    /\ count_status RUNNING (steps (audit w'))
       = (count_status RUNNING (steps (audit w)) + made)%nat
    /\ backoffs (trace w') = (backoffs (trace w) + (made - 1))%nat
    /\ (b = true ->
        1 <= Z.of_nat made
        /\ attempt_succeeds (installer (Z.of_nat made))
        /\ forall j, 1 <= j < Z.of_nat made -> attempt_fails (installer j))
    /\ (b = false -> forall j, 1 <= j <= N -> attempt_fails (installer j)).
Proof.
  unfold run_installer_with_retries.
  destruct (Z.le_gt_cases N 0) as [Hneg|Hpos].
  - exists false, w, 0%nat. rewrite (range_nil 1 (N + 1)) by lia. cbn [retry_loop ret].
    rewrite (range_nil 1 (1 + Z.of_nat 0)), !app_nil_r, !Nat.add_0_r by lia.
    repeat split; try done; try lia.
  - destruct (retry_loop_general clock installer N (Z.to_nat N) 1 w)
      as (b & w' & made & Hrun & Hle & Hmade & Hl & Hc & Hrn & Hb & Htrue & Hfalse); [lia|].
    exists b, w', made. split; [done|]. split; [lia|]. split; [done|]. split; [done|].
    split; [done|]. split; [done|]. split.
    + intros Hbt. destruct (Htrue Hbt) as [Hs Hf].
      replace (1 + Z.of_nat made - 1) with (Z.of_nat made) in * by lia.
      split; [|done]. assert (0 < made)%nat by (apply Hmade; lia). lia.
    + intros Hbf. by destruct (Hfalse Hbf).
Qed.

(** X1: Whatever the launches lead to, the retry runner returns; the attempts
    it makes are 1, 2, ... up to some number no larger than the bound, the
    retry counter of "Installer Execution" and the RUNNING steps grow by
    exactly that number, and one backoff of five seconds lies between two
    attempts in a row, none after the last. *)
Theorem retry_runner_bounded clock installer (N : Z) (w : World) :
  exists (b : bool) w' (made : nat),
    run_installer_with_retries clock installer N w = (Ok b, w')
    /\ Z.of_nat made <= Z.max N 0
    /\ launches (trace w') = launches (trace w) ++ range 1 (1 + Z.of_nat made)
    /\ Tracker.get_retry_count "Installer Execution" (error_tracker w')
       = (Tracker.get_retry_count "Installer Execution" (error_tracker w) + made)%nat
    /\ count_status RUNNING (steps (audit w'))
       = (count_status RUNNING (steps (audit w)) + made)%nat
    /\ backoffs (trace w') = (backoffs (trace w) + (made - 1))%nat.
Proof.
  destruct (run_installer_general clock installer N w)
    as (b & w' & made & Hrun & Hle & Hl & Hc & Hrn & Hb & _).
  by exists b, w', made.
Qed.

(** X2: The retry runner returns [True] exactly when some attempt within the
    bound succeeds, and [False] exactly when every one of them fails: an
    earlier failure of any kind never prevents a later success. *)
Theorem retry_runner_result clock installer (N : Z) (w : World) :
  ((run_installer_with_retries clock installer N w).1 = Ok true
   <-> exists k, 1 <= k <= N /\ attempt_succeeds (installer k))
  /\ ((run_installer_with_retries clock installer N w).1 = Ok false
      <-> forall k, 1 <= k <= N -> attempt_fails (installer k)).
Proof.
  destruct (run_installer_general clock installer N w)
    as (b & w' & made & Hrun & Hle & _ & _ & _ & _ & Htrue & Hfalse).
  rewrite Hrun. cbn [fst].
  destruct b.
  - destruct (Htrue eq_refl) as (Hpos & Hs & Hf). split; split; try done.
    + intros _. exists (Z.of_nat made). split; [lia | done].
    + intros Hall. exfalso.
      apply (attempt_fails_not_succeeds (installer (Z.of_nat made))); [|done].
      apply Hall. lia.
  - specialize (Hfalse eq_refl). split; split; try done.
    intros (k & Hk & Hs). exfalso.
    by apply (attempt_fails_not_succeeds (installer k)); [apply Hfalse|].
Qed.

(** X3: With a bound below 1 the runner makes no attempt: it returns [False]
    and leaves the world as it was. *)
Theorem retry_runner_without_attempts clock installer (N : Z) (w : World) :
  N <= 0 -> run_installer_with_retries clock installer N w = (Ok false, w).
Proof.
  intros HN. unfold run_installer_with_retries. by rewrite range_nil by lia.
Qed.

Lemma retry_runner_without_attempts_witness :
  run_installer_with_retries sample_clock (fun _ => Launched (Exits 1 0)) 0
    (fresh_world sample_clock)
  = (Ok false, fresh_world sample_clock).
Proof.
  apply (retry_runner_without_attempts sample_clock (fun _ => Launched (Exits 1 0)) 0). lia.
Defined.

Lemma failure_errors_range installer N hi (n : nat) : forall first count,
  Z.of_nat n = hi - first ->
  (fun v : string * string * Severity * string * nat => (v.1.1.1.1, v.1.1.2, v.2))
    <$> failure_errors installer N (range first hi) count
  = (fun k => ("Installer Execution", attempt_severity N k,
               (count + Z.to_nat (k - first + 1))%nat))
    <$> range first hi.
Proof.
  induction n as [|n IH]; intros first count Hn.
  - by rewrite range_nil by lia.
  - rewrite range_cons by lia. cbn [failure_errors fmap list_fmap]. f_equal.
    + replace (Z.to_nat (first - first + 1)) with 1%nat by lia. rewrite Nat.add_1_r.
      by destruct (installer first).
    + change (list_fmap _ _ ?f ?l) with (f <$> l). rewrite IH by lia.
      apply list_fmap_ext. intros i k Hk%list_elem_of_lookup_2%elem_of_range.
      f_equal. lia.
Qed.

(** X4: When every attempt fails, in whatever way, each leaves one error
    record of category "Installer Execution": MEDIUM for all but the last
    attempt, HIGH for the last, each carrying the retry count of its
    attempt. *)
Theorem retry_errors_escalate clock installer (N : Z) (w : World) :
  (forall k, 1 <= k <= N -> attempt_fails (installer k)) ->
  exists w',
    run_installer_with_retries clock installer N w = (Ok false, w')
    /\ (fun e => (e_category e, e_severity e, e_retry_count e)) <$> errors (error_tracker w')
       = ((fun e => (e_category e, e_severity e, e_retry_count e)) <$> errors (error_tracker w))
         ++ ((fun k => ("Installer Execution", (if k =? N then HIGH else MEDIUM),
                        (Tracker.get_retry_count "Installer Execution" (error_tracker w)
                         + Z.to_nat k)%nat))
             <$> range 1 (N + 1)).
Proof.
  intros Hfail.
  destruct (Z.le_gt_cases N 0) as [Hneg|Hpos].
  { exists w. unfold run_installer_with_retries. rewrite (range_nil 1 (N + 1)) by lia.
    by rewrite app_nil_r. }
  destruct (retry_loop_all_fail clock installer N (Z.to_nat N) 1 w)
    as (w' & Hrun & [_ _ Le _ _ _ _ _ _]); [lia | done |].
  exists w'. split; [done|].
  assert (Hview : forall l : list ErrorRecord,
            (fun e => (e_category e, e_severity e, e_retry_count e)) <$> l
            = (fun v : string * string * Severity * string * nat => (v.1.1.1.1, v.1.1.2, v.2))
                <$> (error_view <$> l)).
  { intros l. rewrite <- list_fmap_compose. by apply list_fmap_ext. }
  rewrite !Hview, Le, fmap_app, (failure_errors_range _ _ _ (Z.to_nat N)) by lia. f_equal.
  apply list_fmap_ext. intros i k Hk%list_elem_of_lookup_2%elem_of_range.
  unfold attempt_severity. f_equal. lia.
Qed.

(** Three launches that all raise. *)
Lemma retry_errors_escalate_witness :
  exists w',
    run_installer_with_retries sample_clock (fun _ => LaunchFails (OtherException "denied")) 3
      (fresh_world sample_clock) = (Ok false, w')
    /\ (fun e => (e_category e, e_severity e, e_retry_count e)) <$> errors (error_tracker w')
       = ((fun e => (e_category e, e_severity e, e_retry_count e))
            <$> errors (error_tracker (fresh_world sample_clock)))
         ++ ((fun k => ("Installer Execution", (if k =? 3 then HIGH else MEDIUM),
                        (Tracker.get_retry_count "Installer Execution"
                           (error_tracker (fresh_world sample_clock))
                         + Z.to_nat k)%nat))
             <$> range 1 (3 + 1)).
Proof.
  apply (retry_errors_escalate sample_clock (fun _ => LaunchFails (OtherException "denied")) 3).
  intros k _. exact I.
Defined.

(* ===================================================================== *)
(** ** The length of the wait *)
(* ===================================================================== *)

Lemma rounds_run_le p rounds : forall polls, (rounds_run p polls rounds <= rounds)%nat.
Proof.
  induction rounds as [|rest IH]; intros polls; cbn [rounds_run]; [lia|].
  destruct (observed p polls); [lia|]. specialize (IH (S polls)). lia.
Qed.

Lemma rounds_run_exits after code rounds : forall polls,
  rounds_run (Exits after code) polls rounds = Nat.min (S (after - polls)) rounds.
Proof.
  induction rounds as [|rest IH]; intros polls; cbn [rounds_run]; [lia|].
  unfold observed. destruct (Nat.leb_spec after polls) as [Hle|Hgt]; [lia|].
  rewrite IH. lia.
Qed.

Lemma rounds_run_never rounds : forall polls, rounds_run NeverExits polls rounds = rounds.
Proof.
  induction rounds as [|rest IH]; intros polls; cbn [rounds_run observed]; [done|].
  by rewrite IH.
Qed.

Section ExactWait.

Variable clock : nat -> DT.datetime.

(** The wait goes through [rounds_run] rounds, each a one-second sleep
    and a poll, and does nothing else to its surroundings. *)
Lemma wp_wait_for_exit_exact attempt rounds : forall proc w
    (Q : result Popen -> World -> Prop),
  (forall w',
     error_tracker w' = error_tracker w -> audit w' = audit w ->
     trace w'
     = trace w ++ wait_rounds (rounds_run (child proc) (polls_done proc) (length rounds)) ->
     Q (Ok {| child := child proc;
              polls_done := polls_done proc
                            + rounds_run (child proc) (polls_done proc) (length rounds) |}) w') ->
  wp (wait_for_exit clock attempt rounds proc) w Q.
Proof.
  induction rounds as [|i rest IH]; intros proc w Q HQ; cbn [wait_for_exit].
  - apply wp_ret. cbn in HQ. rewrite Nat.add_0_r in HQ. destruct proc.
    apply HQ; [done | done | by rewrite app_nil_r].
  - cbn [length rounds_run] in HQ. apply wp_bind, wp_sleep, wp_bind, wp_poll. cbn [fst snd].
    destruct (observed (child proc) (polls_done proc)) as [c|] eqn:Hobs.
    + apply wp_ret. rewrite Nat.add_1_r in HQ. apply HQ; cbn; [done | done |].
      by rewrite <- app_assoc.
    + apply wp_bind.
      assert (Hrest : forall w1,
                error_tracker w1 = error_tracker w -> audit w1 = audit w ->
                trace w1 = trace w ++ [EvSleep 1; EvPoll] ->
                wp (wait_for_exit clock attempt rest
                      {| child := child proc; polls_done := S (polls_done proc) |}) w1 Q).
      { intros w1 Ht Ha Htr. apply IH. cbn [child polls_done].
        intros w' Ht' Ha' Htr'.
        replace (S (polls_done proc) + rounds_run (child proc) (S (polls_done proc)) (length rest))%nat
          with (polls_done proc + S (rounds_run (child proc) (S (polls_done proc)) (length rest)))%nat
          by lia.
        apply HQ; [congruence | congruence |].
        by rewrite Htr', Htr, <- app_assoc. }
      destruct (i mod 30 =? 0)%nat.
      * apply wp_safe_log. intros line. apply Hrest; cbn; [done | done |].
        by rewrite <- app_assoc.
      * apply wp_ret, Hrest; cbn; [done | done |]. by rewrite <- app_assoc.
Qed.

(** X5: An attempt whose launch succeeded sleeps one second before each poll
    of the wait, for at most [max_wait] = 300 rounds: as many rounds as
    polls are needed to see the process exited, 300 if it never shows
    within them; one more poll reads the return code, and the only other
    sleep is the five-second backoff taken when the loop goes on. *)
Theorem attempt_wait_is_bounded installer (N attempt : Z) (p : process) (w : World) :
  installer attempt = Launched p ->
  exists r w',
    installer_attempt clock installer N attempt w = (Ok r, w')
    /\ (rounds_run p 0 max_wait <= max_wait)%nat
    /\ rounds_run p 0 max_wait
       = match p with
         | Exits after _ => Nat.min (S after) max_wait
         | NeverExits => max_wait
         end
    /\ trace w'
       = trace w ++ EvPopen attempt :: wait_rounds (rounds_run p 0 max_wait)
         ++ EvPoll :: match r with None => [EvSleep 5] | Some _ => [] end.
Proof.
  intros Hinst.
  destruct (wp_run (installer_attempt clock installer N attempt) w
              (fun r w' =>
                 exists r', r = Ok r'
                 /\ trace w'
                    = trace w ++ EvPopen attempt :: wait_rounds (rounds_run p 0 max_wait)
                      ++ EvPoll :: match r' with None => [EvSleep 5] | Some _ => [] end))
    as (r & w' & Hrun & r' & -> & Htr).
  { unfold installer_attempt. wp_go.
    apply wp_try_except, wp_bind, wp_popen. cbn zeta. world_simpl. rewrite Hinst.
    apply wp_bind, wp_wait_for_exit_exact. cbn [child polls_done].
    rewrite length_seq. intros w1 _ _ Htr1. cbn [trace] in Htr1.
    apply wp_bind, wp_poll. cbn [fst].
    case_bool_decide; wp_go; [|destruct (attempt <? N); wp_go].
    all: eexists; split; [reflexivity|]; rewrite Htr1, <- !app_assoc; reflexivity. }
  exists r', w'. split; [done|]. split; [apply rounds_run_le|]. split; [|done].
  destruct p as [after code|]; [|apply rounds_run_never].
  rewrite rounds_run_exits. by rewrite Nat.sub_0_r.
Qed.

End ExactWait.

(** A process that never exits, in the second of three attempts. *)
Lemma attempt_wait_is_bounded_witness :
  exists r w',
    installer_attempt sample_clock (fun _ => Launched NeverExits) 3 2 (fresh_world sample_clock)
    = (Ok r, w')
    /\ (rounds_run NeverExits 0 max_wait <= max_wait)%nat
    /\ rounds_run NeverExits 0 max_wait = max_wait
    /\ trace w'
       = trace (fresh_world sample_clock)
         ++ EvPopen 2 :: wait_rounds (rounds_run NeverExits 0 max_wait)
         ++ EvPoll :: match r with None => [EvSleep 5] | Some _ => [] end.
Proof.
  apply (attempt_wait_is_bounded sample_clock (fun _ => Launched NeverExits) 3 2 NeverExits).
  reflexivity.
Defined.

(* ===================================================================== *)
(** ** Relations kept by every computation of the script *)
(* ===================================================================== *)

#[global] Instance extends_preorder : PreOrder extends.
Proof.
  split.
  - intros w. split; done.
  - intros w1 w2 w3 [He Hw Hr Hs Hst Hl Ht Hti] [He' Hw' Hr' Hs' Hst' Hl' Ht' Hti'].
    split; try (etrans; eassumption).
    intros c. etrans; [apply Hr | apply Hr'].
Qed.

#[global] Instance no_installation_preorder : PreOrder no_installation.
Proof.
  split.
  - intros w. split; done.
  - intros w1 w2 w3 [] []. split; congruence.
Qed.

Section Keeps.

Context (R : World -> World -> Prop) `{!PreOrder R}.
Context {A B : Type}.

Lemma keeps_of_wp (m : M A) :
  (forall w, wp m w (fun _ w' => R w w')) -> keeps R m.
Proof. intros H w. apply H. Qed.

Lemma keeps_ret (a : A) : keeps R (ret a).
Proof. intros w. reflexivity. Qed.

Lemma keeps_raise (e : exn) : keeps R (raise (A := A) e).
Proof. intros w. reflexivity. Qed.

Lemma keeps_outcome (r : result A) : keeps R (outcome r).
Proof. destruct r; [apply keeps_ret | apply keeps_raise]. Qed.

Lemma keeps_bind (m : M A) (k : A -> M B) :
  keeps R m -> (forall a, keeps R (k a)) -> keeps R (bind m k).
Proof.
  intros Hm Hk w. unfold bind. specialize (Hm w).
  destruct (m w) as [[a|e] w1]; cbn in *; [|done].
  etrans; [exact Hm | apply Hk].
Qed.

Lemma keeps_try_except (m : M A) (h : exn -> M A) :
  keeps R m -> (forall e, keeps R (h e)) -> keeps R (try_except m h).
Proof.
  intros Hm Hh w. unfold try_except. specialize (Hm w).
  destruct (m w) as [[a|e] w1]; cbn in *; [done|].
  etrans; [exact Hm | apply Hh].
Qed.

Lemma keeps_attempt_to (m : M A) : keeps R m -> keeps R (attempt_to m).
Proof.
  intros Hm w. unfold attempt_to. specialize (Hm w). by destruct (m w).
Qed.

Lemma keeps_wp (m : M A) w (Q : result A -> World -> Prop) :
  keeps R m -> (forall r w', R w w' -> Q r w') -> wp m w Q.
Proof. intros Hm HQ. apply HQ, Hm. Qed.

End Keeps.

Section Returns.

Context {A B : Type}.

Lemma returns_ret (a : A) : returns (ret a).
Proof. intros w. by exists a. Qed.

Lemma returns_bind (m : M A) (k : A -> M B) :
  returns m -> (forall a, returns (k a)) -> returns (bind m k).
Proof.
  intros Hm Hk w. unfold bind. destruct (Hm w) as [a Ha].
  destruct (m w) as [r w1]. cbn in Ha. subst r. apply Hk.
Qed.

Lemma returns_try_except (m : M A) (h : exn -> M A) :
  (forall e, returns (h e)) -> returns (try_except m h).
Proof.
  intros Hh w. unfold try_except. destruct (m w) as [[a|e] w1]; [by exists a | apply Hh].
Qed.

Lemma returns_attempt_to (m : M A) : returns (attempt_to m).
Proof. intros w. unfold attempt_to. destruct (m w) as [r w1]. by exists r. Qed.

Lemma returns_of_wp (m : M A) :
  (forall w, wp m w (fun r _ => exists a, r = Ok a)) -> returns m.
Proof. intros H w. apply H. Qed.

(** A computation that returns and keeps [R] satisfies every
    postcondition that follows from [R]. *)
Lemma returns_keeps_wp R (m : M A) w (Q : result A -> World -> Prop) :
  returns m -> keeps R m -> (forall a w', R w w' -> Q (Ok a) w') -> wp m w Q.
Proof.
  intros Hr Hk HQ. unfold wp. destruct (Hr w) as [a Ha]. rewrite Ha. apply HQ, Hk.
Qed.

End Returns.

(** The primitives extend the world. *)

Section KeepsExtends.

Variable clock : nat -> DT.datetime.

Ltac extends_done :=
  split; world_simpl; try done; try (by apply prefix_app_r); try lia.

Lemma extends_emit ev : keeps extends (emit ev).
Proof. apply keeps_of_wp. intros w. wp_go. extends_done. Qed.

Lemma extends_sleep n : keeps extends (sleep n).
Proof. apply keeps_of_wp. intros w. wp_go. extends_done. Qed.

Lemma extends_safe_log message level : keeps extends (safe_log clock message level).
Proof. apply keeps_of_wp. intros w. wp_go. extends_done. Qed.

Lemma extends_add_step name status details attempt :
  keeps extends (add_step clock name status details attempt).
Proof. apply keeps_of_wp. intros w. wp_go. extends_done. Qed.

Lemma extends_add_error category error severity suggestion :
  keeps extends (add_error clock category error severity suggestion).
Proof. apply keeps_of_wp. intros w. wp_go. extends_done. Qed.

Lemma extends_add_warning category warning suggestion :
  keeps extends (add_warning clock category warning suggestion).
Proof. apply keeps_of_wp. intros w. wp_go. extends_done. Qed.

Lemma extends_increment_retry category : keeps extends (increment_retry category).
Proof.
  apply keeps_of_wp. intros w. wp_go. extends_done. intros c.
  destruct (decide (category = c)) as [->|Hne].
  - rewrite get_retry_count_increment. lia.
  - by rewrite get_retry_count_increment_ne.
Qed.

Lemma extends_now : keeps extends (now clock).
Proof. apply keeps_of_wp. intros w. wp_go. extends_done. Qed.

Lemma extends_get_tracker : keeps extends get_tracker.
Proof. apply keeps_of_wp. intros w. by wp_go. Qed.

Lemma extends_get_audit : keeps extends get_audit.
Proof. apply keeps_of_wp. intros w. by wp_go. Qed.

Lemma extends_poll proc : keeps extends (poll proc).
Proof. apply keeps_of_wp. intros w. apply wp_poll. extends_done. Qed.

Lemma extends_popen installer attempt : keeps extends (popen installer attempt).
Proof.
  apply keeps_of_wp. intros w. apply wp_popen. cbn zeta.
  destruct (installer attempt); extends_done.
Qed.


End KeepsExtends.

(** The primitives other than the launch and the changes of the audit's
    verdict and end time have no part in an installation. *)

Section KeepsNoInstallation.

Variable clock : nat -> DT.datetime.

Ltac quiet_done := split; world_simpl; try done; by rewrite launches_app, app_nil_r.

Lemma quiet_emit ev :
  (forall attempt, ev <> EvPopen attempt) -> keeps no_installation (emit ev).
Proof.
  intros Hev. apply keeps_of_wp. intros w. wp_go. split; world_simpl; try done.
  rewrite launches_app. destruct ev; cbn; rewrite ?app_nil_r; try done. by destruct (Hev attempt).
Qed.

Lemma quiet_sleep n : keeps no_installation (sleep n).
Proof. apply keeps_of_wp. intros w. wp_go. quiet_done. Qed.

Lemma quiet_now : keeps no_installation (now clock).
Proof. apply keeps_of_wp. intros w. by apply wp_now. Qed.

Lemma quiet_safe_log message level : keeps no_installation (safe_log clock message level).
Proof. apply keeps_of_wp. intros w. by wp_go. Qed.

Lemma quiet_add_step name status details attempt :
  keeps no_installation (add_step clock name status details attempt).
Proof. apply keeps_of_wp. intros w. by wp_go. Qed.

Lemma quiet_add_error category error severity suggestion :
  keeps no_installation (add_error clock category error severity suggestion).
Proof. apply keeps_of_wp. intros w. by wp_go. Qed.

Lemma quiet_add_warning category warning suggestion :
  keeps no_installation (add_warning clock category warning suggestion).
Proof. apply keeps_of_wp. intros w. by wp_go. Qed.

End KeepsNoInstallation.

Create HintDb keeps discriminated.

#[global] Hint Resolve extends_emit extends_sleep extends_safe_log extends_add_step
  extends_add_error extends_add_warning extends_increment_retry extends_now
  extends_get_tracker extends_get_audit extends_poll extends_popen
  quiet_sleep quiet_now quiet_safe_log quiet_add_step quiet_add_error quiet_add_warning : keeps.

#[global] Hint Extern 1 (keeps no_installation (emit _)) =>
  (apply quiet_emit; intros ?; discriminate) : keeps.

(** Stepping through a computation for a relation it keeps. *)
Ltac keeps_step :=
  lazymatch goal with
  | |- keeps ?R (bind _ _) => apply (keeps_bind R); [|intros ?]
  | |- keeps ?R (ret _) => apply (keeps_ret R)
  | |- keeps ?R (raise _) => apply (keeps_raise R)
  | |- keeps ?R (outcome _) => apply (keeps_outcome R)
  | |- keeps ?R (try_except _ _) => apply (keeps_try_except R); [|intros ?]
  | |- keeps ?R (attempt_to _) => apply (keeps_attempt_to R)
  | |- keeps _ (match ?x with _ => _ end) => destruct x
  | |- keeps _ _ => solve [eauto with keeps]
  end.

Ltac keeps_go := repeat keeps_step.

Ltac returns_step :=
  lazymatch goal with
  | |- returns (bind _ _) => apply returns_bind; [|intros ?]
  | |- returns (ret _) => apply returns_ret
  | |- returns (try_except _ _) => apply returns_try_except; intros ?
  | |- returns (attempt_to _) => apply returns_attempt_to
  | |- returns (match ?x with _ => _ end) => destruct x
  | |- returns _ => solve [eauto with keeps]
  end.

Ltac returns_go := repeat returns_step.

Section PrimitivesReturn.

Variable clock : nat -> DT.datetime.

Lemma returns_emit ev : returns (emit ev).
Proof. apply returns_of_wp. intros w. wp_go. eauto. Qed.

Lemma returns_sleep n : returns (sleep n).
Proof. apply returns_of_wp. intros w. wp_go. eauto. Qed.

Lemma returns_safe_log message level : returns (safe_log clock message level).
Proof. apply returns_of_wp. intros w. wp_go. eauto. Qed.

Lemma returns_add_step name status details attempt :
  returns (add_step clock name status details attempt).
Proof. apply returns_of_wp. intros w. wp_go. eauto. Qed.

Lemma returns_add_error category error severity suggestion :
  returns (add_error clock category error severity suggestion).
Proof. apply returns_of_wp. intros w. wp_go. eauto. Qed.

Lemma returns_add_warning category warning suggestion :
  returns (add_warning clock category warning suggestion).
Proof. apply returns_of_wp. intros w. wp_go. eauto. Qed.

Lemma returns_increment_retry category : returns (increment_retry category).
Proof. apply returns_of_wp. intros w. wp_go. eauto. Qed.

Lemma returns_modify_audit f : returns (modify_audit f).
Proof. apply returns_of_wp. intros w. wp_go. eauto. Qed.

Lemma returns_now : returns (now clock).
Proof. apply returns_of_wp. intros w. wp_go. eauto. Qed.

Lemma returns_get_tracker : returns get_tracker.
Proof. apply returns_of_wp. intros w. wp_go. eauto. Qed.

Lemma returns_get_audit : returns get_audit.
Proof. apply returns_of_wp. intros w. wp_go. eauto. Qed.

Lemma returns_poll proc : returns (poll proc).
Proof. apply returns_of_wp. intros w. apply wp_poll. eauto. Qed.

End PrimitivesReturn.

#[global] Hint Resolve returns_emit returns_sleep returns_safe_log returns_add_step
  returns_add_error returns_add_warning returns_increment_retry returns_modify_audit
  returns_now returns_get_tracker returns_get_audit returns_poll : keeps.

(* ===================================================================== *)
(** ** What every function of the script keeps *)
(* ===================================================================== *)

Section FunctionsKeep.

Variable cfg : Config.
Variable clock : nat -> DT.datetime.













End FunctionsKeep.

#[global] Instance no_launch_preorder : PreOrder no_launch.
Proof.
  unfold no_launch. split; [done|]. intros w1 w2 w3 H1 H2. congruence.
Qed.

Lemma keeps_weaken {A} (R R' : World -> World -> Prop) (m : M A) :
  (forall w w', R w w' -> R' w w') -> keeps R m -> keeps R' m.
Proof. intros HR Hm w. apply HR, Hm. Qed.

Lemma no_installation_no_launch w w' : no_installation w w' -> no_launch w w'.
Proof. by intros []. Qed.

Section FunctionsQuiet.

Variable cfg : Config.
Variable clock : nat -> DT.datetime.

Lemma quiet_verify_installer_checked bat :
  keeps no_installation (verify_installer_checked cfg clock bat).
Proof. unfold verify_installer_checked. keeps_go. Qed.

Lemma quiet_verify_installer bat :
  keeps no_installation (verify_installer_comprehensive cfg clock bat).
Proof.
  unfold verify_installer_comprehensive. pose proof quiet_verify_installer_checked. keeps_go.
Qed.

Lemma quiet_rglob_size nodes : forall total, keeps no_installation (rglob_size cfg nodes total).
Proof.
  induction nodes as [|n rest IH]; intros total; cbn [rglob_size]; keeps_go; apply IH.
Qed.

Lemma quiet_classify_files nodes paths : forall v,
  keeps no_installation (classify_files cfg clock nodes paths v).
Proof.
  induction paths as [|path rest IH]; intros v; cbn [classify_files]; cbn zeta;
    keeps_go; apply IH.
Qed.

Lemma quiet_verify_installation tree :
  keeps no_installation (verify_installation_comprehensive cfg clock tree).
Proof.
  unfold verify_installation_comprehensive, analyze_results.
  pose proof quiet_rglob_size. pose proof quiet_classify_files. keeps_go.
Qed.

Lemma quiet_run_system_diagnostics env :
  keeps no_installation (run_system_diagnostics cfg clock env).
Proof. unfold run_system_diagnostics. keeps_go. Qed.

Lemma quiet_create_installation_folder env :
  keeps no_installation (create_installation_folder cfg clock env).
Proof. unfold create_installation_folder. keeps_go. Qed.

Lemma no_launch_generate_report written :
  keeps no_launch (generate_comprehensive_report cfg clock written).
Proof.
  intros w. destruct (generate_comprehensive_report_run cfg clock written w)
    as (w' & -> & _ & _ & _ & _ & _ & Htr).
  unfold no_launch. cbn [snd]. by rewrite Htr, launches_app, app_nil_r.
Qed.

Lemma returns_verify_installer_checked bat :
  returns (verify_installer_checked cfg clock bat).
Proof. unfold verify_installer_checked. returns_go. Qed.

Lemma returns_run_system_diagnostics env : returns (run_system_diagnostics cfg clock env).
Proof. unfold run_system_diagnostics. returns_go. Qed.

Lemma returns_create_installation_folder env :
  returns (create_installation_folder cfg clock env).
Proof. unfold create_installation_folder. returns_go. Qed.

Lemma returns_generate_report written :
  returns (generate_comprehensive_report cfg clock written).
Proof. unfold generate_comprehensive_report. returns_go. Qed.

(** The validator's answer, read off the installer file. *)
Lemma verify_installer_answer bat w :
  (verify_installer_comprehensive cfg clock bat w).1 = Ok (installer_readable bat).
Proof.
  destruct (wp_run (verify_installer_comprehensive cfg clock bat) w
              (fun r _ => r = Ok (installer_readable bat))) as (r & w' & Hrun & ->);
    [|by rewrite Hrun].
  unfold verify_installer_comprehensive, verify_installer_checked. wp_go.
  destruct bat as [[stat read]|]; cbn [bat_stat bat_read_text installer_readable].
  - wp_go. destruct stat as [size|e].
    + wp_go. destruct (size <? 100)%nat; wp_go.
      all: destruct read as [content|[msg|msg]]; wp_go; try done.
      all: destruct (length _ <? 2)%nat; by wp_go.
    + by wp_go.
  - by wp_go.
Qed.

End FunctionsQuiet.

(* ===================================================================== *)
(** ** main *)
(* ===================================================================== *)

Section Main.

Variable cfg : Config.
Variable clock : nat -> DT.datetime.

Lemma wp_run_system_diagnostics env w (Q : result unit -> World -> Prop) :
  (forall w', no_installation w w' -> Q (Ok tt) w') ->
  wp (run_system_diagnostics cfg clock env) w Q.
Proof.
  intros HQ. apply (returns_keeps_wp no_installation).
  - apply returns_run_system_diagnostics.
  - apply quiet_run_system_diagnostics.
  - intros [] w' Hw. by apply HQ.
Qed.

Lemma wp_create_installation_folder env w (Q : result unit -> World -> Prop) :
  (forall w', no_installation w w' -> Q (Ok tt) w') ->
  wp (create_installation_folder cfg clock env) w Q.
Proof.
  intros HQ. apply (returns_keeps_wp no_installation).
  - apply returns_create_installation_folder.
  - apply quiet_create_installation_folder.
  - intros [] w' Hw. by apply HQ.
Qed.

Lemma wp_verify_installer bat w (Q : result bool -> World -> Prop) :
  (forall w', no_installation w w' -> Q (Ok (installer_readable bat)) w') ->
  wp (verify_installer_comprehensive cfg clock bat) w Q.
Proof.
  intros HQ. unfold wp. rewrite verify_installer_answer. apply HQ, quiet_verify_installer.
Qed.

Lemma no_installation_log w line :
  no_installation w {| error_tracker := error_tracker w; audit := audit w;
                       log := log w ++ [line]; trace := trace w; ticks := S (ticks w) |}.
Proof. by split. Qed.

(** The verifier's result on a directory whose entries can all be
    inspected. *)
Lemma verify_installation_value nodes w :
  Forall stat_succeeds nodes ->
  exists v w',
    verify_installation_comprehensive cfg clock (Some nodes) w = (Ok v, w')
    /\ files_found v = found_of nodes (EXPECTED_FILES cfg)
    /\ files_missing v = missing_of nodes (EXPECTED_FILES cfg).
Proof.
  intros Hall.
  destruct (wp_run (verify_installation_comprehensive cfg clock (Some nodes)) w
              (fun r _ => exists v, r = Ok v
                                    /\ files_found v = found_of nodes (EXPECTED_FILES cfg)
                                    /\ files_missing v = missing_of nodes (EXPECTED_FILES cfg)))
    as (r & w' & Hrun & v & -> & Hv); [|by exists v, w'].
  unfold verify_installation_comprehensive. wp_go.
  apply wp_attempt_to, wp_rglob_size; [done|]. intros total w1 _ _ _.
  wp_go. apply wp_classify_files; [done|]. intros w2 _ _ _ _.
  unfold analyze_results. wp_go.
  destruct (0 <? _)%nat; wp_go; (destruct (_ =? 0)%nat; wp_go); eauto.
Qed.

(** Steps 4 to 6 run to their end: at most three launches, in order,
    then the verification, the verdict and the report. *)
Lemma steps_4_to_6_run installer tree written w :
  exists (b : bool) v report w2 w3 w' (made : nat),
    main_install_verify_report cfg clock installer tree written w = (Ok (b, v, report), w')
    /\ verify_installation_comprehensive cfg clock tree w2 = (Ok v, w3)
    /\ (made <= 3)%nat
    /\ launches (trace w') = launches (trace w) ++ range 1 (1 + Z.of_nat made)
    /\ (b = true <-> exists k, 1 <= k <= 3 /\ attempt_succeeds (installer k))
    /\ success (audit w') = b && (length (files_missing v) =? 0)%nat
    /\ is_Some (end_time (audit w')).
Proof.
  destruct (wp_run (safe_log clock "Starting enhanced installation with retry support..."
                      "INFO") w (fun r w' => r = Ok tt /\ no_launch w w'))
    as (r1 & w1 & H1 & -> & Hl1); [by apply wp_safe_log|].
  destruct (run_installer_general clock installer 3 w1)
    as (b & w2 & made & H2 & Hmade & Hl2 & _ & _ & _ & Htrue & Hfalse).
  destruct (verify_installation_returns cfg clock tree w2) as (v & w3 & H3).
  pose proof (quiet_verify_installation cfg clock tree w2) as [Hl3 _ _].
  rewrite H3 in Hl3. cbn [snd] in Hl3.
  set (w4 := {| error_tracker := error_tracker w3;
                audit := {| start_time := start_time (audit w3); steps := steps (audit w3);
                            end_time := end_time (audit w3);
                            success := b && (length (files_missing v) =? 0)%nat |};
                log := log w3; trace := trace w3; ticks := ticks w3 |}).
  destruct (generate_comprehensive_report_run cfg clock written w4)
    as (w5 & H5 & _ & _ & _ & Hsu & Hend & Htr5).
  destruct (wp_run (safe_log clock "=== ENHANCED MONITORING COMPLETED ===" "INFO") w5
              (fun r w' => r = Ok tt /\ audit w' = audit w5 /\ trace w' = trace w5))
    as (r6 & w6 & H6 & -> & Ha6 & Htr6); [by apply wp_safe_log|].
  exists b, v, (report_text cfg (error_tracker w4) (audit w4) (clock (ticks w4))),
    w2, w3, w6, made.
  split.
  { unfold main_install_verify_report, bind. rewrite H1, H2, H3, modify_audit_run.
    fold w4. by rewrite H5, H6. }
  split; [done|]. split; [lia|]. split.
  { rewrite Htr6, Htr5, launches_app, app_nil_r. subst w4. cbn [trace].
    unfold no_launch in Hl1. by rewrite Hl3, Hl2, Hl1. }
  split.
  { split.
    - intros Hb. destruct (Htrue Hb) as (Hpos & Hs & _). exists (Z.of_nat made).
      split; [lia | done].
    - intros (k & Hk & Hs). destruct b; [done|]. exfalso.
      by apply (attempt_fails_not_succeeds (installer k)); [apply Hfalse|]. }
  split; [by rewrite Ha6, Hsu|]. rewrite Ha6, Hend. by eexists.
Qed.

Lemma wp_generate_report written w (Q : result string -> World -> Prop) :
  (forall w',
     error_tracker w' = error_tracker w -> success (audit w') = success (audit w) ->
     is_Some (end_time (audit w')) -> no_launch w w' ->
     Q (Ok (report_text cfg (error_tracker w) (audit w) (clock (ticks w)))) w') ->
  wp (generate_comprehensive_report cfg clock written) w Q.
Proof.
  intros HQ.
  destruct (generate_comprehensive_report_run cfg clock written w)
    as (w' & Hrun & Ht & _ & _ & Hsu & Hend & Htr).
  apply (wp_of_run _ _ _ _ _ Hrun), HQ; [done|done| |].
  - rewrite Hend. by eexists.
  - unfold no_launch. by rewrite Htr, launches_app, app_nil_r.
Qed.

Lemma wp_outcome {A} (r : result A) w (Q : result A -> World -> Prop) :
  Q r w -> wp (outcome r) w Q.
Proof. by destruct r. Qed.

(** X7: The run stops at an installer file that is missing or cannot be read:
    once the prompt returns, [main] returns, no process having been
    launched, no report built and the verdict left as it was. *)
Theorem main_stops_at_unreadable_installer env (line : string) (w : World) :
  installer_readable (bat_file env) = false ->
  exit_prompt env = Ok line ->
  exists w', main cfg clock env w = (Ok tt, w') /\ no_installation w w'.
Proof.
  intros Hbat Hprompt.
  destruct (wp_run (main cfg clock env) w (fun r w' => r = Ok tt /\ no_installation w w'))
    as (r & w' & Hrun & -> & Hw); [|eauto].
  unfold main. apply wp_bind, wp_safe_log. intros line0.
  apply wp_try_except, wp_bind, wp_run_system_diagnostics. intros w1 H1.
  apply wp_bind, wp_verify_installer. intros w2 H2. rewrite Hbat. cbn [negb].
  apply wp_bind, wp_outcome. rewrite Hprompt. apply wp_ret.
  split; [done|]. etrans; [apply no_installation_log|]. by etrans.
Qed.


(** X9: When the prompt for confirmation raises, the handler of [main]
    records a CRITICAL "Main Process" error with the text of the
    exception as the last error and builds the report; no process is
    launched and the verdict stays as it was.  [main] then returns, unless
    the prompt of the handler raises in turn: that exception leaves
    [main]. *)
Theorem main_records_failing_prompt env (e : exn) (w : World) :
  installer_readable (bat_file env) = true ->
  choice_prompt env = Raise e ->
  exists w' record,
    main cfg clock env w
    = (match handler_prompt env with Ok _ => Ok tt | Raise e' => Raise e' end, w')
    /\ no_launch w w'
    /\ success (audit w') = success (audit w)
    /\ is_Some (end_time (audit w'))
    /\ last (errors (error_tracker w')) = Some record
    /\ e_category record = "Main Process"
    /\ e_error record = exn_str e
    /\ e_severity record = CRITICAL.
Proof.
  intros Hbat Hprompt.
  destruct (wp_run (main cfg clock env) w
              (fun r w' =>
                 r = match handler_prompt env with Ok _ => Ok tt | Raise e' => Raise e' end
                 /\ no_launch w w'
                 /\ success (audit w') = success (audit w)
                 /\ is_Some (end_time (audit w'))
                 /\ exists record,
                      last (errors (error_tracker w')) = Some record
                      /\ e_category record = "Main Process"
                      /\ e_error record = exn_str e
                      /\ e_severity record = CRITICAL))
    as (r & w' & Hrun & -> & Hl & Hsu & Hend & record & Hrec); [|by exists w', record].
  unfold main. apply wp_bind, wp_safe_log. intros line0.
  apply wp_try_except, wp_bind, wp_run_system_diagnostics. intros w1 [Hl1 _ Hs1].
  apply wp_bind, wp_verify_installer. intros w2 [Hl2 _ Hs2]. rewrite Hbat. cbn [negb].
  apply wp_bind, wp_create_installation_folder. intros w3 [Hl3 _ Hs3].
  apply wp_bind, wp_outcome. rewrite Hprompt.
  wp_go. apply wp_generate_report. world_simpl. intros w4 Ht4 Hs4 Hend4 Hl4.
  unfold no_launch in Hl4. cbn [trace] in Hl4.
  apply wp_bind, wp_outcome.
  destruct (handler_prompt env) as [line1|e']; [apply wp_ret|].
  all: split; [done|]; split; [unfold no_launch; cbn in *; congruence|].
  all: split; [cbn in *; congruence|]; split; [done|].
  all: eexists; rewrite Ht4; cbn [errors]; by rewrite last_snoc.
Qed.

Lemma wp_main_handler env e w (Q : result unit -> World -> Prop) :
  (forall w',
     no_launch w w' -> success (audit w') = success (audit w) ->
     is_Some (end_time (audit w')) ->
     Q (match handler_prompt env with Ok _ => Ok tt | Raise e' => Raise e' end) w') ->
  wp (safe_log clock ("CRITICAL FAILURE: " +:+ exn_str e) "INFO" ;;;
      add_error clock "Main Process" (exn_str e) CRITICAL "" ;;;
      generate_comprehensive_report cfg clock (handler_report_written env) ;;;
      outcome (handler_prompt env) ;;;
      ret tt) w Q.
Proof.
  intros HQ. wp_go. apply wp_generate_report. world_simpl. intros w4 Ht4 Hs4 Hend4 Hl4.
  unfold no_launch in Hl4. cbn [trace] in Hl4.
  apply wp_bind, wp_outcome.
  assert (Q (match handler_prompt env with Ok _ => Ok tt | Raise e' => Raise e' end) w4)
    as HQ4 by (apply HQ; [unfold no_launch; cbn in *; congruence | cbn in *; congruence | done]).
  destruct (handler_prompt env); [by apply wp_ret | done].
Qed.

(** The shape of every run of [main]. *)
Lemma main_run_shape env w :
  exists made : nat,
    (made <= 3)%nat
    /\ launches (trace (main cfg clock env w).2)
       = launches (trace w) ++ range 1 (1 + Z.of_nat made)
    /\ ((main cfg clock env w).1 = Ok tt
        \/ exists e, handler_prompt env = Raise e /\ (main cfg clock env w).1 = Raise e).
Proof.
  set (P := fun (w0 : World) (r : result unit) (w' : World) =>
              exists made : nat,
                (made <= 3)%nat
                /\ launches (trace w') = launches (trace w0) ++ range 1 (1 + Z.of_nat made)
                /\ (r = Ok tt \/ exists e, handler_prompt env = Raise e /\ r = Raise e)).
  assert (forall w0 w1 r, no_launch w0 w1 ->
            (r = Ok tt \/ exists e, handler_prompt env = Raise e /\ r = Raise e) ->
            P w0 r w1) as Hquiet.
  { intros w0 w1 r Hl Hr. exists 0%nat. split; [lia|]. split; [|done].
    rewrite range_nil by lia. by rewrite app_nil_r. }
  assert (forall w0 w1 e, no_launch w0 w1 ->
            wp (safe_log clock ("CRITICAL FAILURE: " +:+ exn_str e) "INFO" ;;;
                add_error clock "Main Process" (exn_str e) CRITICAL "" ;;;
                generate_comprehensive_report cfg clock (handler_report_written env) ;;;
                outcome (handler_prompt env) ;;;
                ret tt) w1 (P w0)) as Hhandler.
  { intros w0 w1 e Hl. apply wp_main_handler. intros w2 Hl2 _ _.
    apply Hquiet; [by etrans|]. destruct (handler_prompt env); eauto. }
  change (P w (main cfg clock env w).1 (main cfg clock env w).2).
  change (wp (main cfg clock env) w (P w)).
  unfold main. apply wp_bind, wp_safe_log. intros line0.
  set (w0 := {| error_tracker := error_tracker w; audit := audit w;
                log := log w ++ [line0]; trace := trace w; ticks := S (ticks w) |}).
  assert (no_launch w w0) as Hl0 by done.
  apply wp_try_except, wp_bind, wp_run_system_diagnostics. intros w1 H1.
  apply no_installation_no_launch in H1.
  apply wp_bind, wp_verify_installer. intros w2 H2.
  apply no_installation_no_launch in H2.
  assert (no_launch w w2) as Hl2 by (etrans; [exact Hl0|]; by etrans).
  destruct (installer_readable (bat_file env)); cbn [negb].
  - apply wp_bind, wp_create_installation_folder. intros w3 H3.
    apply no_installation_no_launch in H3.
    assert (no_launch w w3) as Hl3 by by etrans.
    apply wp_bind, wp_outcome.
    destruct (choice_prompt env) as [answer|e]; [|by apply Hhandler].
    destruct (accepts answer); cbn [negb].
    + destruct (steps_4_to_6_run (installer_launches env) (install_tree env)
                  (report_written env) w3)
        as (b & v & report & _ & _ & w4 & made & Hrun & _ & Hmade & Hl4 & _).
      apply wp_bind, (wp_of_run _ _ _ _ _ Hrun).
      apply wp_bind, wp_outcome.
      destruct (view_prompt env) as [line|e].
      * apply wp_ret. exists made. split; [done|]. split; [|by left].
        rewrite Hl4. unfold no_launch in Hl3. by rewrite Hl3.
      * apply wp_main_handler. intros w5 Hl5 _ _. exists made. split; [done|].
        split; [|destruct (handler_prompt env); eauto].
        unfold no_launch in Hl5, Hl3. by rewrite Hl5, Hl4, Hl3.
    + wp_go. apply Hquiet; [|by left]. etrans; [exact Hl3|]. done.
  - apply wp_bind, wp_outcome.
    destruct (exit_prompt env) as [line|e]; [|by apply Hhandler].
    apply wp_ret. apply Hquiet; [done | by left].
Qed.

(** X10: Once the user has accepted, the verdict [audit["success"]] that
    [main] leaves is true exactly when one of the three attempts exits
    with code 0 within the wait and no file of the manifest is missing
    from the directory, whatever the diagnostics, the creation of the
    folder and the later prompts do; [end_time] is set.  The entries of
    the directory are such that [stat()] returns for each. *)
Theorem main_verdict_of_accepted_run env (answer : string) nodes (w : World) :
  installer_readable (bat_file env) = true ->
  choice_prompt env = Ok answer ->
  accepts answer = true ->
  install_tree env = Some nodes ->
  Forall stat_succeeds nodes ->
  exists w',
    (main cfg clock env w).2 = w'
    /\ (success (audit w') = true
        <-> (exists k, 1 <= k <= 3 /\ attempt_succeeds (installer_launches env k))
            /\ missing_of nodes (EXPECTED_FILES cfg) = [])
    /\ is_Some (end_time (audit w')).
Proof.
  intros Hbat Hprompt Hyes Htree Hnodes.
  set (P := fun (r : result unit) (w' : World) =>
              (success (audit w') = true
               <-> (exists k, 1 <= k <= 3 /\ attempt_succeeds (installer_launches env k))
                   /\ missing_of nodes (EXPECTED_FILES cfg) = [])
              /\ is_Some (end_time (audit w'))).
  exists (main cfg clock env w).2. split; [done|].
  change (wp (main cfg clock env) w P).
  unfold main. apply wp_bind, wp_safe_log. intros line0.
  apply wp_try_except, wp_bind, wp_run_system_diagnostics. intros w1 _.
  apply wp_bind, wp_verify_installer. intros w2 _. rewrite Hbat. cbn [negb].
  apply wp_bind, wp_create_installation_folder. intros w3 _.
  apply wp_bind, wp_outcome. rewrite Hprompt, Hyes. cbn [negb].
  destruct (steps_4_to_6_run (installer_launches env) (install_tree env)
              (report_written env) w3)
    as (b & v & report & wa & wb & w4 & made & Hrun & Hv & _ & _ & Hb & Hsu & Hend).
  rewrite Htree in Hv.
  destruct (verify_installation_value nodes wa Hnodes) as (v' & wb' & Hv' & _ & Hmissing).
  rewrite Hv in Hv'. injection Hv' as <- <-.
  assert (P (Ok tt) w4) as HP.
  { split; [|done]. rewrite Hsu, andb_true_iff, Hb, Nat.eqb_eq, Hmissing, length_zero_iff_nil.
    done. }
  apply wp_bind, (wp_of_run _ _ _ _ _ Hrun).
  apply wp_bind, wp_outcome.
  destruct (view_prompt env) as [line|e]; [by apply wp_ret|].
  apply wp_main_handler. intros w5 _ Hsu5 Hend5. destruct HP as [HP _].
  split; [by rewrite Hsu5 | done].
Qed.

(** X11: Every run of [main] launches at most three processes, for the
    attempts 1, 2, ... in order, whatever its surroundings do. *)
Theorem main_launches_at_most_three env (w : World) :
  exists made : nat,
    (made <= 3)%nat
    /\ launches (trace (main cfg clock env w).2)
       = launches (trace w) ++ range 1 (1 + Z.of_nat made).
Proof. destruct (main_run_shape env w) as (made & Hmade & Hl & _). eauto. Qed.


End Main.

Lemma main_stops_at_unreadable_installer_witness :
  exists w',
    main sample_config sample_clock (sample_env None (Ok "y")) (fresh_world sample_clock)
    = (Ok tt, w')
    /\ no_installation (fresh_world sample_clock) w'.
Proof.
  apply (main_stops_at_unreadable_installer sample_config sample_clock
           (sample_env None (Ok "y")) "" (fresh_world sample_clock)); reflexivity.
Defined.


Lemma main_records_failing_prompt_witness :
  exists w' record,
    main sample_config sample_clock
      (sample_env (Some sample_bat) (Raise (OtherException "EOF when reading a line")))
      (fresh_world sample_clock)
    = (Ok tt, w')
    /\ no_launch (fresh_world sample_clock) w'
    /\ success (audit w') = success (audit (fresh_world sample_clock))
    /\ is_Some (end_time (audit w'))
    /\ last (errors (error_tracker w')) = Some record
    /\ e_category record = "Main Process"
    /\ e_error record = "EOF when reading a line"
    /\ e_severity record = CRITICAL.
Proof.
  apply (main_records_failing_prompt sample_config sample_clock
           (sample_env (Some sample_bat) (Raise (OtherException "EOF when reading a line")))
           (OtherException "EOF when reading a line") (fresh_world sample_clock));
    reflexivity.
Defined.

Lemma main_verdict_of_accepted_run_witness :
  exists w',
    (main sample_config sample_clock (sample_env (Some sample_bat) (Ok " Yes"))
       (fresh_world sample_clock)).2 = w'
    /\ (success (audit w') = true
        <-> (exists k, 1 <= k <= 3 /\ attempt_succeeds (Launched (Exits 2 0)))
            /\ missing_of sample_tree (EXPECTED_FILES sample_config) = [])
    /\ is_Some (end_time (audit w')).
Proof.
  apply (main_verdict_of_accepted_run sample_config sample_clock
           (sample_env (Some sample_bat) (Ok " Yes")) " Yes" sample_tree
           (fresh_world sample_clock)); try reflexivity.
  apply Forall_fmap, Forall_true. intros p. by exists 10%nat.
Defined.

(* ===================================================================== *)
(** ** The records the orchestration leaves *)
(* ===================================================================== *)

Section Records.

Variable cfg : Config.
Variable clock : nat -> DT.datetime.


(** X13: The diagnostics once the disk probe has returned: a disk more than 90%
    full adds a warning and a missing connection a HIGH error, yet neither
    fails the step, which ends SUCCESS when the diagnostics file is
    written and FAILED, with a LOW error, when writing it raises; the
    function returns in every case. *)
Theorem diagnostics_effects env disk (w : World) :
  disk_usage env = Ok disk ->
  exists w',
    run_system_diagnostics cfg clock env w = (Ok tt, w')
    /\ warning_view <$> warnings (error_tracker w')
       = (warning_view <$> warnings (error_tracker w))
         ++ (if QArith_base.Qle_bool (disk_percent disk) (QArith_base.Qmake 90 1) then []
             else [("Disk Space", "Low disk space: " +:+ disk_percent_text disk +:+ "% used",
                    "Free up space on your desktop drive")])
    /\ error_view <$> errors (error_tracker w')
       = (error_view <$> errors (error_tracker w))
         ++ (if internet_access env then []
             else [("Network", "No internet connection", HIGH,
                    "Check your internet connection and try again",
                    Tracker.get_retry_count "Network" (error_tracker w))])
         ++ match diagnostics_written env with
            | Ok _ => []
            | Raise e => [("Diagnostics", exn_str e, LOW, "",
                           Tracker.get_retry_count "Diagnostics" (error_tracker w))]
            end
    /\ step_view <$> steps (audit w')
       = (step_view <$> steps (audit w))
         ++ [("Run system diagnostics", RUNNING, "", 1);
             match diagnostics_written env with
             | Ok _ => ("Run system diagnostics", SUCCESS,
                        "Saved to " +:+ DIAGNOSTICS_FILE cfg, 1)
             | Raise e => ("Run system diagnostics", FAILED, exn_str e, 1)
             end]
    /\ trace w' = trace w ++ [EvWriteText (DIAGNOSTICS_FILE cfg)].
Proof.
  intros Hdisk.
  destruct (wp_run (run_system_diagnostics cfg clock env) w
              (fun r w' =>
                 r = Ok tt
                 /\ warning_view <$> warnings (error_tracker w')
                    = (warning_view <$> warnings (error_tracker w))
                      ++ (if QArith_base.Qle_bool (disk_percent disk) (QArith_base.Qmake 90 1)
                          then []
                          else [("Disk Space",
                                 "Low disk space: " +:+ disk_percent_text disk +:+ "% used",
                                 "Free up space on your desktop drive")])
                 /\ error_view <$> errors (error_tracker w')
                    = (error_view <$> errors (error_tracker w))
                      ++ (if internet_access env then []
                          else [("Network", "No internet connection", HIGH,
                                 "Check your internet connection and try again",
                                 Tracker.get_retry_count "Network" (error_tracker w))])
                      ++ match diagnostics_written env with
                         | Ok _ => []
                         | Raise e => [("Diagnostics", exn_str e, LOW, "",
                                        Tracker.get_retry_count "Diagnostics" (error_tracker w))]
                         end
                 /\ step_view <$> steps (audit w')
                    = (step_view <$> steps (audit w))
                      ++ [("Run system diagnostics", RUNNING, "", 1);
                          match diagnostics_written env with
                          | Ok _ => ("Run system diagnostics", SUCCESS,
                                     "Saved to " +:+ DIAGNOSTICS_FILE cfg, 1)
                          | Raise e => ("Run system diagnostics", FAILED, exn_str e, 1)
                          end]
                 /\ trace w' = trace w ++ [EvWriteText (DIAGNOSTICS_FILE cfg)]))
    as (r & w' & Hrun & -> & H); [|by exists w'].
  unfold run_system_diagnostics. rewrite Hdisk. wp_go.
  apply wp_try_except. apply wp_bind, wp_outcome.
  destruct (QArith_base.Qle_bool _ _), (internet_access env); cbn [negb]; wp_go.
  all: apply wp_outcome; destruct (diagnostics_written env) as [[]|e]; wp_go.
  all: repeat split; world_simpl;
    rewrite ?fmap_app, <- ?app_assoc, ?app_nil_r; try done.
Qed.

(** X14: The diagnostics when the disk probe raises: the function still
    returns, with a LOW "Diagnostics" error and a FAILED step recorded;
    the connection is not checked and no diagnostics file is written. *)
Theorem diagnostics_probe_failure env e (w : World) :
  disk_usage env = Raise e ->
  exists w',
    run_system_diagnostics cfg clock env w = (Ok tt, w')
    /\ warnings (error_tracker w') = warnings (error_tracker w)
    /\ error_view <$> errors (error_tracker w')
       = (error_view <$> errors (error_tracker w))
         ++ [("Diagnostics", exn_str e, LOW, "",
              Tracker.get_retry_count "Diagnostics" (error_tracker w))]
    /\ step_view <$> steps (audit w')
       = (step_view <$> steps (audit w))
         ++ [("Run system diagnostics", RUNNING, "", 1);
             ("Run system diagnostics", FAILED, exn_str e, 1)]
    /\ trace w' = trace w.
Proof.
  intros Hdisk.
  destruct (wp_run (run_system_diagnostics cfg clock env) w
              (fun r w' =>
                 r = Ok tt
                 /\ warnings (error_tracker w') = warnings (error_tracker w)
                 /\ error_view <$> errors (error_tracker w')
                    = (error_view <$> errors (error_tracker w))
                      ++ [("Diagnostics", exn_str e, LOW, "",
                           Tracker.get_retry_count "Diagnostics" (error_tracker w))]
                 /\ step_view <$> steps (audit w')
                    = (step_view <$> steps (audit w))
                      ++ [("Run system diagnostics", RUNNING, "", 1);
                          ("Run system diagnostics", FAILED, exn_str e, 1)]
                 /\ trace w' = trace w))
    as (r & w' & Hrun & -> & H); [|by exists w'].
  unfold run_system_diagnostics. rewrite Hdisk. wp_go.
  apply wp_try_except. apply wp_bind, wp_outcome. wp_go.
  repeat split; world_simpl; rewrite ?fmap_app, <- ?app_assoc; done.
Qed.

(** X15: Step 3 of [main] always comes to its end: a [mkdir] that raises is
    recorded as a HIGH "Folder Creation" error and a FAILED step, nothing
    more, and a folder found in place costs the two seconds of sleep that
    follow its removal. *)
Theorem folder_creation_effects env (w : World) :
  exists w',
    create_installation_folder cfg clock env w = (Ok tt, w')
    /\ error_view <$> errors (error_tracker w')
       = (error_view <$> errors (error_tracker w))
         ++ match mkdir_install_dir env with
            | Ok _ => []
            | Raise e => [("Folder Creation", exn_str e, HIGH, "",
                           Tracker.get_retry_count "Folder Creation" (error_tracker w))]
            end
    /\ step_view <$> steps (audit w')
       = (step_view <$> steps (audit w))
         ++ [("Create installation folder", RUNNING, "", 1);
             match mkdir_install_dir env with
             | Ok _ => ("Create installation folder", SUCCESS,
                        "Created: " +:+ INSTALL_DIR cfg, 1)
             | Raise e => ("Create installation folder", FAILED, exn_str e, 1)
             end]
    /\ trace w'
       = trace w ++ EvExists (INSTALL_DIR cfg)
                 :: (if install_dir_exists env then [EvSleep 2] else []).
Proof.
  destruct (wp_run (create_installation_folder cfg clock env) w
              (fun r w' =>
                 r = Ok tt
                 /\ error_view <$> errors (error_tracker w')
                    = (error_view <$> errors (error_tracker w))
                      ++ match mkdir_install_dir env with
                         | Ok _ => []
                         | Raise e => [("Folder Creation", exn_str e, HIGH, "",
                                        Tracker.get_retry_count "Folder Creation"
                                          (error_tracker w))]
                         end
                 /\ step_view <$> steps (audit w')
                    = (step_view <$> steps (audit w))
                      ++ [("Create installation folder", RUNNING, "", 1);
                          match mkdir_install_dir env with
                          | Ok _ => ("Create installation folder", SUCCESS,
                                     "Created: " +:+ INSTALL_DIR cfg, 1)
                          | Raise e => ("Create installation folder", FAILED, exn_str e, 1)
                          end]
                 /\ trace w'
                    = trace w ++ EvExists (INSTALL_DIR cfg)
                              :: (if install_dir_exists env then [EvSleep 2] else [])))
    as (r & w' & Hrun & -> & H); [|by exists w'].
  unfold create_installation_folder. wp_go.
  apply wp_try_except. wp_go.
  destruct (install_dir_exists env); wp_go.
  all: apply wp_outcome; destruct (mkdir_install_dir env) as [[]|e]; wp_go.
  all: repeat split; world_simpl;
    rewrite ?fmap_app, <- ?app_assoc, ?app_nil_r; try done.
Qed.

End Records.

Lemma diagnostics_effects_witness :
  exists w',
    run_system_diagnostics sample_config sample_clock sample_diagnostics_env
      (fresh_world sample_clock) = (Ok tt, w')
    /\ warning_view <$> warnings (error_tracker w')
       = (warning_view <$> warnings (error_tracker (fresh_world sample_clock)))
         ++ (if QArith_base.Qle_bool (QArith_base.Qmake 423 10) (QArith_base.Qmake 90 1)
             then []
             else [("Disk Space", "Low disk space: " +:+ "42.3" +:+ "% used",
                    "Free up space on your desktop drive")])
    /\ error_view <$> errors (error_tracker w')
       = (error_view <$> errors (error_tracker (fresh_world sample_clock)))
         ++ (if internet_access sample_diagnostics_env then []
             else [("Network", "No internet connection", HIGH,
                    "Check your internet connection and try again",
                    Tracker.get_retry_count "Network"
                      (error_tracker (fresh_world sample_clock)))])
         ++ match diagnostics_written sample_diagnostics_env with
            | Ok _ => []
            | Raise e => [("Diagnostics", exn_str e, LOW, "",
                           Tracker.get_retry_count "Diagnostics"
                             (error_tracker (fresh_world sample_clock)))]
            end
    /\ step_view <$> steps (audit w')
       = (step_view <$> steps (audit (fresh_world sample_clock)))
         ++ [("Run system diagnostics", RUNNING, "", 1);
             match diagnostics_written sample_diagnostics_env with
             | Ok _ => ("Run system diagnostics", SUCCESS,
                        "Saved to " +:+ DIAGNOSTICS_FILE sample_config, 1)
             | Raise e => ("Run system diagnostics", FAILED, exn_str e, 1)
             end]
    /\ trace w' = trace (fresh_world sample_clock)
                  ++ [EvWriteText (DIAGNOSTICS_FILE sample_config)].
Proof.
  apply (diagnostics_effects sample_config sample_clock sample_diagnostics_env
           {| disk_percent := QArith_base.Qmake 423 10; disk_percent_text := "42.3" |}
           (fresh_world sample_clock)).
  reflexivity.
Defined.

Lemma diagnostics_probe_failure_witness :
  exists w',
    run_system_diagnostics sample_config sample_clock
      {| disk_usage := Raise (OtherException "no such drive");
         internet_access := false; diagnostics_written := Ok tt |}
      (fresh_world sample_clock) = (Ok tt, w')
    /\ warnings (error_tracker w') = warnings (error_tracker (fresh_world sample_clock))
    /\ error_view <$> errors (error_tracker w')
       = (error_view <$> errors (error_tracker (fresh_world sample_clock)))
         ++ [("Diagnostics", "no such drive", LOW, "",
              Tracker.get_retry_count "Diagnostics" (error_tracker (fresh_world sample_clock)))]
    /\ step_view <$> steps (audit w')
       = (step_view <$> steps (audit (fresh_world sample_clock)))
         ++ [("Run system diagnostics", RUNNING, "", 1);
             ("Run system diagnostics", FAILED, "no such drive", 1)]
    /\ trace w' = trace (fresh_world sample_clock).
Proof.
  apply (diagnostics_probe_failure sample_config sample_clock
           {| disk_usage := Raise (OtherException "no such drive");
              internet_access := false; diagnostics_written := Ok tt |}
           (OtherException "no such drive") (fresh_world sample_clock)).
  reflexivity.
Defined.

(* ===================================================================== *)
(** ** The ledger and the summaries of the report *)
(* ===================================================================== *)

Lemma run_ops_app t os1 os2 :
  Tracker.run_ops t (os1 ++ os2) = Tracker.run_ops (Tracker.run_ops t os1) os2.
Proof. unfold Tracker.run_ops. apply fold_left_app. Qed.

Lemma errors_run_ops os : forall t, errors t `prefix_of` errors (Tracker.run_ops t os).
Proof.
  unfold Tracker.run_ops.
  induction os as [|o os IH]; intros t; cbn [fold_left]; [done|].
  etrans; [|apply IH]. destruct o; cbn; try done. by apply prefix_app_r.
Qed.

(** X16: An error record keeps the retry count its category had when the
    error was added: on a ledger built from [__init__] by any calls, the
    record of an [add_error] call sits right after the errors recorded
    before it, carries the number of [increment_retry] calls made for its
    category until then, and stays there whatever is called afterwards. *)
Theorem add_error_snapshots_retry_count (before after : list Tracker.op)
    ts category error severity suggestion :
  errors (Tracker.run_ops Tracker.init
            (before ++ Tracker.AddError ts category error severity suggestion :: after))
    !! length (errors (Tracker.run_ops Tracker.init before))
  = Some {| e_category := category; e_error := error; e_severity := severity;
            e_suggestion := suggestion; e_timestamp := ts;
            e_retry_count := Tracker.increments_of category before |}.
Proof.
  rewrite run_ops_app.
  change (Tracker.run_ops ?t (?o :: ?os)) with (Tracker.run_ops (Tracker.apply_op t o) os).
  set (tb := Tracker.run_ops Tracker.init before).
  eapply prefix_lookup_Some; [|apply errors_run_ops].
  cbn [Tracker.apply_op Tracker.add_error snd errors].
  rewrite lookup_app_r, Nat.sub_diag by done. cbn [lookup list_lookup].
  do 2 f_equal.
  change (default 0%nat (retries tb !! category)) with (Tracker.get_retry_count category tb).
  subst tb. by rewrite get_retry_count_run_ops.
Qed.

(** Counting in an insertion-ordered dictionary. *)

Lemma dict_get_incr key c d :
  dict_get c (dict_incr key d)
  = (dict_get c d + (if bool_decide (key = c) then 1 else 0))%nat.
Proof.
  induction d as [|[k n] d IH]; cbn [dict_incr dict_get].
  - repeat case_bool_decide; done || lia.
  - repeat (case_bool_decide; cbn [dict_get]); subst; try done; try lia.
Qed.

Lemma dict_incr_keys key c d : c ∈ (dict_incr key d).*1 <-> c = key \/ c ∈ d.*1.
Proof.
  induction d as [|[k n] d IH]; cbn [dict_incr].
  - cbn. rewrite list_elem_of_singleton, elem_of_nil. tauto.
  - case_bool_decide as Hk; cbn [fmap list_fmap fst]; rewrite !elem_of_cons; cbn [fst].
    + subst k. tauto.
    + change (list_fmap _ _ fst ?l) with (l.*1). rewrite IH. tauto.
Qed.

Lemma dict_incr_NoDup key d : NoDup d.*1 -> NoDup (dict_incr key d).*1.
Proof.
  induction d as [|[k n] d IH]; cbn [dict_incr]; intros Hd.
  - cbn. apply NoDup_singleton.
  - cbn [fmap list_fmap fst] in Hd. apply NoDup_cons in Hd as [Hk Hd].
    case_bool_decide; cbn [fmap list_fmap fst]; apply NoDup_cons; split; try done; [|by apply IH].
    rewrite dict_incr_keys. intros [->|?]; done.
Qed.

Lemma dict_incr_sum key d : sum_list (dict_incr key d).*2 = S (sum_list d.*2).
Proof.
  induction d as [|[k n] d IH]; cbn [dict_incr]; [done|].
  case_bool_decide; rewrite !fmap_cons; cbn [snd sum_list_with id]; rewrite ?IH; lia.
Qed.

Section Tally.

Context {A : Type} (key_of : A -> string).

Lemma tally_counts (l : list A) : forall d,
  NoDup d.*1 ->
  let d' := fold_left (fun d a => dict_incr (key_of a) d) l d in
  NoDup d'.*1
  /\ (forall c, dict_get c d'
                = (dict_get c d
                   + length (List.filter (fun a => bool_decide (key_of a = c)) l))%nat)
  /\ sum_list d'.*2 = (sum_list d.*2 + length l)%nat.
Proof.
  induction l as [|a l IH]; intros d Hd; cbn [fold_left List.filter length].
  - cbn zeta. split; [done|]. split; [intros c|]; lia.
  - destruct (IH (dict_incr (key_of a) d)) as (Hn & Hc & Hs); [by apply dict_incr_NoDup|].
    cbn zeta in *. split; [done|]. split.
    + intros c. rewrite Hc, dict_get_incr. case_bool_decide; cbn [length]; lia.
    + rewrite Hs, dict_incr_sum. lia.
Qed.

End Tally.

(** X17: The two breakdowns of the report: no key is listed twice, the count
    listed for a severity or a category is the number of recorded errors
    that have it (0 for one not listed), and either breakdown adds up to
    the number of errors of the "Errors" line. *)
Theorem error_summary_counts (es : list ErrorRecord) :
  NoDup (by_severity es).*1
  /\ NoDup (by_category es).*1
  /\ (forall s, dict_get (severity_str s) (by_severity es)
                = length (List.filter (fun e => bool_decide (e_severity e = s)) es))
  /\ (forall c, dict_get c (by_category es)
                = length (List.filter (fun e => bool_decide (e_category e = c)) es))
  /\ sum_list (by_severity es).*2 = length es
  /\ sum_list (by_category es).*2 = length es.
Proof.
  destruct (tally_counts (fun e => severity_str (e_severity e)) es [])
    as (Hn1 & Hc1 & Hs1); [constructor|].
  destruct (tally_counts e_category es []) as (Hn2 & Hc2 & Hs2); [constructor|].
  cbn zeta in *. fold (by_severity es) in *. fold (by_category es) in *.
  split; [done|]. split; [done|]. split; [|split; [|split]].
  - intros s. rewrite Hc1. cbn [dict_get Nat.add]. f_equal. apply filter_ext. intros e.
    apply bool_decide_ext. split; [|by intros ->]. by destruct (e_severity e), s.
  - intros c. by rewrite Hc2.
  - by rewrite Hs1.
  - by rewrite Hs2.
Qed.

(* ===================================================================== *)
(** ** The recommendations of the report *)
(* ===================================================================== *)

Lemma existsb_elem_of {A} (f : A -> bool) (l : list A) :
  existsb f l = true <-> exists x, x ∈ l /\ f x = true.
Proof.
  rewrite existsb_exists. split; intros (x & Hx & Hf); exists x; split; try done.
  - by apply list_elem_of_In.
  - by apply list_elem_of_In.
Qed.

Lemma existsb_false_Forall {A} (f : A -> bool) (l : list A) :
  existsb f l = false <-> Forall (fun x => f x = false) l.
Proof.
  induction l as [|x l IH]; cbn [existsb].
  - split; [constructor | done].
  - rewrite orb_false_iff, Forall_cons, IH. tauto.
Qed.

(** Membership of a given line in a given list of lines, decided by
    computation. *)
Ltac decide_line :=
  split;
  [ intros H;
    first [ solve [apply (bool_decide_pack _) in H; vm_compute in H; destruct H]
          | solve [repeat split; reflexivity] ]
  | intros H;
    first [ solve [apply (bool_decide_unpack _); vm_compute; exact I]
          | solve [exfalso; intuition discriminate] ] ].

(** X18: The recommendations of the report are never empty; each of the four
    groups is given exactly when its pattern occurs in a recorded
    category ("Network", "Installer" or "File Verification" in an error's,
    "Disk" in a warning's), and the message of success only when the
    verdict is a success and none of these patterns occurs. *)
Theorem recommendations_cover (t : ErrorTracker) (audit_success : bool) :
  (0 < length (recommendations t audit_success))%nat
  /\ ("• Check your internet connection and firewall settings"
        ∈ recommendations t audit_success
      <-> exists e, e ∈ errors t /\ Str.contains "Network" (e_category e) = true)
  /\ ("• Verify the installer file is complete and not corrupted"
        ∈ recommendations t audit_success
      <-> exists e, e ∈ errors t /\ Str.contains "Installer" (e_category e) = true)
  /\ ("• Free up disk space on your desktop drive" ∈ recommendations t audit_success
      <-> exists x, x ∈ warnings t /\ Str.contains "Disk" (w_category x) = true)
  /\ ("• Try running as Administrator" ∈ recommendations t audit_success
      <-> exists e, e ∈ errors t /\ Str.contains "File Verification" (e_category e) = true)
  /\ ("• Installation completed successfully!" ∈ recommendations t audit_success
      <-> audit_success = true
          /\ Forall (fun e => Str.contains "Network" (e_category e) = false
                              /\ Str.contains "Installer" (e_category e) = false
                              /\ Str.contains "File Verification" (e_category e) = false)
               (errors t)
          /\ Forall (fun x => Str.contains "Disk" (w_category x) = false) (warnings t)).
Proof.
  assert (Forall (fun e => Str.contains "Network" (e_category e) = false
                           /\ Str.contains "Installer" (e_category e) = false
                           /\ Str.contains "File Verification" (e_category e) = false)
            (errors t)
          <-> existsb (fun e => Str.contains "Network" (e_category e)) (errors t) = false
              /\ existsb (fun e => Str.contains "Installer" (e_category e)) (errors t) = false
              /\ existsb (fun e => Str.contains "File Verification" (e_category e)) (errors t)
                 = false) as ->.
  { rewrite !existsb_false_Forall, !Forall_forall. split.
    - intros H. repeat split; intros e He; by destruct (H e He) as (? & ? & ?).
    - intros (H1 & H2 & H3) e He. auto. }
  rewrite <- !existsb_elem_of, <- existsb_false_Forall.
  unfold recommendations.
  destruct (existsb (fun e => Str.contains "Network" (e_category e)) (errors t));
    destruct (existsb (fun e => Str.contains "Installer" (e_category e)) (errors t));
    destruct (existsb (fun x => Str.contains "Disk" (w_category x)) (warnings t));
    destruct (existsb (fun e => Str.contains "File Verification" (e_category e)) (errors t));
    destruct audit_success.
  all: split; [cbn [app length]; lia|].
  all: repeat (split; [decide_line|]); decide_line.
Qed.

(* ===================================================================== *)
(** ** The verifiers: sizes, steps and early ends *)
(* ===================================================================== *)

Section Verifiers.

Variable cfg : Config.
Variable clock : nat -> DT.datetime.

(** The walk adds up the sizes of the regular files. *)
Lemma wp_rglob_size_total nodes : forall total w (Q : result nat -> World -> Prop),
  walk_succeeds nodes ->
  (forall w',
     error_tracker w' = error_tracker w -> audit w' = audit w -> ticks w' = ticks w ->
     Q (Ok (total + tree_size nodes)%nat) w') ->
  wp (rglob_size cfg nodes total) w Q.
Proof.
  unfold walk_succeeds, tree_size.
  induction nodes as [|n rest IH]; intros total w Q Hall HQ; cbn [rglob_size].
  - apply wp_ret. specialize (HQ w). cbn in HQ. rewrite Nat.add_0_r in HQ. by apply HQ.
  - apply Forall_cons in Hall as [Hn Hall].
    rewrite fmap_cons in HQ. cbn [sum_list_with id] in HQ.
    destruct (f_is_file n).
    + destruct Hn as [size Hsize]; [done|]. rewrite Hsize in *.
      wp_go. apply IH; [done|]. intros w' Ht Ha Hti.
      rewrite <- Nat.add_assoc. by apply HQ.
    + apply IH; [done|]. intros w' Ht Ha Hti. cbn [Nat.add] in HQ. by apply HQ.
Qed.

(** The walk ends at the first regular file whose [stat()] raises. *)
Lemma wp_rglob_size_raises before : forall n after e total w
    (Q : result nat -> World -> Prop),
  walk_succeeds before -> f_is_file n = true -> f_stat n = Raise e ->
  (forall w',
     error_tracker w' = error_tracker w -> audit w' = audit w -> ticks w' = ticks w ->
     trace w' = trace w ++ walk_stats cfg (before ++ [n]) ->
     Q (Raise e) w') ->
  wp (rglob_size cfg (before ++ n :: after) total) w Q.
Proof.
  unfold walk_succeeds, walk_stats.
  induction before as [|m before IH]; intros n after e total w Q Hall Hfile Hstat HQ;
    cbn [app rglob_size].
  - rewrite Hfile, Hstat. wp_go. apply HQ; try done.
    world_simpl. cbn [app List.filter]. by rewrite Hfile.
  - apply Forall_cons in Hall as [Hm Hall]. cbn [app List.filter] in HQ.
    destruct (f_is_file m).
    + destruct Hm as [size Hsize]; [done|]. rewrite Hsize.
      wp_go. apply (IH n after e); try done. intros w' Ht Ha Hti Htr. apply HQ; try done.
      rewrite Htr. world_simpl. by rewrite fmap_cons, <- app_assoc.
    + by apply (IH n after e).
Qed.

(** The loop over the manifest, as far as every entry found can be
    inspected. *)
Lemma wp_classify_files_upto nodes before : forall rest v w
    (Q : result (Verification * option exn) -> World -> Prop),
  (forall q m, q ∈ before -> find_node q nodes = Some m -> stat_succeeds m) ->
  (forall w',
     errors (error_tracker w') = errors (error_tracker w) ->
     retries (error_tracker w') = retries (error_tracker w) ->
     audit w' = audit w ->
     wp (classify_files cfg clock nodes rest
           {| files_found := files_found v ++ found_of nodes before;
              files_missing := files_missing v ++ missing_of nodes before;
              files_partial := files_partial v ++ empty_of (found_of nodes before);
              total_expected := total_expected v;
              install_size_bytes := install_size_bytes v |}) w' Q) ->
  wp (classify_files cfg clock nodes (before ++ rest) v) w Q.
Proof.
  induction before as [|path before IH]; intros rest v w Q Hall HQ; cbn [app].
  - specialize (HQ w). cbn in HQ. rewrite !app_nil_r in HQ. destruct v. by apply HQ.
  - cbn [classify_files]. cbn zeta. wp_go.
    assert (forall q m, q ∈ before -> find_node q nodes = Some m -> stat_succeeds m) as Hall'.
    { intros q m Hq. apply Hall. by right. }
    destruct (find_node path nodes) as [n|] eqn:Hfind.
    + destruct (Hall path n) as [size Hsize]; [by left | done |].
      wp_go. rewrite Hsize.
      destruct (size =? 0)%nat eqn:Hzero.
      * wp_go. apply IH; [done|]. cbn. intros w' He Hr Ha.
        rewrite (found_of_cons_found _ _ _ _ _ Hfind Hsize),
          (missing_of_cons_found _ _ _ _ Hfind), empty_of_cons in HQ.
        cbn [ff_is_empty ff_path] in HQ. rewrite Hzero in HQ.
        rewrite <- !app_assoc. by apply HQ.
      * apply IH; [done|]. cbn. intros w' He Hr Ha.
        rewrite (found_of_cons_found _ _ _ _ _ Hfind Hsize),
          (missing_of_cons_found _ _ _ _ Hfind), empty_of_cons in HQ.
        cbn [ff_is_empty ff_path] in HQ. rewrite Hzero in HQ.
        rewrite <- !app_assoc. by apply HQ.
    + apply IH; [done|]. cbn. intros w' He Hr Ha.
      rewrite (found_of_cons_missing _ _ _ Hfind), (missing_of_cons_missing _ _ _ Hfind) in HQ.
      rewrite <- !app_assoc. by apply HQ.
Qed.

(** X19: With every entry open to [stat()], the verifier stores in
    [install_size_bytes] the bytes of the regular files of the directory
    and closes its step with that size and the number of files found:
    SUCCESS when no file of the manifest is missing, WARNING otherwise,
    never FAILED. *)
Theorem verification_step_and_size (nodes : list fnode) (w : World) :
  Forall stat_succeeds nodes ->
  exists w' verification,
    verify_installation_comprehensive cfg clock (Some nodes) w = (Ok verification, w')
    /\ install_size_bytes verification = tree_size nodes
    /\ step_view <$> steps (audit w')
       = (step_view <$> steps (audit w))
         ++ [("Comprehensive installation verification", RUNNING, "", 1);
             ("Comprehensive installation verification",
              (if (length (missing_of nodes (EXPECTED_FILES cfg)) =? 0)%nat
               then SUCCESS else WARNING),
              "Files: " +:+ pretty (length (found_of nodes (EXPECTED_FILES cfg)))
              +:+ "/" +:+ pretty (length (EXPECTED_FILES cfg))
              +:+ " found, Size: " +:+ pretty (tree_size nodes) +:+ " bytes", 1)].
Proof.
  intros Hall.
  destruct (wp_run (verify_installation_comprehensive cfg clock (Some nodes)) w
              (fun r w' =>
                 exists v, r = Ok v
                 /\ install_size_bytes v = tree_size nodes
                 /\ step_view <$> steps (audit w')
                    = (step_view <$> steps (audit w))
                      ++ [("Comprehensive installation verification", RUNNING, "", 1);
                          ("Comprehensive installation verification",
                           (if (length (missing_of nodes (EXPECTED_FILES cfg)) =? 0)%nat
                            then SUCCESS else WARNING),
                           "Files: " +:+ pretty (length (found_of nodes (EXPECTED_FILES cfg)))
                           +:+ "/" +:+ pretty (length (EXPECTED_FILES cfg))
                           +:+ " found, Size: " +:+ pretty (tree_size nodes) +:+ " bytes",
                           1)]))
    as (r & w' & Hrun & v & -> & Hv); [|by exists w', v].
  unfold verify_installation_comprehensive. wp_go.
  apply wp_attempt_to, wp_rglob_size_total.
  { unfold walk_succeeds. eapply Forall_impl; [exact Hall|]. auto. }
  intros w1 _ Ha1 _. cbn [Nat.add].
  wp_go. apply wp_classify_files; [done|]. intros w2 _ _ Ha2 _.
  unfold analyze_results. cbn [files_found files_missing files_partial app]. wp_go.
  destruct (0 <? _)%nat; wp_go; (destruct (_ =? 0)%nat; wp_go).
  all: eexists; split; [reflexivity|]; split; [done|].
  all: rewrite Ha2, Ha1; world_simpl; by rewrite !fmap_app, <- app_assoc.
Qed.

(** X20: A [stat()] that raises on a regular file during the walk ends the
    verification before any file of the manifest is looked at: the result
    is the dictionary as initialised, with nothing found and nothing
    missing, one HIGH "Installation Verification" error is recorded and
    the step stays RUNNING. *)
Theorem verification_skipped_when_walk_fails before n after e (w : World) :
  walk_succeeds before ->
  f_is_file n = true ->
  f_stat n = Raise e ->
  exists w' verification,
    verify_installation_comprehensive cfg clock (Some (before ++ n :: after)) w
    = (Ok verification, w')
    /\ files_found verification = []
    /\ files_missing verification = []
    /\ install_size_bytes verification = 0%nat
    /\ error_view <$> errors (error_tracker w')
       = (error_view <$> errors (error_tracker w))
         ++ [("Installation Verification", exn_str e, HIGH, "",
              Tracker.get_retry_count "Installation Verification" (error_tracker w))]
    /\ step_view <$> steps (audit w')
       = (step_view <$> steps (audit w))
         ++ [("Comprehensive installation verification", RUNNING, "", 1)]
    /\ trace w'
       = trace w ++ EvExists (INSTALL_DIR cfg) :: EvRglob (INSTALL_DIR cfg)
                 :: walk_stats cfg (before ++ [n]).
Proof.
  intros Hwalk Hfile Hstat.
  destruct (wp_run (verify_installation_comprehensive cfg clock
                      (Some (before ++ n :: after))) w
              (fun r w' =>
                 r = Ok {| files_found := []; files_missing := []; files_partial := [];
                           total_expected := length (EXPECTED_FILES cfg);
                           install_size_bytes := 0 |}
                 /\ error_view <$> errors (error_tracker w')
                    = (error_view <$> errors (error_tracker w))
                      ++ [("Installation Verification", exn_str e, HIGH, "",
                           Tracker.get_retry_count "Installation Verification"
                             (error_tracker w))]
                 /\ step_view <$> steps (audit w')
                    = (step_view <$> steps (audit w))
                      ++ [("Comprehensive installation verification", RUNNING, "", 1)]
                 /\ trace w'
                    = trace w ++ EvExists (INSTALL_DIR cfg) :: EvRglob (INSTALL_DIR cfg)
                              :: walk_stats cfg (before ++ [n])))
    as (r & w' & Hrun & -> & He & Hs & Htr); [|by eexists w', _].
  unfold verify_installation_comprehensive. wp_go.
  apply wp_attempt_to, (wp_rglob_size_raises before n after e); try done.
  world_simpl. intros w1 Ht1 Ha1 _ Htr1. wp_go.
  split; [done|]. rewrite Ht1, Ha1, Htr1. world_simpl.
  rewrite !fmap_app, <- !app_assoc. done.
Qed.

(** X21: A [stat()] that raises on an entry of the manifest ends the
    verification there: the result holds what was classified before that
    entry and none of the entries after it, not even as missing; one HIGH
    "Installation Verification" error is recorded, no aggregate error,
    and the step stays RUNNING. *)
Theorem verification_stops_at_failing_stat nodes before path after n e (w : World) :
  EXPECTED_FILES cfg = before ++ path :: after ->
  walk_succeeds nodes ->
  (forall q m, q ∈ before -> find_node q nodes = Some m -> stat_succeeds m) ->
  find_node path nodes = Some n ->
  f_stat n = Raise e ->
  exists w' verification,
    verify_installation_comprehensive cfg clock (Some nodes) w = (Ok verification, w')
    /\ files_found verification = found_of nodes before
    /\ files_missing verification = missing_of nodes before
    /\ files_partial verification = empty_of (found_of nodes before)
    /\ install_size_bytes verification = tree_size nodes
    /\ error_view <$> errors (error_tracker w')
       = (error_view <$> errors (error_tracker w))
         ++ [("Installation Verification", exn_str e, HIGH, "",
              Tracker.get_retry_count "Installation Verification" (error_tracker w))]
    /\ step_view <$> steps (audit w')
       = (step_view <$> steps (audit w))
         ++ [("Comprehensive installation verification", RUNNING, "", 1)].
Proof.
  intros Hexp Hwalk Hbefore Hfind Hstat.
  destruct (wp_run (verify_installation_comprehensive cfg clock (Some nodes)) w
              (fun r w' =>
                 r = Ok {| files_found := found_of nodes before;
                           files_missing := missing_of nodes before;
                           files_partial := empty_of (found_of nodes before);
                           total_expected := length (EXPECTED_FILES cfg);
                           install_size_bytes := tree_size nodes |}
                 /\ error_view <$> errors (error_tracker w')
                    = (error_view <$> errors (error_tracker w))
                      ++ [("Installation Verification", exn_str e, HIGH, "",
                           Tracker.get_retry_count "Installation Verification"
                             (error_tracker w))]
                 /\ step_view <$> steps (audit w')
                    = (step_view <$> steps (audit w))
                      ++ [("Comprehensive installation verification", RUNNING, "", 1)]))
    as (r & w' & Hrun & -> & He & Hs); [|by eexists w', _].
  unfold verify_installation_comprehensive. wp_go.
  apply wp_attempt_to, wp_rglob_size_total; [done|].
  world_simpl. intros w1 Ht1 Ha1 _. cbn [Nat.add].
  wp_go. rewrite Hexp. apply wp_classify_files_upto; [done|].
  intros w2 He2 Hr2 Ha2. cbn [files_found files_missing files_partial total_expected
                               install_size_bytes app].
  cbn [classify_files]. cbn zeta. wp_go. rewrite Hfind. wp_go. rewrite Hstat. wp_go.
  split; [done|].
  unfold Tracker.get_retry_count. rewrite He2, Hr2, Ha2, Ht1, Ha1. world_simpl.
  by rewrite !fmap_app.
Qed.

(** X22: A validator that answers [False] has recorded exactly one error for
    it, CRITICAL when the installer file does not exist and HIGH when it
    cannot be inspected or read; it closes no step, so that its RUNNING
    step stays the last one. *)
Theorem installer_validation_failure (bat : option BatFile) (w : World) :
  installer_readable bat = false ->
  exists w' record,
    verify_installer_comprehensive cfg clock bat w = (Ok false, w')
    /\ errors (error_tracker w') = errors (error_tracker w) ++ [record]
    /\ e_severity record = match bat with None => CRITICAL | Some _ => HIGH end
    /\ e_category record
       = match bat with
         | Some {| bat_stat := Ok _; bat_read_text := Raise (UnicodeDecodeError _) |} =>
             "Installer Encoding"
         | _ => "Installer Verification"
         end
    /\ step_view <$> steps (audit w')
       = (step_view <$> steps (audit w))
         ++ [("Comprehensive installer verification", RUNNING, "", 1)].
Proof.
  intros Hbat.
  destruct (wp_run (verify_installer_comprehensive cfg clock bat) w
              (fun r w' =>
                 r = Ok false
                 /\ exists record,
                      errors (error_tracker w') = errors (error_tracker w) ++ [record]
                      /\ e_severity record
                         = match bat with None => CRITICAL | Some _ => HIGH end
                      /\ e_category record
                         = match bat with
                           | Some {| bat_stat := Ok _;
                                     bat_read_text := Raise (UnicodeDecodeError _) |} =>
                               "Installer Encoding"
                           | _ => "Installer Verification"
                           end
                      /\ step_view <$> steps (audit w')
                         = (step_view <$> steps (audit w))
                           ++ [("Comprehensive installer verification", RUNNING, "", 1)]))
    as (r & w' & Hrun & -> & record & H); [|by exists w', record].
  unfold verify_installer_comprehensive, verify_installer_checked. wp_go.
  destruct bat as [[stat read]|]; cbn [bat_stat bat_read_text installer_readable] in *.
  - wp_go. destruct stat as [size|e].
    + wp_go. destruct (size <? 100)%nat; wp_go.
      all: destruct read as [content|[msg|msg]]; [done| |]; wp_go.
      all: split; [done|]; eexists; repeat split; world_simpl; by rewrite ?fmap_app.
    + wp_go. split; [done|]. eexists. repeat split. world_simpl. by rewrite fmap_app.
  - wp_go. split; [done|]. eexists. repeat split. world_simpl. by rewrite fmap_app.
Qed.

End Verifiers.

Lemma verification_step_and_size_witness :
  exists w' verification,
    verify_installation_comprehensive sample_config sample_clock (Some sample_tree)
      (fresh_world sample_clock) = (Ok verification, w')
    /\ install_size_bytes verification = tree_size sample_tree
    /\ step_view <$> steps (audit w')
       = (step_view <$> steps (audit (fresh_world sample_clock)))
         ++ [("Comprehensive installation verification", RUNNING, "", 1);
             ("Comprehensive installation verification",
              (if (length (missing_of sample_tree (EXPECTED_FILES sample_config)) =? 0)%nat
               then SUCCESS else WARNING),
              "Files: " +:+ pretty (length (found_of sample_tree (EXPECTED_FILES sample_config)))
              +:+ "/" +:+ pretty (length (EXPECTED_FILES sample_config))
              +:+ " found, Size: " +:+ pretty (tree_size sample_tree) +:+ " bytes", 1)].
Proof.
  apply (verification_step_and_size sample_config sample_clock sample_tree
           (fresh_world sample_clock)).
  apply Forall_fmap, Forall_true. intros p. by exists 10%nat.
Defined.

Lemma verification_skipped_when_walk_fails_witness :
  exists w' verification,
    verify_installation_comprehensive sample_config sample_clock
      (Some sample_unwalkable_tree) (fresh_world sample_clock)
    = (Ok verification, w')
    /\ files_found verification = []
    /\ files_missing verification = []
    /\ install_size_bytes verification = 0%nat
    /\ error_view <$> errors (error_tracker w')
       = (error_view <$> errors (error_tracker (fresh_world sample_clock)))
         ++ [("Installation Verification", "Access is denied", HIGH, "",
              Tracker.get_retry_count "Installation Verification"
                (error_tracker (fresh_world sample_clock)))]
    /\ step_view <$> steps (audit w')
       = (step_view <$> steps (audit (fresh_world sample_clock)))
         ++ [("Comprehensive installation verification", RUNNING, "", 1)]
    /\ trace w'
       = trace (fresh_world sample_clock)
         ++ EvExists (INSTALL_DIR sample_config) :: EvRglob (INSTALL_DIR sample_config)
         :: walk_stats sample_config
              ([] ++ [ {| f_path := "main.py"; f_is_file := true;
                         f_stat := Raise (OtherException "Access is denied") |} ]).
Proof.
  apply (verification_skipped_when_walk_fails sample_config sample_clock []
           {| f_path := "main.py"; f_is_file := true;
              f_stat := Raise (OtherException "Access is denied") |}
           [ {| f_path := "requirements.txt"; f_is_file := true; f_stat := Ok 120%nat |} ]
           (OtherException "Access is denied") (fresh_world sample_clock)).
  - constructor.
  - reflexivity.
  - reflexivity.
Defined.

Lemma verification_stops_at_failing_stat_witness :
  exists w' verification,
    verify_installation_comprehensive sample_config sample_clock (Some sample_broken_tree)
      (fresh_world sample_clock) = (Ok verification, w')
    /\ files_found verification = found_of sample_broken_tree []
    /\ files_missing verification = missing_of sample_broken_tree []
    /\ files_partial verification = empty_of (found_of sample_broken_tree [])
    /\ install_size_bytes verification = tree_size sample_broken_tree
    /\ error_view <$> errors (error_tracker w')
       = (error_view <$> errors (error_tracker (fresh_world sample_clock)))
         ++ [("Installation Verification", "Access is denied", HIGH, "",
              Tracker.get_retry_count "Installation Verification"
                (error_tracker (fresh_world sample_clock)))]
    /\ step_view <$> steps (audit w')
       = (step_view <$> steps (audit (fresh_world sample_clock)))
         ++ [("Comprehensive installation verification", RUNNING, "", 1)].
Proof.
  apply (verification_stops_at_failing_stat sample_config sample_clock sample_broken_tree
           [] "main.py" (tail source_EXPECTED_FILES)
           {| f_path := "main.py"; f_is_file := false;
              f_stat := Raise (OtherException "Access is denied") |}
           (OtherException "Access is denied") (fresh_world sample_clock)).
  - reflexivity.
  - repeat constructor. discriminate.
  - intros q m Hq. by apply elem_of_nil in Hq.
  - reflexivity.
  - reflexivity.
Defined.

Lemma installer_validation_failure_witness :
  exists w' record,
    verify_installer_comprehensive sample_config sample_clock
      (Some {| bat_stat := Ok 2048%nat;
               bat_read_text := Raise (UnicodeDecodeError "invalid start byte") |})
      (fresh_world sample_clock) = (Ok false, w')
    /\ errors (error_tracker w') = errors (error_tracker (fresh_world sample_clock)) ++ [record]
    /\ e_severity record = HIGH
    /\ e_category record = "Installer Encoding"
    /\ step_view <$> steps (audit w')
       = (step_view <$> steps (audit (fresh_world sample_clock)))
         ++ [("Comprehensive installer verification", RUNNING, "", 1)].
Proof.
  apply (installer_validation_failure sample_config sample_clock
           (Some {| bat_stat := Ok 2048%nat;
                    bat_read_text := Raise (UnicodeDecodeError "invalid start byte") |})
           (fresh_world sample_clock)).
  reflexivity.
Defined.
